(** * Series tracking and new-release detection (audiobookshelf)

  A shallow embedding of the server side of the series-tracking feature:
  the Audible catalog client ([server/providers/Audible.js]), the series
  finder ([server/finders/SeriesFinder.js]), the [TrackedSeries] and
  [NewRelease] models with the 2.32.0 migration, the
  [SeriesTrackingController] and the [NewReleaseManager].

  Conventions of the embedding.
  - A JavaScript string is a [string], the list of the bytes of its
    UTF-8 form.  Every pattern of the source only inspects ASCII
    characters; [toUpperCase] is the host's conversion ([Js.Casing]).
  - A property that may be [undefined]/[null] is an [option].
  - Network calls, the database, the logger and the clock are explicit
    state; the answers of the network are an oracle. *)

From Stdlib Require Import String Ascii List Bool Arith ZArith QArith Lia.
From Stdlib Require Import Sorting.Sorted Sorting.Permutation.
Import ListNotations.

Local Close Scope Q_scope.
Local Open Scope list_scope.
Local Open Scope string_scope.

(* ================================================================== *)
(** ** JavaScript primitives *)
(* ================================================================== *)

Module Js.

(** [!!s] for a string: only the empty string is falsy. *)
Definition truthy (s : string) : bool :=
  match s with
  | EmptyString => false
  | String _ _ => true
  end.

(** [!!x] for a property that may be absent. *)
Definition truthy_opt (o : option string) : bool :=
  match o with
  | Some s => truthy s
  | None => false
  end.

(** [a || b] on possibly absent strings. *)
Definition or_else (o : option string) (d : string) : string :=
  match o with
  | Some s => if truthy s then s else d
  | None => d
  end.

(** [a || null]. *)
Definition or_null (o : option string) : option string :=
  match o with
  | Some s => if truthy s then Some s else None
  | None => None
  end.

Definition is_digit (c : ascii) : bool :=
  let n := nat_of_ascii c in Nat.leb 48 n && Nat.leb n 57.

Definition is_lower (c : ascii) : bool :=
  let n := nat_of_ascii c in Nat.leb 97 n && Nat.leb n 122.

Definition is_upper (c : ascii) : bool :=
  let n := nat_of_ascii c in Nat.leb 65 n && Nat.leb n 90.

Definition upper_char (c : ascii) : ascii :=
  if is_lower c then ascii_of_nat (nat_of_ascii c - 32) else c.

Fixpoint all_chars (p : ascii -> bool) (s : string) : bool :=
  match s with
  | EmptyString => true
  | String c r => p c && all_chars p r
  end.

Fixpoint any_char (p : ascii -> bool) (s : string) : bool :=
  match s with
  | EmptyString => false
  | String c r => p c || any_char p r
  end.

(** A byte of an ASCII character: the bytes of every other character, in
    UTF-8, are 128 and above. *)
Definition is_ascii (c : ascii) : bool := Nat.ltb (nat_of_ascii c) 128.

(** [toUpperCase] on a string of ASCII characters: the letters [a-z]
    become [A-Z]. *)
Fixpoint ascii_toUpperCase (s : string) : string :=
  match s with
  | EmptyString => EmptyString
  | String c r => String (upper_char c) (ascii_toUpperCase r)
  end.

(** [String.prototype.toUpperCase] is the host's conversion, which maps
    the letters of every script by the tables of Unicode.  The tables are
    not embedded: the conversion is left open, fixed on the strings of
    ASCII characters only, and what is proved holds for every conversion
    that agrees with the host's there. *)
Class Casing := {
  toUpperCase : string -> string;
  toUpperCase_ascii :
    forall s, all_chars is_ascii s = true -> toUpperCase s = ascii_toUpperCase s
}.

(** The conversion that leaves every other byte as it is: the one of the
    closed examples, whose strings are ASCII. *)
Definition ascii_casing : Casing :=
  {| toUpperCase := ascii_toUpperCase;
     toUpperCase_ascii := fun _ _ => eq_refl |}.

(** [xs.join(sep)]. *)
Fixpoint join (sep : string) (xs : list string) : string :=
  match xs with
  | [] => ""
  | [x] => x
  | x :: r => x ++ sep ++ join sep r
  end.

(** [s.split('-')[0]]: the part of [s] before the first dash. *)
Fixpoint before_dash (s : string) : string :=
  match s with
  | EmptyString => EmptyString
  | String c r => if Ascii.eqb c "-" then EmptyString else String c (before_dash r)
  end.

End Js.

(* ================================================================== *)
(** ** The sequence pattern of [cleanSeriesSequence] *)
(* ================================================================== *)

(** The matcher of [/\.\d+|\d+(?:\.\d+)?/]: the alternatives are tried in
  order at a position, [\d+] is greedy, and the first position (from
  the left) at which an alternative matches wins. *)
Module SequenceRe.

(** Greedy [\d*]: the longest run of digits and what follows it. *)
Fixpoint span_digits (s : string) : string * string :=
  match s with
  | EmptyString => (EmptyString, EmptyString)
  | String c r =>
      if Js.is_digit c
      then let (ds, post) := span_digits r in (String c ds, post)
      else (EmptyString, s)
  end.

(** [\.\d+] anchored at the start of [s]. *)
Definition dot_digits (s : string) : option (string * string) :=
  match s with
  | String c r =>
      if Ascii.eqb c "."
      then match span_digits r with
           | (EmptyString, _) => None
           | (ds, post) => Some (String c ds, post)
           end
      else None
  | EmptyString => None
  end.

(** [\.\d+|\d+(?:\.\d+)?] anchored at the start of [s]: the text matched
    and the rest of the input. *)
Definition match_here (s : string) : option (string * string) :=
  match dot_digits s with
  | Some r => Some r
  | None =>
      match span_digits s with
      | (EmptyString, _) => None
      | (ds, rest) =>
          match dot_digits rest with
          | Some (frac, post) => Some (ds ++ frac, post)
          | None => Some (ds, rest)
          end
      end
  end.

(** [sequence.match(re)]: [numberFound[0]] of the leftmost match. *)
Fixpoint first_match (s : string) : option string :=
  match match_here s with
  | Some (m, _) => Some m
  | None =>
      match s with
      | EmptyString => None
      | String _ r => first_match r
      end
  end.

(** The shape of a match: [.d+], [d+] or [d+.d+]. *)
Definition is_number (m : string) : bool :=
  match match_here m with
  | Some (_, EmptyString) => true
  | _ => false
  end.

Definition starts_with_digit (s : string) : bool :=
  match s with
  | String c _ => Js.is_digit c
  | EmptyString => false
  end.

Definition has_digit (s : string) : bool := Js.any_char Js.is_digit s.

End SequenceRe.

(* ================================================================== *)
(** ** Identifier validation *)
(* ================================================================== *)

(** [isValidASIN] is imported from [server/utils/index.js], which is not
    among the sources.  The provider, the finder and the manager are
    parametrised by it, so what is proved of them holds for any
    validator. *)
Class AsinValidator := isValidASIN : string -> bool.

(** Modelled from the spec: [isValidASIN] of [server/utils/index.js], the
    provider's fixed-format identifier pattern: "fixed length,
    alphanumeric, case-insensitive".  The length is the ten characters of
    an Audible ASIN.  It serves as the validator of the closed examples. *)
Definition specValidASIN : AsinValidator :=
  fun s =>
    Nat.eqb (String.length s) 10
    && Js.all_chars (fun c => Js.is_digit c || Js.is_upper c || Js.is_lower c) s.

(* ================================================================== *)
(** ** Payloads of the provider's endpoints *)
(* ================================================================== *)

(** [seriesPrimary] / [seriesSecondary] of an Audnexus book. *)
Record SeriesRef := {
  sref_asin : option string;
  sref_name : option string;
  sref_position : option string
}.

(** The fields of an Audnexus book ([res.data] of [asinSearch]) that reach
    the series finder. *)
Record AudnexBook := {
  ab_asin : option string;
  ab_title : option string;
  ab_authors : option (list string);
  ab_narrators : option (list string);
  ab_image : option string;
  ab_releaseDate : option string;
  ab_seriesPrimary : option SeriesRef;
  ab_seriesSecondary : option SeriesRef
}.

(** An entry of [similar_products], of [product.relationships] or of
    [product.series]. *)
Record Related := {
  rel_asin : option string;
  relationship_to_product : option string;
  relationship_type : option string;
  rel_title : option string;
  rel_sequence : option string
}.

Record Product := {
  product_series : option (list Related);
  product_relationships : option (list Related)
}.

(** [res.data] of a successful GET, by endpoint. *)
Inductive Payload :=
| BookData (data : AudnexBook)
| SimsData (similar_products : option (list Related))
| ProductData (product : option Product)
| NoData.

(** [res?.data?.asin] and the like: a property of a payload of another
    shape is [undefined]. *)
Definition data_book (res : Payload) : option AudnexBook :=
  match res with
  | BookData b => Some b
  | _ => None
  end.

Definition data_similar_products (res : Payload) : option (list Related) :=
  match res with
  | SimsData l => l
  | _ => None
  end.

Definition data_product (res : Payload) : option Product :=
  match res with
  | ProductData p => p
  | _ => None
  end.

(* ================================================================== *)
(** ** The database *)
(* ================================================================== *)

Definition uuid := nat.

Record Series := {
  series_id : uuid;
  series_name : string
}.

(** A book of a series with the [libraryItem] it is expanded with. *)
Record Book := {
  book_asin : option string;
  book_libraryId : option uuid
}.

Record Library := {
  library_id : uuid;
  library_provider : option string
}.

Record TrackedSeries := {
  ts_id : uuid;
  ts_userId : uuid;
  ts_seriesId : uuid;
  ts_seriesAsin : option string;
  ts_autoTracked : bool;
  ts_region : option string;
  ts_lastChecked : option Z;
  ts_createdAt : Z;
  ts_updatedAt : Z
}.

(** A value of a [DATEONLY] column: what Sequelize makes of the text it
    is given ([moment(given).format('YYYY-MM-DD')]).  The formatting is
    not embedded: the value is kept as the text it was made from. *)
Inductive DateOnly := dateonly (given : string).

Record NewRelease := {
  nr_id : uuid;
  nr_trackedSeriesId : uuid;
  nr_asin : string;
  nr_title : string;
  nr_author : option string;
  nr_narrator : option string;
  nr_coverUrl : option string;
  nr_releaseDate : option DateOnly;
  nr_sequence : option string;
  nr_provider : string;
  nr_dismissed : bool;
  nr_discoveredAt : Z;
  nr_createdAt : Z
}.

(** An index as [queryInterface.addIndex] declares it. *)
Record IndexDef := {
  ix_table : string;
  ix_fields : list string;
  ix_unique : bool;
  ix_name : string
}.

Record Schema := {
  tables : list string;
  indexes : list IndexDef
}.

Record Db := {
  schema : Schema;
  seriesTable : list Series;
  bookSeries : list (uuid * Book);
  libraryTable : list Library;
  trackedSeriesTable : list TrackedSeries;
  newReleaseTable : list NewRelease;
  nextId : uuid
}.

(* ================================================================== *)
(** ** The world and the monad of effects *)
(* ================================================================== *)

Inductive Exn :=
| SequelizeUniqueConstraintError
| SequelizeValidationError
| SequelizeForeignKeyConstraintError
| SequelizeEagerLoadingError
| OtherError (message : string).


(** The lines the [NewReleaseManager] and the [SeriesTrackingController]
    write to the logger. *)
Inductive LogLine :=
| CheckAlreadyRunning
| StartingScheduledCheck
| FoundSeriesDue (n : nat)
| ScheduledCheckCompleted
| ErrorDuringScheduledCheck (e : Exn)
| CheckingSeries (seriesName : string)
| CouldNotFindSeriesAsin (seriesName : string)
| NewReleaseFound (title : option string) (seriesName : string)
| ReleaseAlreadyExists (asin : option string)
| ErrorCreatingReleaseRecord (e : Exn)
| ErrorCheckingSeries (seriesName : string) (e : Exn)
| TrackedSeriesNotFound (id : uuid)
| SeriesNotFound (id : uuid)
| StartedFollowing (userId : uuid) (seriesName : string).


(** What is handed to the delivery and realtime collaborators. *)
Inductive Emitted :=
| OnNewSeriesRelease (trackedSeriesId : uuid) (release : NewRelease)
| NewReleasesUpdated (userId : uuid).

(** The state the server code acts on.  [network k url] is what the
    [k]-th GET of the run answers when it asks for [url]: [None] is a
    transport failure (axios rejects), [Some data] a response.
    [requests] lists the URLs asked so far, [logged] the log lines,
    [emitted] the notifications, [clock] is [new Date()] in
    milliseconds. *)
Record World := {
  network : nat -> string -> option Payload;
  db : Db;
  requests : list string;
  logged : list LogLine;
  emitted : list Emitted;
  clock : Z
}.

Definition with_db (d : Db) (w : World) : World :=
  {| network := network w; db := d; requests := requests w;
     logged := logged w; emitted := emitted w; clock := clock w |}.

Definition with_request (url : string) (w : World) : World :=
  {| network := network w; db := db w; requests := (requests w ++ [url])%list;
     logged := logged w; emitted := emitted w; clock := clock w |}.

Definition with_logged (l : LogLine) (w : World) : World :=
  {| network := network w; db := db w; requests := requests w;
     logged := (logged w ++ [l])%list; emitted := emitted w; clock := clock w |}.

Definition with_emitted (e : Emitted) (w : World) : World :=
  {| network := network w; db := db w; requests := requests w;
     logged := logged w; emitted := (emitted w ++ [e])%list; clock := clock w |}.

Inductive Outcome (A : Type) :=
| Ok (a : A)
| Throw (e : Exn).
Arguments Ok {A} a.
Arguments Throw {A} e.

Definition M (A : Type) := World -> Outcome A * World.

Definition ret {A} (a : A) : M A := fun w => (Ok a, w).

Definition bind {A B} (m : M A) (k : A -> M B) : M B :=
  fun w =>
    match m w with
    | (Ok a, w') => k a w'
    | (Throw e, w') => (Throw e, w')
    end.

Definition throw {A} (e : Exn) : M A := fun w => (Throw e, w).

(** [try { m } catch (error) { h error }]. *)
Definition try_catch {A} (m : M A) (h : Exn -> M A) : M A :=
  fun w =>
    match m w with
    | (Ok a, w') => (Ok a, w')
    | (Throw e, w') => h e w'
    end.

Declare Scope monad_scope.
Delimit Scope monad_scope with monad.
Notation "x <- m ;; k" := (bind m (fun x => k))
  (at level 61, m at next level, right associativity) : monad_scope.
Notation "m ;;; k" := (bind m (fun _ => k))
  (at level 61, right associativity) : monad_scope.
Local Open Scope monad_scope.

Definition get_db : M Db := fun w => (Ok (db w), w).

Definition set_db (d : Db) : M unit := fun w => (Ok tt, with_db d w).

Definition now : M Z := fun w => (Ok (clock w), w).

Definition Logger (l : LogLine) : M unit := fun w => (Ok tt, with_logged l w).

Definition emit (e : Emitted) : M unit := fun w => (Ok tt, with_emitted e w).

(** [axios.get(url, { timeout })], with its rejection as [None]: every
    call of the provider sits in a [try] or has a [.catch]. *)
Definition axios_get (url : string) : M (option Payload) :=
  fun w => (Ok (network w (List.length (requests w)) url), with_request url w).

Fixpoint mapM {A B} (f : A -> M B) (l : list A) : M (list B) :=
  match l with
  | [] => ret []
  | x :: r => y <- f x ;; ys <- mapM f r ;; ret (y :: ys)
  end.

(* ================================================================== *)
(** ** [server/providers/Audible.js] *)
(* ================================================================== *)

(** The response timeout of the requests has no counterpart here: a
    request that times out is a request that failed.  The provider's own
    debug and error log lines are not recorded. *)
Module Audible.

Definition regionMap : list (string * string) :=
  [ ("us", ".com"); ("ca", ".ca"); ("uk", ".co.uk"); ("au", ".com.au");
    ("fr", ".fr"); ("de", ".de"); ("jp", ".co.jp"); ("it", ".it");
    ("in", ".in"); ("es", ".es") ].

Fixpoint assoc (k : string) (m : list (string * string)) : option string :=
  match m with
  | [] => None
  | (k', v) :: r => if String.eqb k k' then Some v else assoc k r
  end.

(** The names an object literal inherits from [Object.prototype], each
    with the text its value has in a template literal (Node's): the value
    of a method is a function, the value of [__proto__] is the prototype
    itself. *)
Definition inherited : list (string * string) :=
  [ ("constructor", "function Object() { [native code] }");
    ("__defineGetter__", "function __defineGetter__() { [native code] }");
    ("__defineSetter__", "function __defineSetter__() { [native code] }");
    ("hasOwnProperty", "function hasOwnProperty() { [native code] }");
    ("__lookupGetter__", "function __lookupGetter__() { [native code] }");
    ("__lookupSetter__", "function __lookupSetter__() { [native code] }");
    ("isPrototypeOf", "function isPrototypeOf() { [native code] }");
    ("propertyIsEnumerable", "function propertyIsEnumerable() { [native code] }");
    ("toString", "function toString() { [native code] }");
    ("valueOf", "function valueOf() { [native code] }");
    ("__proto__", "[object Object]");
    ("toLocaleString", "function toLocaleString() { [native code] }") ].

(** [this.regionMap[region]], as the text the value has in a template
    literal: the suffix of an own key, or the value of an inherited name
    (an object, which is truthy as its text is); an absent region is the
    key ['undefined'], which is neither. *)
Definition regionMap_get (region : option string) : option string :=
  match region with
  | Some r =>
      match assoc r regionMap with
      | Some tld => Some tld
      | None => assoc r inherited
      end
  | None => None
  end.

Definition hex_digit (n : nat) : ascii :=
  if Nat.ltb n 10 then ascii_of_nat (48 + n) else ascii_of_nat (55 + n).

Definition uri_unreserved (c : ascii) : bool :=
  Js.is_digit c || Js.is_upper c || Js.is_lower c
  || existsb (Ascii.eqb c) ["-"; "_"; "."; "!"; "~"; "*"; "'"; "("; ")"]%char.

(** [encodeURIComponent] on the bytes of the string. *)
Fixpoint encodeURIComponent (s : string) : string :=
  match s with
  | EmptyString => EmptyString
  | String c r =>
      if uri_unreserved c then String c (encodeURIComponent r)
      else
        let n := nat_of_ascii c in
        String "%" (String (hex_digit (n / 16)) (String (hex_digit (n mod 16))
          (encodeURIComponent r)))
  end.

(** [cleanSeriesSequence(seriesName, sequence)]. *)
Definition cleanSeriesSequence (seriesName : option string) (sequence : option string)
  : string :=
  match sequence with
  | None => ""
  | Some sequence =>
      if negb (Js.truthy sequence) then ""
      else
        let numberFound := SequenceRe.first_match sequence in
        let updatedSequence :=
          match numberFound with
          | Some m => m
          | None => sequence
          end in
        updatedSequence
  end.

(** An entry of the [series] array of a cleaned result. *)
Record SeriesEntry := {
  se_series : option string;
  se_sequence : string
}.

(** The fields of [cleanResult(item)] that the series finder reads. *)
Record CleanBook := {
  title : option string;
  author : option string;
  narrator : option string;
  publishedYear : option string;
  cover : option string;
  asin : option string;
  series : option (list SeriesEntry)
}.

Definition series_entry (s : option SeriesRef) : list SeriesEntry :=
  match s with
  | Some s =>
      [ {| se_series := sref_name s;
           se_sequence :=
             cleanSeriesSequence (sref_name s) (Some (Js.or_else (sref_position s) "")) |} ]
  | None => []
  end.

Definition cleanResult (item : AudnexBook) : CleanBook :=
  let series := (series_entry (ab_seriesPrimary item)
                 ++ series_entry (ab_seriesSecondary item))%list in
  {| title := ab_title item;
     author := option_map (Js.join ", ") (ab_authors item);
     narrator := option_map (Js.join ", ") (ab_narrators item);
     publishedYear :=
       match ab_releaseDate item with
       | Some d => if Js.truthy d then Some (Js.before_dash d) else None
       | None => None
       end;
     cover := ab_image item;
     asin := ab_asin item;
     series := match series with [] => None | _ => Some series end |}.

(** The [url] of [asinSearch]. *)
Definition asin_url {casing : Js.Casing} (asin : string) (region : option string) : string :=
  let asin := encodeURIComponent (Js.toUpperCase asin) in
  let regionQuery :=
    match region with
    | Some r => if Js.truthy r then "?region=" ++ r else ""
    | None => ""
    end in
  "https://api.audnex.us/books/" ++ asin ++ regionQuery.

(** [asinSearch(asin, region)]. *)
Definition asinSearch {casing : Js.Casing} (asin : option string) (region : option string)
  : M (option AudnexBook) :=
  match asin with
  | None => ret None
  | Some asin =>
      if negb (Js.truthy asin) then ret None
      else
        res <- axios_get (asin_url asin region) ;;
        match res with
        | Some data =>
            match data_book data with
            | Some b => if Js.truthy_opt (ab_asin b) then ret (Some b) else ret None
            | None => ret None
            end
        | None => ret None
        end
  end.

(** The region after [if (region && !this.regionMap[region]) region = 'us']. *)
Definition default_region (region : option string) : option string :=
  if Js.truthy_opt region && negb (Js.truthy_opt (regionMap_get region))
  then Some "us" else region.

(** [this.regionMap[region] || '.com']. *)
Definition tld_of (region : option string) : string :=
  Js.or_else (regionMap_get region) ".com".

(** The [url] of [getSeriesBooks], from the upper-cased identifier and
    the region after its default. *)
Definition sims_url (asin : string) (region : option string) : string :=
  "https://api.audible" ++ tld_of region ++ "/1.0/catalog/products/" ++ asin
  ++ "/sims?similarity_type=InTheSameSeries&num_results=50".

(** The [seriesUrl] of [getBooksBySeriesAsin]. *)
Definition series_url (seriesAsin : string) (region : option string) : string :=
  "https://api.audible" ++ tld_of region ++ "/1.0/catalog/products/" ++ seriesAsin
  ++ "?response_groups=relationships".

(** The [url] of [getSeriesInfoFromAudible]. *)
Definition series_info_url {casing : Js.Casing} (asin : string) (region : option string) : string :=
  "https://api.audible" ++ tld_of region ++ "/1.0/catalog/products/"
  ++ Js.toUpperCase asin ++ "?response_groups=series,relationships".

(** [booksWithDetails.filter(Boolean)]. *)
Fixpoint filter_Boolean {A} (l : list (option A)) : list A :=
  match l with
  | [] => []
  | Some a :: r => a :: filter_Boolean r
  | None :: r => filter_Boolean r
  end.

Section WithValidator.
Context {casing : Js.Casing} {validator : AsinValidator}.

(** [!asin || !isValidASIN(asin.toUpperCase())]. *)
Definition invalid_asin (asin : option string) : bool :=
  match asin with
  | Some a => negb (Js.truthy a) || negb (isValidASIN (Js.toUpperCase a))
  | None => true
  end.

(** [getSeriesBooks(asin, region)]. *)
Definition getSeriesBooks (asin : option string) (region : option string)
  : M (list CleanBook) :=
  if invalid_asin asin then ret []
  else
    let region := default_region region in
    let asin := Js.toUpperCase (Js.or_else asin "") in
    response <- axios_get (sims_url asin region) ;;
    match response with
    | None => ret []
    | Some data =>
        match data_similar_products data with
        | None => ret []
        | Some products =>
            booksWithDetails <-
              mapM (fun product => asinSearch (rel_asin product) region) products ;;
            originalBook <- asinSearch (Some asin) region ;;
            let booksWithDetails :=
              match originalBook with
              | Some b => Some b :: booksWithDetails
              | None => booksWithDetails
              end in
            ret (map cleanResult (filter_Boolean booksWithDetails))
        end
    end.

(** [r.relationship_to_product === 'child' && r.relationship_type === 'series']. *)
Definition is_child_of_series (r : Related) : bool :=
  match relationship_to_product r, relationship_type r with
  | Some p, Some t => String.eqb p "child" && String.eqb t "series"
  | _, _ => false
  end.

(** [seriesResponse?.data?.product?.relationships || []] and the first
    child of the series in it. *)
Definition childBook_of (data : Payload) : option Related :=
  let relationships :=
    match data_product data with
    | Some p => match product_relationships p with Some l => l | None => [] end
    | None => []
    end in
  find is_child_of_series relationships.

(** [getBooksBySeriesAsin(seriesAsin, region)]. *)
Definition getBooksBySeriesAsin (seriesAsin : option string) (region : option string)
  : M (list CleanBook) :=
  if invalid_asin seriesAsin then ret []
  else
    let region := default_region region in
    let seriesAsin := Js.toUpperCase (Js.or_else seriesAsin "") in
    seriesResponse <- axios_get (series_url seriesAsin region) ;;
    match seriesResponse with
    | None => ret []
    | Some data =>
        match childBook_of data with
        | Some childBook =>
            if Js.truthy_opt (rel_asin childBook)
            then getSeriesBooks (rel_asin childBook) region
            else ret []
        | None => ret []
        end
    end.

(** What [extractSeriesInfo] and [getSeriesInfoFromAudible] return. *)
Record SeriesInfo := {
  si_asin : string;
  si_name : option string;
  si_position : string
}.

Definition series_info_of_ref (s : option SeriesRef) : option SeriesInfo :=
  match s with
  | Some s =>
      match sref_asin s with
      | Some a =>
          if Js.truthy a
          then Some {| si_asin := a; si_name := sref_name s;
                       si_position := cleanSeriesSequence (sref_name s) (sref_position s) |}
          else None
      | None => None
      end
  | None => None
  end.

(** [extractSeriesInfo(bookData)]. *)
Definition extractSeriesInfo (bookData : option AudnexBook) : option SeriesInfo :=
  match bookData with
  | None => None
  | Some bookData =>
      match series_info_of_ref (ab_seriesPrimary bookData) with
      | Some i => Some i
      | None => series_info_of_ref (ab_seriesSecondary bookData)
      end
  end.

Definition series_info_of_related (r : option Related) : option SeriesInfo :=
  match r with
  | Some r =>
      match rel_asin r with
      | Some a =>
          if Js.truthy a
          then Some {| si_asin := a; si_name := rel_title r;
                       si_position := cleanSeriesSequence (rel_title r) (rel_sequence r) |}
          else None
      | None => None
      end
  | None => None
  end.

(** [getSeriesInfoFromAudible(asin, region = 'us')]. *)
Definition getSeriesInfoFromAudible (asin : option string) (region : option string)
  : M (option SeriesInfo) :=
  if invalid_asin asin then ret None
  else
    let region := match region with Some r => Some r | None => Some "us" end in
    response <- axios_get (series_info_url (Js.or_else asin "") region) ;;
    match response with
    | None => ret None
    | Some data =>
        let product := data_product data in
        match series_info_of_related
                (match product with
                 | Some p => match product_series p with
                             | Some l => hd_error l
                             | None => None
                             end
                 | None => None
                 end) with
        | Some i => ret (Some i)
        | None =>
            match product with
            | Some p =>
                match product_relationships p with
                | Some rels =>
                    ret (series_info_of_related
                           (find (fun r => match relationship_type r with
                                           | Some t => String.eqb t "series"
                                           | None => false
                                           end) rels))
                | None => ret None
                end
            | None => ret None
            end
        end
    end.

End WithValidator.

End Audible.

(* ================================================================== *)
(** ** Queries *)
(* ================================================================== *)

(** What the queries of the models mean on tables held as lists: [WHERE]
    keeps rows, [ORDER BY] is a stable sort of the kept rows, [LIMIT]
    keeps a prefix of the sorted rows. *)
Module Sql.

Fixpoint insert_by {A} (le : A -> A -> bool) (x : A) (l : list A) : list A :=
  match l with
  | [] => [x]
  | y :: r => if le x y then x :: l else y :: insert_by le x r
  end.

Fixpoint order_by {A} (le : A -> A -> bool) (l : list A) : list A :=
  match l with
  | [] => []
  | x :: r => insert_by le x (order_by le r)
  end.

(** [ASC NULLS FIRST] on a nullable date column. *)
Definition asc_nulls_first (a b : option Z) : bool :=
  match a, b with
  | None, _ => true
  | Some _, None => false
  | Some x, Some y => Z.leb x y
  end.

(** [ASC NULLS LAST] on a nullable real expression. *)
Definition asc_nulls_last (a b : option Q) : bool :=
  match a, b with
  | _, None => true
  | None, Some _ => false
  | Some x, Some y => Qle_bool x y
  end.

(** The order of a comparison, as a relation. *)
Definition holds {A} (le : A -> A -> bool) (a b : A) : Prop := le a b = true.

Definition list_eqb (l1 l2 : list string) : bool :=
  Nat.eqb (List.length l1) (List.length l2)
  && forallb (fun p => String.eqb (fst p) (snd p)) (combine l1 l2).

(** Is a unique index declared on these columns of the table? *)
Definition has_unique_index (s : Schema) (table : string) (fields : list string) : bool :=
  existsb (fun ix => ix_unique ix && String.eqb (ix_table ix) table
                     && list_eqb (ix_fields ix) fields) (indexes s).

End Sql.

(* ================================================================== *)
(** ** The migration [2.32.0-series-tracking] *)
(* ================================================================== *)

Module Migration.

Definition tableExists (name : string) (s : Schema) : bool :=
  existsb (String.eqb name) (tables s).

Definition createTable (name : string) (s : Schema) : Schema :=
  {| tables := (tables s ++ [name])%list; indexes := indexes s |}.

Definition addIndex (table : string) (fields : list string) (unique : bool)
  (name : string) (s : Schema) : Schema :=
  {| tables := tables s;
     indexes := (indexes s ++ [ {| ix_table := table; ix_fields := fields;
                                   ix_unique := unique; ix_name := name |} ])%list |}.

(** [up({ context: { queryInterface, logger } })], on the schema. *)
Definition up (s : Schema) : Schema :=
  let s :=
    if tableExists "trackedSeries" s then s
    else
      let s := createTable "trackedSeries" s in
      let s := addIndex "trackedSeries" ["userId"; "seriesId"] true
                 "unique_tracked_series_per_user" s in
      let s := addIndex "trackedSeries" ["userId"] false "tracked_series_user_id" s in
      addIndex "trackedSeries" ["seriesId"] false "tracked_series_series_id" s in
  if tableExists "newReleases" s then s
  else
    let s := createTable "newReleases" s in
    let s := addIndex "newReleases" ["trackedSeriesId"; "asin"] true
               "unique_release_per_tracked_series" s in
    let s := addIndex "newReleases" ["trackedSeriesId"] false
               "new_releases_tracked_series_id" s in
    addIndex "newReleases" ["dismissed"] false "new_releases_dismissed" s.

End Migration.

(* ================================================================== *)
(** ** Table updates *)
(* ================================================================== *)

Definition with_trackedSeriesTable (t : list TrackedSeries) (d : Db) : Db :=
  {| schema := schema d; seriesTable := seriesTable d; bookSeries := bookSeries d;
     libraryTable := libraryTable d; trackedSeriesTable := t;
     newReleaseTable := newReleaseTable d; nextId := nextId d |}.

Definition with_newReleaseTable (t : list NewRelease) (d : Db) : Db :=
  {| schema := schema d; seriesTable := seriesTable d; bookSeries := bookSeries d;
     libraryTable := libraryTable d; trackedSeriesTable := trackedSeriesTable d;
     newReleaseTable := t; nextId := nextId d |}.

Definition with_nextId (n : uuid) (d : Db) : Db :=
  {| schema := schema d; seriesTable := seriesTable d; bookSeries := bookSeries d;
     libraryTable := libraryTable d; trackedSeriesTable := trackedSeriesTable d;
     newReleaseTable := newReleaseTable d; nextId := n |}.

(** [Database.seriesModel.findByPk(id)]. *)
Definition series_by_pk (d : Db) (id : uuid) : option Series :=
  find (fun s => Nat.eqb (series_id s) id) (seriesTable d).

Definition series_findByPk (id : uuid) : M (option Series) :=
  d <- get_db ;; ret (series_by_pk d id).

(** Modelled from the spec: [series.getBooksExpandedWithLibraryItem()] of
    the [Series] model, which is not among the sources; the library
    collaborator's [getOwnedBooksForSeries(seriesId)], the books the
    library holds for the series with their external identifier and
    library context. *)
Definition series_books (d : Db) (s : Series) : list Book :=
  map snd (filter (fun p => Nat.eqb (fst p) (series_id s)) (bookSeries d)).

Definition getBooksExpandedWithLibraryItem (s : Series) : M (list Book) :=
  d <- get_db ;; ret (series_books d s).

(** [Database.libraryModel.findByPk(id)]. *)
Definition library_findByPk (id : uuid) : M (option Library) :=
  d <- get_db ;; ret (find (fun l => Nat.eqb (library_id l) id) (libraryTable d)).

(* ================================================================== *)
(** ** [server/models/TrackedSeries.js] *)
(* ================================================================== *)

(** A model instance: the row and, when the query included it, the
    series it belongs to. *)
Record TrackedInstance := {
  inst_row : TrackedSeries;
  inst_series : option Series
}.

Module TrackedSeriesModel.

(** The [indexes] option of [init]: the unique index on
    [(userId, seriesId)], and an index on each of the two columns under
    the name Sequelize makes of the table and the column. *)
Definition init_indexes : list IndexDef :=
  [ {| ix_table := "trackedSeries"; ix_fields := ["userId"; "seriesId"];
       ix_unique := true; ix_name := "unique_tracked_series_per_user" |};
    {| ix_table := "trackedSeries"; ix_fields := ["userId"]; ix_unique := false;
       ix_name := "tracked_series_user_id" |};
    {| ix_table := "trackedSeries"; ix_fields := ["seriesId"]; ix_unique := false;
       ix_name := "tracked_series_series_id" |} ].

Definition matches (userId seriesId : uuid) (r : TrackedSeries) : bool :=
  Nat.eqb (ts_userId r) userId && Nat.eqb (ts_seriesId r) seriesId.

Definition plain (r : TrackedSeries) : TrackedInstance :=
  {| inst_row := r; inst_series := None |}.

(** [getByUserAndSeries(userId, seriesId)]: [findOne] with the [where]. *)
Definition getByUserAndSeries (userId seriesId : uuid) : M (option TrackedInstance) :=
  d <- get_db ;;
  ret (option_map plain (find (matches userId seriesId) (trackedSeriesTable d))).

(** [isTracking(userId, seriesId)]. *)
Definition isTracking (userId seriesId : uuid) : M bool :=
  d <- get_db ;;
  ret (Nat.ltb 0 (List.length (filter (matches userId seriesId) (trackedSeriesTable d)))).

(** [lastChecked IS NULL OR lastChecked < thresholdDate]. *)
Definition due (thresholdDate : Z) (r : TrackedSeries) : bool :=
  match ts_lastChecked r with
  | None => true
  | Some t => Z.ltb t thresholdDate
  end.

(** The inner join of [include: [{ model: series, required: true }]]. *)
Definition join_series (seriesT : list Series) (r : TrackedSeries) : option TrackedInstance :=
  match find (fun s => Nat.eqb (series_id s) (ts_seriesId r)) seriesT with
  | Some s => Some {| inst_row := r; inst_series := Some s |}
  | None => None
  end.

Fixpoint filter_map {A B} (f : A -> option B) (l : list A) : list B :=
  match l with
  | [] => []
  | x :: r => match f x with
              | Some y => y :: filter_map f r
              | None => filter_map f r
              end
  end.

(** The rows [getDueForCheck] reads, on a database. *)
Definition dueForCheck (thresholdDate : Z) (limit : nat) (d : Db) : list TrackedInstance :=
  firstn limit
    (Sql.order_by
       (fun a b => Sql.asc_nulls_first (ts_lastChecked (inst_row a))
                                       (ts_lastChecked (inst_row b)))
       (filter_map (join_series (seriesTable d))
          (filter (due thresholdDate) (trackedSeriesTable d)))).


(** What [createTrackedSeries] is given. *)
Record CreateData := {
  cd_userId : uuid;
  cd_seriesId : uuid;
  cd_seriesAsin : option string;
  cd_autoTracked : option bool;
  cd_region : option string
}.

(** [this.create({ ... })]: the insert, under the unique index on
    [(userId, seriesId)] when the schema has it, and under the reference
    of [seriesId] to [series].  The users are not part of the state: a
    [userId] is taken to be the id of a user, as the one of the
    authenticated user that the callers pass is, so that the reference
    of [userId] to [users] is met. *)
Definition create (userId seriesId : uuid) (seriesAsin : option string)
  (autoTracked : bool) (region : string) : M TrackedInstance :=
  d <- get_db ;;
  t <- now ;;
  if Sql.has_unique_index (schema d) "trackedSeries" ["userId"; "seriesId"]
     && existsb (matches userId seriesId) (trackedSeriesTable d)
  then throw SequelizeUniqueConstraintError
  else
    match series_by_pk d seriesId with
    | None => throw SequelizeForeignKeyConstraintError
    | Some _ =>
        let row := {| ts_id := nextId d; ts_userId := userId; ts_seriesId := seriesId;
                      ts_seriesAsin := seriesAsin; ts_autoTracked := autoTracked;
                      ts_region := Some region; ts_lastChecked := None;
                      ts_createdAt := t; ts_updatedAt := t |} in
        set_db (with_nextId (S (nextId d))
                  (with_trackedSeriesTable (trackedSeriesTable d ++ [row])%list d)) ;;;
        ret (plain row)
    end.

(** [createTrackedSeries(data)]. *)
Definition createTrackedSeries (data : CreateData) : M TrackedInstance :=
  existing <- getByUserAndSeries (cd_userId data) (cd_seriesId data) ;;
  match existing with
  | Some existing => ret existing
  | None =>
      create (cd_userId data) (cd_seriesId data)
        (Js.or_null (cd_seriesAsin data))
        (match cd_autoTracked data with Some b => b | None => false end)
        (Js.or_else (cd_region data) "us")
  end.

(** Does the release belong to one of these tracked series? *)
Definition release_of (rows : list TrackedSeries) (r : NewRelease) : bool :=
  existsb (fun t => Nat.eqb (ts_id t) (nr_trackedSeriesId r)) rows.

(** [removeTracking(userId, seriesId)]: [destroy] with the [where]; the
    releases of a destroyed row go with it, their foreign key being
    [onDelete: 'CASCADE']. *)
Definition removeTracking (userId seriesId : uuid) : M bool :=
  d <- get_db ;;
  let destroyed := filter (matches userId seriesId) (trackedSeriesTable d) in
  let deleted := List.length destroyed in
  set_db (with_newReleaseTable
            (filter (fun r => negb (release_of destroyed r)) (newReleaseTable d))
            (with_trackedSeriesTable
               (filter (fun r => negb (matches userId seriesId r)) (trackedSeriesTable d))
               d)) ;;;
  ret (Nat.ltb 0 deleted).

(** [this.save()] after the instance changed: the row of the instance's
    id takes the changed columns. *)
Definition save (id : uuid) (change : TrackedSeries -> TrackedSeries) : M unit :=
  d <- get_db ;;
  set_db (with_trackedSeriesTable
            (map (fun r => if Nat.eqb (ts_id r) id then change r else r)
               (trackedSeriesTable d)) d).

Definition set_lastChecked (t : Z) (r : TrackedSeries) : TrackedSeries :=
  {| ts_id := ts_id r; ts_userId := ts_userId r; ts_seriesId := ts_seriesId r;
     ts_seriesAsin := ts_seriesAsin r; ts_autoTracked := ts_autoTracked r;
     ts_region := ts_region r; ts_lastChecked := Some t;
     ts_createdAt := ts_createdAt r; ts_updatedAt := t |}.

Definition set_seriesAsin (asin : string) (t : Z) (r : TrackedSeries) : TrackedSeries :=
  {| ts_id := ts_id r; ts_userId := ts_userId r; ts_seriesId := ts_seriesId r;
     ts_seriesAsin := Some asin; ts_autoTracked := ts_autoTracked r;
     ts_region := ts_region r; ts_lastChecked := ts_lastChecked r;
     ts_createdAt := ts_createdAt r; ts_updatedAt := t |}.

(** [updateLastChecked()]. *)
Definition updateLastChecked (inst : TrackedInstance) : M TrackedInstance :=
  t <- now ;;
  save (ts_id (inst_row inst)) (set_lastChecked t) ;;;
  ret {| inst_row := set_lastChecked t (inst_row inst); inst_series := inst_series inst |}.

(** [updateSeriesAsin(asin)]. *)
Definition updateSeriesAsin (inst : TrackedInstance) (asin : string) : M TrackedInstance :=
  t <- now ;;
  save (ts_id (inst_row inst)) (set_seriesAsin asin t) ;;;
  ret {| inst_row := set_seriesAsin asin t (inst_row inst); inst_series := inst_series inst |}.


End TrackedSeriesModel.

(* ================================================================== *)
(** ** The engine's cast of a text to a real *)
(* ================================================================== *)

(** [CAST(sequence AS FLOAT)] is evaluated by the database engine.  The
    model of [NewRelease] is parametrised by it. *)
Class SqlEngine := cast_text_real : string -> Q.

(** SQLite, the engine of the server, as its documentation of [CAST]
    has it: "the longest possible prefix of the value that can be
    interpreted as a real number is extracted from the TEXT value and the
    remainder ignored.  Any leading spaces in the TEXT value are ignored.
    If there is no prefix that can be interpreted as a real number, the
    result of the conversion is 0.0".  The real is kept as the exact
    rational the prefix denotes. *)
Module Sqlite.

Definition is_space (c : ascii) : bool :=
  let n := nat_of_ascii c in Nat.eqb n 32 || (Nat.leb 9 n && Nat.leb n 13).

Fixpoint skip_spaces (s : string) : string :=
  match s with
  | String c r => if is_space c then skip_spaces r else s
  | EmptyString => s
  end.

(** An optional sign: is it a minus, and what follows. *)
Definition sign (s : string) : bool * string :=
  match s with
  | String c r =>
      if Ascii.eqb c "-" then (true, r)
      else if Ascii.eqb c "+" then (false, r)
      else (false, s)
  | EmptyString => (false, s)
  end.

(** A run of digits: its value after [acc], its length, what follows. *)
Fixpoint digits (acc : Z) (s : string) : Z * nat * string :=
  match s with
  | String c r =>
      if Js.is_digit c
      then let '(v, n, post) := digits (10 * acc + Z.of_nat (nat_of_ascii c - 48))%Z r in
           (v, S n, post)
      else (acc, 0, s)
  | EmptyString => (acc, 0, s)
  end.

Definition exponent (s : string) : Z :=
  match s with
  | String c r =>
      if Ascii.eqb c "e" || Ascii.eqb c "E"
      then let (neg, r) := sign r in
           let '(v, n, _) := digits 0%Z r in
           match n with
           | O => 0%Z
           | S _ => if neg then (- v)%Z else v
           end
      else 0%Z
  | EmptyString => 0%Z
  end.

Definition text_to_real (s : string) : Q :=
  let (neg, s) := sign (skip_spaces s) in
  let '(ip, n1, s) := digits 0%Z s in
  let '(m, n2, s) :=
    match s with
    | String c r => if Ascii.eqb c "." then digits ip r else (ip, 0, s)
    | EmptyString => (ip, 0, s)
    end in
  match (n1 + n2)%nat with
  | O => 0%Q
  | S _ =>
      let m := if neg then (- m)%Z else m in
      (inject_Z m * Qpower (10 # 1) (exponent s - Z.of_nat n2))%Q
  end.

Definition engine : SqlEngine := text_to_real.

End Sqlite.

(* ================================================================== *)
(** ** [server/models/NewRelease.js] *)
(* ================================================================== *)

Module NewReleaseModel.

(** What [createNewRelease] is given. *)
Record CreateData := {
  cd_trackedSeriesId : uuid;
  cd_asin : option string;
  cd_title : option string;
  cd_author : option string;
  cd_narrator : option string;
  cd_coverUrl : option string;
  cd_releaseDate : option string;
  cd_sequence : option string;
  cd_provider : option string
}.

(** The [indexes] option of [init]: one index, on [dismissed], under the
    name Sequelize makes of the table and the column.  The model
    declares no index on [(trackedSeriesId, asin)]. *)
Definition init_indexes : list IndexDef :=
  [ {| ix_table := "newReleases"; ix_fields := ["dismissed"]; ix_unique := false;
       ix_name := "new_releases_dismissed" |} ].

Definition same_key (trackedSeriesId : uuid) (asin : string) (r : NewRelease) : bool :=
  Nat.eqb (nr_trackedSeriesId r) trackedSeriesId && String.eqb (nr_asin r) asin.

(** Is there a tracked series of this id? *)
Definition tracked_exists (d : Db) (trackedSeriesId : uuid) : bool :=
  existsb (fun t => Nat.eqb (ts_id t) trackedSeriesId) (trackedSeriesTable d).

(** [this.create({ ... })]: [asin] and [title] are [allowNull: false];
    the insert is under the unique index on [(trackedSeriesId, asin)]
    when the schema has it, and under the reference of
    [trackedSeriesId] to [trackedSeries]; [releaseDate] is a [DATEONLY]. *)
Definition create (trackedSeriesId : uuid) (asin title : option string)
  (author narrator coverUrl releaseDate sequence : option string) (provider : string)
  (dismissed : bool) (discoveredAt : Z) : M NewRelease :=
  d <- get_db ;;
  t <- now ;;
  match asin, title with
  | Some asin, Some title =>
      if Sql.has_unique_index (schema d) "newReleases" ["trackedSeriesId"; "asin"]
         && existsb (same_key trackedSeriesId asin) (newReleaseTable d)
      then throw SequelizeUniqueConstraintError
      else if negb (tracked_exists d trackedSeriesId)
      then throw SequelizeForeignKeyConstraintError
      else
        let row := {| nr_id := nextId d; nr_trackedSeriesId := trackedSeriesId;
                      nr_asin := asin; nr_title := title; nr_author := author;
                      nr_narrator := narrator; nr_coverUrl := coverUrl;
                      nr_releaseDate := option_map dateonly releaseDate;
                      nr_sequence := sequence;
                      nr_provider := provider; nr_dismissed := dismissed;
                      nr_discoveredAt := discoveredAt; nr_createdAt := t |} in
        set_db (with_nextId (S (nextId d))
                  (with_newReleaseTable (newReleaseTable d ++ [row])%list d)) ;;;
        ret row
  | _, _ => throw SequelizeValidationError
  end.

(** [createNewRelease(data)]. *)
Definition createNewRelease (data : CreateData) : M NewRelease :=
  discoveredAt <- now ;;
  create (cd_trackedSeriesId data) (cd_asin data) (cd_title data)
    (Js.or_null (cd_author data)) (Js.or_null (cd_narrator data))
    (Js.or_null (cd_coverUrl data)) (Js.or_null (cd_releaseDate data))
    (Js.or_null (cd_sequence data)) (Js.or_else (cd_provider data) "audible")
    false discoveredAt.

(** [existsByAsin(trackedSeriesId, asin)]. *)
Definition existsByAsin (trackedSeriesId : uuid) (asin : string) : M bool :=
  d <- get_db ;;
  ret (Nat.ltb 0 (List.length (filter (same_key trackedSeriesId asin) (newReleaseTable d)))).

(** [findAll({ where: { trackedSeriesId }, attributes: ['asin'] })]. *)
Definition release_asins (d : Db) (trackedSeriesId : uuid) : list string :=
  map nr_asin
    (filter (fun r => Nat.eqb (nr_trackedSeriesId r) trackedSeriesId) (newReleaseTable d)).

Definition asins_of_tracked (trackedSeriesId : uuid) : M (list string) :=
  d <- get_db ;; ret (release_asins d trackedSeriesId).

Definition set_dismissed (r : NewRelease) : NewRelease :=
  {| nr_id := nr_id r; nr_trackedSeriesId := nr_trackedSeriesId r; nr_asin := nr_asin r;
     nr_title := nr_title r; nr_author := nr_author r; nr_narrator := nr_narrator r;
     nr_coverUrl := nr_coverUrl r; nr_releaseDate := nr_releaseDate r;
     nr_sequence := nr_sequence r; nr_provider := nr_provider r; nr_dismissed := true;
     nr_discoveredAt := nr_discoveredAt r; nr_createdAt := nr_createdAt r |}.

(** [dismissRelease(releaseId)]. *)
Definition dismissRelease (releaseId : uuid) : M bool :=
  d <- get_db ;;
  let updated := List.length (filter (fun r => Nat.eqb (nr_id r) releaseId)
                                (newReleaseTable d)) in
  set_db (with_newReleaseTable
            (map (fun r => if Nat.eqb (nr_id r) releaseId then set_dismissed r else r)
               (newReleaseTable d)) d) ;;;
  ret (Nat.ltb 0 updated).

Section WithEngine.
Context {engine : SqlEngine}.

(** [CAST(sequence AS FLOAT)]: the cast of [NULL] is [NULL]. *)
Definition sequence_key (r : NewRelease) : option Q :=
  option_map cast_text_real (nr_sequence r).

(** The rows [getForTrackedSeries] reads, on a table. *)
Definition forTrackedSeries (trackedSeriesId : uuid) (includeDismissed : bool)
  (table : list NewRelease) : list NewRelease :=
  Sql.order_by (fun a b => Sql.asc_nulls_last (sequence_key a) (sequence_key b))
    (filter (fun r => Nat.eqb (nr_trackedSeriesId r) trackedSeriesId
                      && (includeDismissed || negb (nr_dismissed r)))
       table).

(** [getForTrackedSeries(trackedSeriesId, options = {})]. *)
Definition getForTrackedSeries (trackedSeriesId : uuid) (includeDismissed : option bool)
  : M (list NewRelease) :=
  d <- get_db ;;
  ret (forTrackedSeries trackedSeriesId
         (match includeDismissed with Some b => b | None => false end)
         (newReleaseTable d)).

End WithEngine.

End NewReleaseModel.

(* ================================================================== *)
(** ** [server/finders/SeriesFinder.js] *)
(* ================================================================== *)

(** The finder's own debug and warning lines are not recorded.  A
    [region] that is absent is [undefined], which the default parameters
    replace by ['us']. *)
Module SeriesFinder.

Record SeriesBookResult := {
  asin : option string;
  title : option string;
  author : option string;
  narrator : option string;
  coverUrl : option string;
  releaseDate : option string;
  sequence : option string;
  provider : string
}.

(** [book.series?.[0]?.sequence || null]. *)
Definition first_sequence (book : Audible.CleanBook) : option string :=
  match Audible.series book with
  | Some (e :: _) => Js.or_null (Some (Audible.se_sequence e))
  | _ => None
  end.

Definition to_result (book : Audible.CleanBook) : SeriesBookResult :=
  {| asin := Audible.asin book;
     title := Audible.title book;
     author := Audible.author book;
     narrator := Audible.narrator book;
     coverUrl := Audible.cover book;
     releaseDate := Audible.publishedYear book;
     sequence := first_sequence book;
     provider := "audible" |}.

(** [region = 'us'] of a parameter list. *)
Definition default_us (region : option string) : option string :=
  match region with
  | Some r => Some r
  | None => Some "us"
  end.

(** [libraryBooks.map((book) => book.asin?.toUpperCase()).filter(Boolean)],
    the elements of the set [libraryAsins]. *)
Definition libraryAsins {casing : Js.Casing} (libraryBooks : list Book) : list string :=
  filter Js.truthy
    (Audible.filter_Boolean
       (map (fun book => option_map Js.toUpperCase (book_asin book)) libraryBooks)).

(** [releases.map((r) => r.asin?.toUpperCase())], the elements of the
    set [existingReleaseAsins]. *)
Definition existingReleaseAsins {casing : Js.Casing} (releases : list string) : list string :=
  map Js.toUpperCase releases.

(** [set.has(x)]. *)
Definition has (set : list string) (x : string) : bool :=
  existsb (String.eqb x) set.

(** The callback of [externalBooks.filter(...)]. *)
Definition is_new {casing : Js.Casing} (libraryAsins existingReleaseAsins : list string)
  (book : SeriesBookResult) : bool :=
  match asin book with
  | None => false
  | Some a =>
      if negb (Js.truthy a) then false
      else
        let upperAsin := Js.toUpperCase a in
        negb (has libraryAsins upperAsin) && negb (has existingReleaseAsins upperAsin)
  end.

(** [newBooks] of [getNewReleasesForSeries], from the external entries,
    the library's books of the series and the identifiers of the
    releases already recorded. *)
Definition newBooks {casing : Js.Casing} (externalBooks : list SeriesBookResult) (libraryBooks : list Book)
  (releases : list string) : list SeriesBookResult :=
  filter (is_new (libraryAsins libraryBooks) (existingReleaseAsins releases)) externalBooks.

Section WithValidator.
Context {casing : Js.Casing} {validator : AsinValidator}.

(** [getSeriesBooksByAsin(seriesAsin, region = 'us')]. *)
Definition getSeriesBooksByAsin (seriesAsin : option string) (region : option string)
  : M (list SeriesBookResult) :=
  let region := default_us region in
  if Audible.invalid_asin seriesAsin then ret []
  else
    books <- Audible.getBooksBySeriesAsin seriesAsin region ;;
    ret (map to_result books).

(** [findSeriesAsinFromBook(bookAsin, region = 'us')]. *)
Definition findSeriesAsinFromBook (bookAsin : option string) (region : option string)
  : M (option Audible.SeriesInfo) :=
  let region := default_us region in
  if Audible.invalid_asin bookAsin then ret None
  else
    bookData <- Audible.asinSearch bookAsin region ;;
    match bookData with
    | None => ret None
    | Some _ =>
        match Audible.extractSeriesInfo bookData with
        | Some seriesInfo => ret (Some seriesInfo)
        | None => Audible.getSeriesInfoFromAudible bookAsin region
        end
    end.

(** [trackedSeries.series || (await Database.seriesModel.findByPk(...))],
    on a database. *)
Definition series_of (d : Db) (trackedSeries : TrackedInstance) : option Series :=
  match inst_series trackedSeries with
  | Some s => Some s
  | None => series_by_pk d (ts_seriesId (inst_row trackedSeries))
  end.

(** [getNewReleasesForSeries(trackedSeries)]. *)
Definition getNewReleasesForSeries (trackedSeries : TrackedInstance)
  : M (list SeriesBookResult) :=
  let row := inst_row trackedSeries in
  if negb (Js.truthy_opt (ts_seriesAsin row)) then ret []
  else
    externalBooks <-
      getSeriesBooksByAsin (ts_seriesAsin row) (Some (Js.or_else (ts_region row) "us")) ;;
    match externalBooks with
    | [] => ret []
    | _ :: _ =>
        series <-
          match inst_series trackedSeries with
          | Some s => ret (Some s)
          | None => series_findByPk (ts_seriesId row)
          end ;;
        match series with
        | None => ret []
        | Some series =>
            libraryBooks <- getBooksExpandedWithLibraryItem series ;;
            releases <- NewReleaseModel.asins_of_tracked (ts_id row) ;;
            ret (newBooks externalBooks libraryBooks releases)
        end
    end.

(** The loop of [findSeriesAsinFromLibrary] over the books. *)
Fixpoint first_series_asin (books : list Book) (region : option string)
  : M (option string) :=
  match books with
  | [] => ret None
  | book :: rest =>
      if negb (Audible.invalid_asin (book_asin book))
      then
        seriesInfo <- findSeriesAsinFromBook (book_asin book) region ;;
        match seriesInfo with
        | Some i => ret (Some (Audible.si_asin i))
        | None => first_series_asin rest region
        end
      else first_series_asin rest region
  end.

(** [findSeriesAsinFromLibrary(seriesId, region = 'us')]. *)
Definition findSeriesAsinFromLibrary (seriesId : uuid) (region : option string)
  : M (option string) :=
  let region := default_us region in
  series <- series_findByPk seriesId ;;
  match series with
  | None => ret None
  | Some series =>
      books <- getBooksExpandedWithLibraryItem series ;;
      first_series_asin books region
  end.

End WithValidator.

End SeriesFinder.

(* ================================================================== *)
(** ** [server/managers/NewReleaseManager.js] *)
(* ================================================================== *)

Module NewReleaseManager.

(** [trackedSeries.series?.name || 'Unknown Series']. *)
Definition seriesName_of (trackedSeries : TrackedInstance) : string :=
  match inst_series trackedSeries with
  | Some s => Js.or_else (Some (series_name s)) "Unknown Series"
  | None => "Unknown Series"
  end.

Definition release_data (trackedSeriesId : uuid) (book : SeriesFinder.SeriesBookResult)
  : NewReleaseModel.CreateData :=
  {| NewReleaseModel.cd_trackedSeriesId := trackedSeriesId;
     NewReleaseModel.cd_asin := SeriesFinder.asin book;
     NewReleaseModel.cd_title := SeriesFinder.title book;
     NewReleaseModel.cd_author := SeriesFinder.author book;
     NewReleaseModel.cd_narrator := SeriesFinder.narrator book;
     NewReleaseModel.cd_coverUrl := SeriesFinder.coverUrl book;
     NewReleaseModel.cd_releaseDate := SeriesFinder.releaseDate book;
     NewReleaseModel.cd_sequence := SeriesFinder.sequence book;
     NewReleaseModel.cd_provider := Some (SeriesFinder.provider book) |}.

(** One turn of [for (const book of newBooks)]: the release created, if
    one was. *)
Definition create_release (trackedSeriesId : uuid) (seriesName : string)
  (book : SeriesFinder.SeriesBookResult) : M (option NewRelease) :=
  try_catch
    (release <- NewReleaseModel.createNewRelease (release_data trackedSeriesId book) ;;
     Logger (NewReleaseFound (SeriesFinder.title book) seriesName) ;;;
     ret (Some release))
    (fun error =>
       match error with
       | SequelizeUniqueConstraintError =>
           Logger (ReleaseAlreadyExists (SeriesFinder.asin book)) ;;; ret None
       | _ => Logger (ErrorCreatingReleaseRecord error) ;;; ret None
       end).

(** The loop over [newBooks]: [createdReleases]. *)
Fixpoint create_releases (trackedSeriesId : uuid) (seriesName : string)
  (newBooks : list SeriesFinder.SeriesBookResult) : M (list NewRelease) :=
  match newBooks with
  | [] => ret []
  | book :: rest =>
      created <- create_release trackedSeriesId seriesName book ;;
      createdReleases <- create_releases trackedSeriesId seriesName rest ;;
      ret (match created with
           | Some release => release :: createdReleases
           | None => createdReleases
           end)
  end.

(** [notifyNewReleases(trackedSeries, releases)]. *)
Fixpoint notifyNewReleases (trackedSeries : TrackedInstance) (releases : list NewRelease)
  : M unit :=
  match releases with
  | [] => ret tt
  | release :: rest =>
      emit (OnNewSeriesRelease (ts_id (inst_row trackedSeries)) release) ;;;
      notifyNewReleases trackedSeries rest
  end.

(** [emitNewReleasesUpdate(userId)]. *)
Definition emitNewReleasesUpdate (userId : uuid) : M unit :=
  emit (NewReleasesUpdated userId).

Section WithValidator.
Context {casing : Js.Casing} {validator : AsinValidator}.

(** [checkSeriesForNewReleases(trackedSeries)]. *)
Definition checkSeriesForNewReleases (trackedSeries : TrackedInstance)
  : M (list NewRelease) :=
  let seriesName := seriesName_of trackedSeries in
  Logger (CheckingSeries seriesName) ;;;
  try_catch
    (resolved <-
       (if negb (Js.truthy_opt (ts_seriesAsin (inst_row trackedSeries)))
        then
          seriesAsin <-
            SeriesFinder.findSeriesAsinFromLibrary
              (ts_seriesId (inst_row trackedSeries)) (ts_region (inst_row trackedSeries)) ;;
          match Js.or_null seriesAsin with
          | Some seriesAsin =>
              trackedSeries <-
                TrackedSeriesModel.updateSeriesAsin trackedSeries seriesAsin ;;
              ret (Some trackedSeries)
          | None =>
              Logger (CouldNotFindSeriesAsin seriesName) ;;;
              TrackedSeriesModel.updateLastChecked trackedSeries ;;;
              ret None
          end
        else ret (Some trackedSeries)) ;;
     match resolved with
     | None => ret []
     | Some trackedSeries =>
         newBooks <- SeriesFinder.getNewReleasesForSeries trackedSeries ;;
         createdReleases <-
           create_releases (ts_id (inst_row trackedSeries)) seriesName newBooks ;;
         trackedSeries <- TrackedSeriesModel.updateLastChecked trackedSeries ;;
         match createdReleases with
         | _ :: _ =>
             notifyNewReleases trackedSeries createdReleases ;;;
             emitNewReleasesUpdate (ts_userId (inst_row trackedSeries)) ;;;
             ret createdReleases
         | [] => ret createdReleases
         end
     end)
    (fun error =>
       Logger (ErrorCheckingSeries seriesName error) ;;;
       TrackedSeriesModel.updateLastChecked trackedSeries ;;;
       ret []).


End WithValidator.

(** *** The scheduled sweep

    [runScheduledCheck] is an asynchronous function: it runs up to an
    [await], is suspended there, and is resumed when the awaited promise
    settles; other calls run in between.  It is embedded as the manager's
    state, the point a sweep is suspended at, and one function for each
    stretch of code between two suspensions. *)

Record Manager := {
  isRunning : bool;
  log : list LogLine
}.

Definition say (l : LogLine) (m : Manager) : Manager :=
  {| isRunning := isRunning m; log := (log m ++ [l])%list |}.

Definition set_isRunning (b : bool) (m : Manager) : Manager :=
  {| isRunning := b; log := log m |}.

(** The [await] a sweep is suspended at. *)
Inductive Suspended :=
| AwaitDue (checkThreshold : Z) (limit : nat)
| AwaitCheck (trackedSeries : TrackedInstance) (rest : list TrackedInstance)
| AwaitDelay (ms : nat) (rest : list TrackedInstance).

(** [checkThreshold.setHours(checkThreshold.getHours() - 24)], in
    milliseconds, on a day without a change of the local clock. *)
Definition checkThreshold (now : Z) : Z := (now - 24 * 3600 * 1000)%Z.

(** [finally { this.isRunning = false }]. *)
Definition finally (m : Manager) : Manager := set_isRunning false m.

(** [for (const trackedSeries of seriesToCheck)], from its head to the
    next [await], and the end of the [try] when the list is exhausted. *)
Definition next_series (seriesToCheck : list TrackedInstance) (m : Manager)
  : Manager * option Suspended :=
  match seriesToCheck with
  | trackedSeries :: rest => (m, Some (AwaitCheck trackedSeries rest))
  | [] => (finally (say ScheduledCheckCompleted m), None)
  end.

(** [runScheduledCheck()], from the call to the first [await]. *)
Definition runScheduledCheck (now : Z) (m : Manager) : Manager * option Suspended :=
  if isRunning m
  then (say CheckAlreadyRunning m, None)
  else
    let m := set_isRunning true m in
    let m := say StartingScheduledCheck m in
    (m, Some (AwaitDue (checkThreshold now) 100)).

(** After [await getDueForCheck(checkThreshold, 100)] resolved. *)
Definition after_due (seriesToCheck : list TrackedInstance) (m : Manager)
  : Manager * option Suspended :=
  next_series seriesToCheck (say (FoundSeriesDue (List.length seriesToCheck)) m).

(** After [await this.checkSeriesForNewReleases(trackedSeries)] resolved. *)
Definition after_check (rest : list TrackedInstance) (m : Manager)
  : Manager * option Suspended :=
  (m, Some (AwaitDelay 2000 rest)).

(** After [await this.delay(2000)] resolved. *)
Definition after_delay (rest : list TrackedInstance) (m : Manager)
  : Manager * option Suspended :=
  next_series rest m.

(** The awaited promise rejected: [catch (error)], then [finally]. *)
Definition on_rejected (error : Exn) (m : Manager) : Manager * option Suspended :=
  (finally (say (ErrorDuringScheduledCheck error) m), None).

(** The manager and the sweeps that are suspended. *)
Record Scheduler := {
  manager : Manager;
  sweeps : list Suspended
}.

Definition initial : Scheduler :=
  {| manager := {| isRunning := false; log := [] |}; sweeps := [] |}.

Definition resumed (before after : list Suspended) (r : Manager * option Suspended)
  : Scheduler :=
  {| manager := fst r;
     sweeps := match snd r with
               | Some k => (before ++ k :: after)%list
               | None => (before ++ after)%list
               end |}.

(** A call of [runScheduledCheck] (by the cron task or by anyone), on
    the scheduler. *)
Definition trigger (now : Z) (s : Scheduler) : Scheduler :=
  resumed (sweeps s) [] (runScheduledCheck now (manager s)).

(** The steps of the event loop that touch the scheduler: a call, or a
    suspended sweep whose promise settled.  What the promise resolves to
    is the environment's choice. *)
Inductive step : Scheduler -> Scheduler -> Prop :=
| step_trigger now s :
    step s (trigger now s)
| step_due_resolved m before thr lim after seriesToCheck :
    step {| manager := m; sweeps := before ++ AwaitDue thr lim :: after |}
         (resumed before after (after_due seriesToCheck m))
| step_check_resolved m before ts rest after :
    step {| manager := m; sweeps := before ++ AwaitCheck ts rest :: after |}
         (resumed before after (after_check rest m))
| step_delay_resolved m before ms rest after :
    step {| manager := m; sweeps := before ++ AwaitDelay ms rest :: after |}
         (resumed before after (after_delay rest m))
| step_rejected m before k after error :
    step {| manager := m; sweeps := before ++ k :: after |}
         (resumed before after (on_rejected error m)).

Inductive reachable : Scheduler -> Prop :=
| reachable_initial : reachable initial
| reachable_step s s' : reachable s -> step s s' -> reachable s'.

End NewReleaseManager.

(* ================================================================== *)
(** ** [server/controllers/SeriesTrackingController.js] *)
(* ================================================================== *)

Module SeriesTrackingController.

(** What a handler answers: [res.status(404).json({ error })] or
    [res.json(trackedSeries.toJSON())]. *)
Inductive Response :=
| Status404 (error : string)
| Json (trackedSeries : TrackedSeries).

(** The answer of [followSeries], and the tracked series whose
    [NewReleaseManager.manualCheck] it started without awaiting it. *)
Record Followed := {
  response : Response;
  started_check : option uuid
}.

Fixpoint strip_prefix (p s : string) : option string :=
  match p, s with
  | EmptyString, _ => Some s
  | String a p', String b s' => if Ascii.eqb a b then strip_prefix p' s' else None
  | String _ _, EmptyString => None
  end.

Definition is_word (c : ascii) : bool :=
  Js.is_digit c || Js.is_upper c || Js.is_lower c || Ascii.eqb c "_".

(** [library.provider.match(/^audible\.(\w+)$/)]: the group, if the
    pattern matches. *)
Definition provider_region (provider : string) : option string :=
  match strip_prefix "audible." provider with
  | Some r => if Js.truthy r && Js.all_chars is_word r then Some r else None
  | None => None
  end.

Section WithValidator.
Context {casing : Js.Casing} {validator : AsinValidator}.

(** The region the handler settles on. *)
Definition follow_region (body_region : option string) (libraryBooks : list Book)
  : M string :=
  let region := Js.or_else body_region "us" in
  match libraryBooks with
  | book :: _ =>
      match book_libraryId book with
      | Some libraryId =>
          library <- library_findByPk libraryId ;;
          match library with
          | Some library =>
              match library_provider library with
              | Some provider =>
                  if Js.truthy provider
                  then match provider_region provider with
                       | Some r => ret r
                       | None => ret region
                       end
                  else ret region
              | None => ret region
              end
          | None => ret region
          end
      | None => ret region
      end
  | [] => ret region
  end.

(** [for (const book of libraryBooks)] with its [break]. *)
Fixpoint follow_seriesAsin (libraryBooks : list Book) (region : string)
  : M (option string) :=
  match libraryBooks with
  | [] => ret None
  | book :: rest =>
      if Js.truthy_opt (book_asin book)
      then
        seriesInfo <- SeriesFinder.findSeriesAsinFromBook (book_asin book) (Some region) ;;
        match seriesInfo with
        | Some i => ret (Some (Audible.si_asin i))
        | None => follow_seriesAsin rest region
        end
      else follow_seriesAsin rest region
  end.

(** [followSeries(req, res)], with [req.params.id], [req.user.id] and
    [req.body.region]. *)
Definition followSeries (seriesId userId : uuid) (body_region : option string)
  : M Followed :=
  series <- series_findByPk seriesId ;;
  match series with
  | None =>
      Logger (SeriesNotFound seriesId) ;;;
      ret {| response := Status404 "Series not found"; started_check := None |}
  | Some series =>
      existing <- TrackedSeriesModel.getByUserAndSeries userId seriesId ;;
      match existing with
      | Some existing =>
          ret {| response := Json (inst_row existing); started_check := None |}
      | None =>
          libraryBooks <- getBooksExpandedWithLibraryItem series ;;
          region <- follow_region body_region libraryBooks ;;
          seriesAsin <- follow_seriesAsin libraryBooks region ;;
          trackedSeries <-
            TrackedSeriesModel.createTrackedSeries
              {| TrackedSeriesModel.cd_userId := userId;
                 TrackedSeriesModel.cd_seriesId := seriesId;
                 TrackedSeriesModel.cd_seriesAsin := seriesAsin;
                 TrackedSeriesModel.cd_autoTracked := Some false;
                 TrackedSeriesModel.cd_region := Some region |} ;;
          Logger (StartedFollowing userId (series_name series)) ;;;
          ret {| response := Json (inst_row trackedSeries);
                 started_check :=
                   match Js.or_null seriesAsin with
                   | Some _ => Some (ts_id (inst_row trackedSeries))
                   | None => None
                   end |}
      end
  end.

(** [unfollowSeries(req, res)]: was a row removed? *)
Definition unfollowSeries (seriesId userId : uuid) : M bool :=
  TrackedSeriesModel.removeTracking userId seriesId.

End WithValidator.

End SeriesTrackingController.

(* ================================================================== *)
(** ** Concrete worlds *)
(* ================================================================== *)

(** Databases, networks and worlds on which the code is run in the
    examples below. *)
Module Examples.

(** The strings of the examples are ASCII. *)
#[local] Existing Instance Js.ascii_casing.

(** The schema after the migration ran on a database that has the
    [users] and [series] tables. *)
Definition migrated : Schema :=
  Migration.up {| tables := ["users"; "series"]; indexes := [] |}.

Definition empty_db : Db :=
  {| schema := migrated; seriesTable := []; bookSeries := []; libraryTable := [];
     trackedSeriesTable := []; newReleaseTable := []; nextId := 1 |}.

Definition world_of (net : nat -> string -> option Payload) (d : Db) : World :=
  {| network := net; db := d; requests := []; logged := []; emitted := []; clock := 0 |}.

Definition book_of (asin title : string) : AudnexBook :=
  {| ab_asin := Some asin; ab_title := Some title; ab_authors := None;
     ab_narrators := None; ab_image := None; ab_releaseDate := None;
     ab_seriesPrimary := None; ab_seriesSecondary := None |}.

(** A network on which Audnexus answers every lookup with one book. *)
Definition audnex_always (k : nat) (url : string) : option Payload :=
  Some (BookData (book_of "B0BAD" "A book")).

Definition related (asin : string) (to_product type : option string) : Related :=
  {| rel_asin := Some asin; relationship_to_product := to_product;
     relationship_type := type; rel_title := None; rel_sequence := None |}.

(** A network for the series [B0SERIES01]: its relationships name the
    child [B000000001]; the books similar to the child are
    [B000000002]; the lookup of [B000000002] fails; the lookup of the
    child answers. *)
Definition series_net (k : nat) (url : string) : option Payload :=
  if String.eqb url (Audible.series_url "B0SERIES01" (Some "us"))
  then Some (ProductData (Some
         {| product_series := None;
            product_relationships :=
              Some [related "B000000001" (Some "child") (Some "series")] |}))
  else if String.eqb url (Audible.sims_url "B000000001" (Some "us"))
  then Some (SimsData (Some [related "B000000002" None None]))
  else if String.eqb url (Audible.asin_url "B000000001" (Some "us"))
  then Some (BookData (book_of "B000000001" "Book One"))
  else None.

(** A network on which the series [B0SERIES01] has the child
    [B000000001], whose similar books are [B000000002] and
    [B000000003], and every lookup of one of the three answers. *)
Definition catalog_net (k : nat) (url : string) : option Payload :=
  if String.eqb url (Audible.series_url "B0SERIES01" (Some "us"))
  then Some (ProductData (Some
         {| product_series := None;
            product_relationships :=
              Some [related "B000000001" (Some "child") (Some "series")] |}))
  else if String.eqb url (Audible.sims_url "B000000001" (Some "us"))
  then Some (SimsData (Some [related "B000000002" None None;
                             related "B000000003" None None]))
  else if String.eqb url (Audible.asin_url "B000000001" (Some "us"))
  then Some (BookData (book_of "B000000001" "Book One"))
  else if String.eqb url (Audible.asin_url "B000000002" (Some "us"))
  then Some (BookData (book_of "B000000002" "Book Two"))
  else if String.eqb url (Audible.asin_url "B000000003" (Some "us"))
  then Some (BookData (book_of "B000000003" "Book Three"))
  else None.

Definition saga : Series := {| series_id := 1; series_name := "Saga" |}.

(** User 7 follows the series 1, resolved to [B0SERIES01]. *)
Definition tracked_row : TrackedSeries :=
  {| ts_id := 10; ts_userId := 7; ts_seriesId := 1;
     ts_seriesAsin := Some "B0SERIES01"; ts_autoTracked := false;
     ts_region := Some "us"; ts_lastChecked := None;
     ts_createdAt := 0; ts_updatedAt := 0 |}.

Definition tracked : TrackedInstance :=
  {| inst_row := tracked_row; inst_series := Some saga |}.

Definition release_row (id : uuid) (asin title : string) (sequence : option string)
  : NewRelease :=
  {| nr_id := id; nr_trackedSeriesId := 10; nr_asin := asin; nr_title := title;
     nr_author := None; nr_narrator := None; nr_coverUrl := None;
     nr_releaseDate := None; nr_sequence := sequence; nr_provider := "audible";
     nr_dismissed := false; nr_discoveredAt := 0; nr_createdAt := 0 |}.

(** The library holds book one (its identifier in lower case); book
    three is recorded as a release already. *)
Definition library_db : Db :=
  {| schema := migrated;
     seriesTable := [saga];
     bookSeries := [(1, {| book_asin := Some "b000000001"; book_libraryId := Some 3 |})];
     libraryTable := [{| library_id := 3; library_provider := Some "audible.us" |}];
     trackedSeriesTable := [tracked_row];
     newReleaseTable := [release_row 20 "B000000003" "Book Three" (Some "3")];
     nextId := 100 |}.



(** The releases of the tracked series 10: book one, and a prequel whose
    marker has no number. *)
Definition listed_table : list NewRelease :=
  [release_row 21 "B000000001" "Book One" (Some "1");
   release_row 22 "B000000000" "The Prequel" (Some "Prequel")].

Definition entry (asin title : string) : SeriesFinder.SeriesBookResult :=
  {| SeriesFinder.asin := Some asin; SeriesFinder.title := Some title;
     SeriesFinder.author := None; SeriesFinder.narrator := None;
     SeriesFinder.coverUrl := None; SeriesFinder.releaseDate := None;
     SeriesFinder.sequence := None; SeriesFinder.provider := "audible" |}.

End Examples.

(* ================================================================== *)
(** ** The specification's own words *)
(* ================================================================== *)

(** Definitions that follow the wording of the specification, to be set
    against the code's. *)
Module Stated.

(** The diff as the specification words it: the external entries whose
    identifier, in upper case, is in neither the set of owned
    identifiers nor the set of recorded ones.  An entry without an
    identifier has none to be found in a set. *)
Definition in_neither_set {casing : Js.Casing} (owned recorded : list string)
  (book : SeriesFinder.SeriesBookResult) : bool :=
  match SeriesFinder.asin book with
  | Some a =>
      negb (SeriesFinder.has owned (Js.toUpperCase a))
      && negb (SeriesFinder.has recorded (Js.toUpperCase a))
  | None => true
  end.

Definition diff {casing : Js.Casing} (externalBooks : list SeriesFinder.SeriesBookResult)
  (owned recorded : list string) : list SeriesFinder.SeriesBookResult :=
  filter (in_neither_set owned recorded) externalBooks.






(** Ascending by the cast of the marker, a release without a marker
    being the last. *)
Definition marker_no_later {engine : SqlEngine} (a b : NewRelease) : Prop :=
  match NewReleaseModel.sequence_key a, NewReleaseModel.sequence_key b with
  | _, None => True
  | None, Some _ => False
  | Some x, Some y => (x <= y)%Q
  end.

(** A run of digits, one at least. *)
Definition digits (s : string) : bool := Js.truthy s && Js.all_chars Js.is_digit s.

(** A decimal-or-integer number: digits, digits with a fraction, or a
    fraction with a leading dot. *)
Definition numeric (m : string) : Prop :=
  digits m = true
  \/ (exists ds fs, m = ds ++ "." ++ fs /\ digits ds = true /\ digits fs = true)
  \/ (exists fs, m = "." ++ fs /\ digits fs = true).

(** [m] is the first numeric substring of [s]: it is numeric, no numeric
    substring of [s] starts before it, and none that starts where it
    starts is longer. *)
Definition first_number (s m : string) : Prop :=
  exists pre post,
    s = pre ++ m ++ post
    /\ numeric m
    /\ forall pre' m' post',
         s = pre' ++ m' ++ post' -> numeric m' ->
         String.length pre <= String.length pre'
         /\ (String.length pre' = String.length pre ->
             String.length m' <= String.length m).

(** A sequence marker is numeric when all of it is a number. *)
Definition numeric_marker (sequence : option string) : bool :=
  match sequence with
  | Some s => SequenceRe.is_number s
  | None => false
  end.

End Stated.

(* ================================================================== *)
(** ** Reasoning about runs *)
(* ================================================================== *)

(** [runs m w Q]: from [w], [m] returns without throwing, with a value
    and a world that satisfy [Q]. *)
Definition runs {A} (m : M A) (w : World) (Q : A -> World -> Prop) : Prop :=
  exists a w', m w = (Ok a, w') /\ Q a w'.

(** [w'] is [w] after some more requests, and nothing else changed. *)
Definition only_requests (w w' : World) : Prop :=
  network w' = network w /\ db w' = db w /\ logged w' = logged w
  /\ emitted w' = emitted w /\ clock w' = clock w
  /\ exists l, requests w' = (requests w ++ l)%list.

(** [keeps R m]: wherever [m] is run, it returns without throwing, and
    a world that [R] relates to the world it starts from is still
    related to the world it ends in. *)
Definition keeps (R : World -> World -> Prop) {A} (m : M A) : Prop :=
  forall w0 w, R w0 w -> runs m w (fun _ w' => R w0 w').

(** [quiet m]: [m] never throws and only makes requests. *)
Definition quiet {A} (m : M A) : Prop := keeps only_requests m.

(** [w'] has the schema and the releases of [w]. *)
Definition same_releases (w w' : World) : Prop :=
  schema (db w') = schema (db w)
  /\ newReleaseTable (db w') = newReleaseTable (db w).

(** Is the unique index on [(trackedSeriesId, asin)] in the schema? *)
Definition release_index (w : World) : bool :=
  Sql.has_unique_index (schema (db w)) "newReleases" ["trackedSeriesId"; "asin"].


(** Every release of [w'] that [w] does not have carries a non-empty
    identifier. *)
Definition recorded_with_identifier (w w' : World) : Prop :=
  forall r, In r (newReleaseTable (db w')) ->
            In r (newReleaseTable (db w)) \/ nr_asin r <> "".

(** What makes a tracked series the one it is: its id, its user and its
    series. *)
Definition identity (r : TrackedSeries) : uuid * uuid * uuid :=
  (ts_id r, ts_userId r, ts_seriesId r).

(** From [w] to [w'] the series are the same and so are the tracked
    series, row by row, up to the columns a check writes ([seriesAsin],
    [lastChecked], [updatedAt]) and the like. *)
Definition tracking_kept (w w' : World) : Prop :=
  seriesTable (db w') = seriesTable (db w)
  /\ map identity (trackedSeriesTable (db w')) = map identity (trackedSeriesTable (db w)).

(* ================================================================== *)
(** ** The migration, downward *)
(* ================================================================== *)

Module MigrationDown.

(** [queryInterface.dropTable(name)]: the table goes, and its indexes
    with it. *)
Definition dropTable (name : string) (s : Schema) : Schema :=
  {| tables := filter (fun t => negb (String.eqb t name)) (tables s);
     indexes := filter (fun ix => negb (String.eqb (ix_table ix) name)) (indexes s) |}.

(** [down({ context: { queryInterface, logger } })], on the schema. *)
Definition down (s : Schema) : Schema :=
  let s :=
    if Migration.tableExists "newReleases" s then dropTable "newReleases" s else s in
  if Migration.tableExists "trackedSeries" s then dropTable "trackedSeries" s else s.

End MigrationDown.

(* ================================================================== *)
(** ** The list queries of the models *)
(* ================================================================== *)

Module Queries.

(** A tracked series as [getTrackedSeriesForUser] returns it: with its
    series, and with its releases when they were asked for. *)
Record TrackedWithReleases := {
  twr_row : TrackedSeries;
  twr_series : Series;
  twr_newReleases : option (list NewRelease)
}.

(** [ORDER BY createdAt DESC]. *)
Definition created_desc (a b : TrackedWithReleases) : bool :=
  Z.leb (ts_createdAt (twr_row b)) (ts_createdAt (twr_row a)).

(** The [include] of [newRelease] with [where: { dismissed: false }] and
    [required: false]. *)
Definition pending_of (releases : list NewRelease) (r : TrackedSeries) : list NewRelease :=
  filter (fun n => Nat.eqb (nr_trackedSeriesId n) (ts_id r) && negb (nr_dismissed n))
    releases.

Definition with_series_and_releases (d : Db) (includeNewReleases : bool)
  (r : TrackedSeries) : option TrackedWithReleases :=
  match series_by_pk d (ts_seriesId r) with
  | Some s =>
      Some {| twr_row := r; twr_series := s;
              twr_newReleases :=
                if includeNewReleases then Some (pending_of (newReleaseTable d) r)
                else None |}
  | None => None
  end.

(** The rows [getTrackedSeriesForUser] reads, on a database. *)
Definition trackedSeriesForUser (userId : uuid) (includeNewReleases : bool) (d : Db)
  : list TrackedWithReleases :=
  Sql.order_by created_desc
    (TrackedSeriesModel.filter_map (with_series_and_releases d includeNewReleases)
       (filter (fun r => Nat.eqb (ts_userId r) userId) (trackedSeriesTable d))).

(** [TrackedSeries.getTrackedSeriesForUser(userId, options = {})]. *)
Definition getTrackedSeriesForUser (userId : uuid) (includeNewReleases : option bool)
  : M (list TrackedWithReleases) :=
  d <- get_db ;;
  ret (trackedSeriesForUser userId
         (match includeNewReleases with Some b => b | None => false end) d).

(** A release as [getPendingForUser] returns it: with its tracked series
    and the series of that. *)
Record PendingRelease := {
  pr_release : NewRelease;
  pr_trackedSeries : TrackedSeries;
  pr_series : Series
}.

(** The required [include] of [trackedSeries] with [where: { userId }]. *)
Definition tracked_of_user (d : Db) (userId : uuid) (n : NewRelease)
  : option TrackedSeries :=
  match find (fun t => Nat.eqb (ts_id t) (nr_trackedSeriesId n)) (trackedSeriesTable d) with
  | Some t => if Nat.eqb (ts_userId t) userId then Some t else None
  | None => None
  end.

Definition with_tracked_and_series (d : Db) (userId : uuid) (n : NewRelease)
  : option PendingRelease :=
  match tracked_of_user d userId n with
  | Some t =>
      match series_by_pk d (ts_seriesId t) with
      | Some s => Some {| pr_release := n; pr_trackedSeries := t; pr_series := s |}
      | None => None
      end
  | None => None
  end.

(** [ORDER BY discoveredAt DESC]. *)
Definition discovered_desc (a b : PendingRelease) : bool :=
  Z.leb (nr_discoveredAt (pr_release b)) (nr_discoveredAt (pr_release a)).

(** The rows [getPendingForUser] reads, on a database. *)
Definition pendingForUser (userId : uuid) (limit : nat) (d : Db) : list PendingRelease :=
  firstn limit
    (Sql.order_by discovered_desc
       (TrackedSeriesModel.filter_map (with_tracked_and_series d userId)
          (filter (fun n => negb (nr_dismissed n)) (newReleaseTable d)))).

(** [NewRelease.getPendingForUser(userId, limit = 50)]. *)
Definition getPendingForUser (userId : uuid) (limit : option nat)
  : M (list PendingRelease) :=
  let limit := match limit with Some l => l | None => 50 end in
  d <- get_db ;; ret (pendingForUser userId limit d).

(** The count [getPendingCountForUser] reads, on a database. *)
Definition pendingCountForUser (userId : uuid) (d : Db) : nat :=
  List.length
    (filter (fun n => negb (nr_dismissed n)
                      && match tracked_of_user d userId n with
                         | Some _ => true
                         | None => false
                         end)
       (newReleaseTable d)).

(** [NewRelease.getPendingCountForUser(userId)]. *)
Definition getPendingCountForUser (userId : uuid) : M nat :=
  d <- get_db ;; ret (pendingCountForUser userId d).

(** [trackedSeriesId: trackedSeriesIds.map((ts) => ts.id), dismissed: false]
    of [dismissAllForUser]. *)
Definition to_dismiss (trackedSeriesIds : list uuid) (n : NewRelease) : bool :=
  existsb (Nat.eqb (nr_trackedSeriesId n)) trackedSeriesIds && negb (nr_dismissed n).

(** [NewRelease.dismissAllForUser(userId)]. *)
Definition dismissAllForUser (userId : uuid) : M nat :=
  d <- get_db ;;
  let trackedSeriesIds :=
    map ts_id (filter (fun t => Nat.eqb (ts_userId t) userId) (trackedSeriesTable d)) in
  match trackedSeriesIds with
  | [] => ret 0
  | _ :: _ =>
      let updated := List.length (filter (to_dismiss trackedSeriesIds) (newReleaseTable d)) in
      set_db (with_newReleaseTable
                (map (fun n => if to_dismiss trackedSeriesIds n
                               then NewReleaseModel.set_dismissed n else n)
                   (newReleaseTable d)) d) ;;;
      ret updated
  end.

End Queries.

(* ================================================================== *)
(** ** The other handlers of the controller *)
(* ================================================================== *)

(** The info and debug lines these handlers write once they succeeded
    ([stopped following], [dismissed release], [dismissed n releases])
    are not recorded: they come last and nothing reads them. *)
Module Handlers.

(** What [getSeriesTrackingStatus] answers. *)
Record TrackingStatus := {
  isTracking : bool;
  trackedSeries : option TrackedSeries
}.

(** [getSeriesTrackingStatus(req, res)]. *)
Definition getSeriesTrackingStatus (seriesId userId : uuid) : M TrackingStatus :=
  isTracking <- TrackedSeriesModel.isTracking userId seriesId ;;
  trackedSeries <-
    (if isTracking then TrackedSeriesModel.getByUserAndSeries userId seriesId
     else ret None) ;;
  ret {| isTracking := isTracking;
         trackedSeries := option_map inst_row trackedSeries |}.

(** What the handlers that may answer 404 answer. *)
Inductive Answer (A : Type) :=
| Status404 (error : string)
| Json (body : A).
Arguments Status404 {A} error.
Arguments Json {A} body.

(** [unfollowSeries(req, res)], with its answer. *)
Definition unfollowSeries (seriesId userId : uuid) : M (Answer unit) :=
  removed <- TrackedSeriesModel.removeTracking userId seriesId ;;
  if negb removed then ret (Status404 "Not tracking this series")
  else ret (Json tt).

(** [NewRelease.belongsTo(trackedSeries, { foreignKey, as: 'trackedSeries' })]:
    the association of a release to its tracked series is under an
    alias. *)
Definition trackedSeries_alias : string := "trackedSeries".

(** An [include] of the [trackedSeries] model in a query of the
    releases, with its [as] if it has one: Sequelize refuses, with
    [SequelizeEagerLoadingError], an include that does not name the
    alias of the association. *)
Definition include_trackedSeries (as_ : option string) : M unit :=
  match as_ with
  | Some alias => if String.eqb alias trackedSeries_alias then ret tt
                  else throw SequelizeEagerLoadingError
  | None => throw SequelizeEagerLoadingError
  end.

(** The row that the query of [dismissRelease] selects once its include
    is accepted: the release of the id, if its tracked series is the
    user's. *)
Definition release_of_user (d : Db) (releaseId userId : uuid) : option NewRelease :=
  match find (fun n => Nat.eqb (nr_id n) releaseId) (newReleaseTable d) with
  | Some n =>
      match Queries.tracked_of_user d userId n with
      | Some _ => Some n
      | None => None
      end
  | None => None
  end.

(** [findByPk(releaseId, { include: [{ model: trackedSeries,
    where: { userId }, required: true }] })], the include with the [as]
    it is written with. *)
Definition findByPk_of_user (as_ : option string) (releaseId userId : uuid)
  : M (option NewRelease) :=
  include_trackedSeries as_ ;;;
  d <- get_db ;;
  ret (release_of_user d releaseId userId).

(** [dismissRelease(req, res)]: its include names the model and no
    [as]. *)
Definition dismissRelease (releaseId userId : uuid) : M (Answer unit) :=
  release <- findByPk_of_user None releaseId userId ;;
  match release with
  | None => ret (Status404 "Release not found")
  | Some _ =>
      NewReleaseModel.dismissRelease releaseId ;;;
      ret (Json tt)
  end.

(** [dismissAllReleases(req, res)]: the [dismissed] count of the answer. *)
Definition dismissAllReleases (userId : uuid) : M nat :=
  Queries.dismissAllForUser userId.

Section WithValidator.
Context {casing : Js.Casing} {validator : AsinValidator}.


End WithValidator.

End Handlers.

(* ================================================================== *)
(** ** A sweep whose promises all resolve *)
(* ================================================================== *)

Module Sweep.
Import NewReleaseManager.

(** The sweep resumed at [k], its promise resolved ([seriesToCheck] being
    what the query of the due series resolved to). *)
Definition resolve (seriesToCheck : list TrackedInstance) (k : Suspended) (m : Manager)
  : Manager * option Suspended :=
  match k with
  | AwaitDue _ _ => after_due seriesToCheck m
  | AwaitCheck _ rest => after_check rest m
  | AwaitDelay _ rest => after_delay rest m
  end.

(** The sweep resumed over and over, at most [fuel] times: the manager it
    leaves, the awaits it went through, and the await it is left at if
    the fuel did not do. *)
Fixpoint run (fuel : nat) (seriesToCheck : list TrackedInstance) (k : option Suspended)
  (m : Manager) : Manager * list Suspended * option Suspended :=
  match k with
  | None => (m, [], None)
  | Some k =>
      match fuel with
      | O => (m, [], Some k)
      | S fuel =>
          let (m', k') := resolve seriesToCheck k m in
          let '(m'', awaited, still) := run fuel seriesToCheck k' m' in
          (m'', k :: awaited, still)
      end
  end.

(** The awaits of a sweep over these series: the check of each, then the
    delay. *)
Fixpoint schedule (seriesToCheck : list TrackedInstance) : list Suspended :=
  match seriesToCheck with
  | [] => []
  | trackedSeries :: rest =>
      AwaitCheck trackedSeries rest :: AwaitDelay 2000 rest :: schedule rest
  end.

End Sweep.

(** From [w] to [w'] only requests were made, at most [n] of them. *)
Definition asks_at_most (n : nat) (w w' : World) : Prop :=
  only_requests w w'
  /\ List.length (requests w') <= List.length (requests w) + n.

(** The characters [encodeURIComponent] lets through, and the percent
    sign of what it escapes. *)
Definition uri_safe (c : ascii) : bool :=
  Audible.uri_unreserved c || Ascii.eqb c "%".

(** A looked-up book, if there is one, carries its identifier. *)
Definition identified (o : option AudnexBook) : Prop :=
  forall b, o = Some b -> Js.truthy_opt (ab_asin b) = true.

(** The books of a library that have a well-formed identifier. *)
Definition books_with_valid_asin {casing : Js.Casing} {validator : AsinValidator} (books : list Book)
  : list Book :=
  filter (fun book => negb (Audible.invalid_asin (book_asin book))) books.


(** ** Further example worlds *)

Module Worlds.

#[local] Existing Instance Js.ascii_casing.

(** A book that names its series. *)
Definition book_in_series (asin title seriesAsin position : string) : AudnexBook :=
  {| ab_asin := Some asin; ab_title := Some title; ab_authors := None;
     ab_narrators := None; ab_image := None; ab_releaseDate := None;
     ab_seriesPrimary :=
       Some {| sref_asin := Some seriesAsin; sref_name := Some "Saga";
               sref_position := Some position |};
     ab_seriesSecondary := None |}.

(** A network on which Audnexus knows book one as the first book of the
    series [B0SERIES01], and nothing else answers. *)
Definition audnex_net (k : nat) (url : string) : option Payload :=
  if String.eqb url (Audible.asin_url "B000000001" (Some "us"))
  then Some (BookData (book_in_series "B000000001" "Book One" "B0SERIES01" "1"))
  else None.

(** The database of the examples with no book in the library. *)
Definition no_books_db : Db :=
  {| schema := Examples.migrated;
     seriesTable := [Examples.saga];
     bookSeries := [];
     libraryTable := [];
     trackedSeriesTable := [Examples.tracked_row];
     newReleaseTable := [];
     nextId := 100 |}.

(** The schema of a database whose two tables were made from the
    declarations of the models, with the indexes the two [init] name:
    the [newReleases] table is there, the unique index on
    [(trackedSeriesId, asin)] is not. *)
Definition declared : Schema :=
  {| tables := ["users"; "series"; "trackedSeries"; "newReleases"];
     indexes := (TrackedSeriesModel.init_indexes ++ NewReleaseModel.init_indexes)%list |}.



(** The database of the examples with the library set up for the
    British store. *)
Definition uk_library_db : Db :=
  {| schema := Examples.migrated;
     seriesTable := [Examples.saga];
     bookSeries := [(1, {| book_asin := Some "b000000001"; book_libraryId := Some 3 |})];
     libraryTable := [{| library_id := 3; library_provider := Some "audible.uk" |}];
     trackedSeriesTable := [];
     newReleaseTable := [];
     nextId := 100 |}.

End Worlds.


(** From [w] to [w'] the clock and the notifications stayed, and no
    release was removed. *)
Definition calm (w w' : World) : Prop :=
  clock w' = clock w
  /\ emitted w' = emitted w
  /\ forall r, In r (newReleaseTable (db w)) -> In r (newReleaseTable (db w')).

(** A release as a check records it for the tracked series [id]: in the
    table, of that tracked series, and pending. *)
Definition recorded_for (id : uuid) (w : World) (r : NewRelease) : Prop :=
  In r (newReleaseTable (db w))
  /\ nr_trackedSeriesId r = id
  /\ nr_dismissed r = false.

(** Every row of the tracked series [id] was last checked at [t]. *)
Definition stamped (id : uuid) (t : Z) (w : World) : Prop :=
  forall r, In r (trackedSeriesTable (db w)) -> ts_id r = id ->
            ts_lastChecked r = Some t.


(** ** Percent-encoding, read back *)

Module Uri.

(** The value of a hexadecimal digit ([0-9], [A-F]). *)
Definition hex_value (c : ascii) : option nat :=
  let n := nat_of_ascii c in
  if Js.is_digit c then Some (n - 48)
  else if Nat.leb 65 n && Nat.leb n 70 then Some (n - 55)
  else None.

(** [decodeURIComponent] on the bytes of the string: an escape [%XY] is
    the byte of value [XY]; any other byte stands for itself. *)
Fixpoint decode (s : string) : string :=
  match s with
  | EmptyString => EmptyString
  | String c r =>
      match r with
      | String h (String l r2) =>
          if Ascii.eqb c "%"
          then match hex_value h, hex_value l with
               | Some x, Some y => String (ascii_of_nat (16 * x + y)) (decode r2)
               | _, _ => String c (decode r)
               end
          else String c (decode r)
      | _ => String c (decode r)
      end
  end.

(** How many bytes of the string need an escape. *)
Fixpoint escaped (s : string) : nat :=
  match s with
  | EmptyString => 0
  | String c r => (if Audible.uri_unreserved c then 0 else 1) + escaped r
  end.

(** The [regionQuery] of [asinSearch]. *)
Definition region_query (region : option string) : string :=
  match region with
  | Some r => if Js.truthy r then "?region=" ++ r else ""
  | None => ""
  end.

End Uri.

(* ================================================================== *)
(** * Properties *)
(* ================================================================== *)

(** The closed examples below are about ASCII strings; every other
    statement is about the conversion it names. *)
#[local] Existing Instance Js.ascii_casing.

(** ** Sequence cleaning *)

Module SequenceFacts.
Import SequenceRe.

Lemma span_digits_spec s :
  s = fst (span_digits s) ++ snd (span_digits s)
  /\ Js.all_chars Js.is_digit (fst (span_digits s)) = true
  /\ starts_with_digit (snd (span_digits s)) = false.
Proof.
  induction s as [|c r IH]; simpl.
  - auto.
  - destruct (Js.is_digit c) eqn:Hc.
    + destruct (span_digits r) as [ds post]; simpl in *.
      destruct IH as (E & D & P).
      rewrite Hc, D, <- E. auto.
    + simpl. rewrite Hc. auto.
Qed.

Lemma span_digits_all ds :
  Js.all_chars Js.is_digit ds = true -> span_digits ds = (ds, "").
Proof.
  induction ds as [|c r IH]; simpl; intros H.
  - reflexivity.
  - apply andb_true_iff in H as [Hc Hr].
    rewrite Hc, (IH Hr). reflexivity.
Qed.

Lemma span_digits_app ds post :
  Js.all_chars Js.is_digit ds = true -> starts_with_digit post = false ->
  span_digits (ds ++ post) = (ds, post).
Proof.
  induction ds as [|c r IH]; simpl; intros H P.
  - destruct post as [|c r]; simpl in *.
    + reflexivity.
    + rewrite P. reflexivity.
  - apply andb_true_iff in H as [Hc Hr].
    rewrite Hc, (IH Hr P). reflexivity.
Qed.

Lemma digit_not_dot c : Js.is_digit c = true -> Ascii.eqb c "." = false.
Proof.
  intros H. apply Ascii.eqb_neq. intros ->. discriminate H.
Qed.

(** What [dot_digits] matches: a dot and at least one digit, as many as
    there are. *)
Lemma dot_digits_spec s m post :
  dot_digits s = Some (m, post) ->
  exists c ds, m = String "." (String c ds) /\ s = m ++ post
               /\ Js.all_chars Js.is_digit (String c ds) = true
               /\ starts_with_digit post = false.
Proof.
  destruct s as [|d r]; simpl; [discriminate|].
  destruct (Ascii.eqb_spec d ".") as [->|]; [|discriminate].
  pose proof (span_digits_spec r) as (E & D & P).
  destruct (span_digits r) as [[|c ds] post']; simpl in *; [discriminate|].
  intros H. injection H as <- <-.
  exists c, ds. split; [reflexivity|]. split; [|auto].
  simpl. f_equal. exact E.
Qed.

Lemma dot_digits_dot r :
  dot_digits (String "." r)
  = match span_digits r with
    | (EmptyString, _) => None
    | (ds, post) => Some (String "." ds, post)
    end.
Proof. reflexivity. Qed.

Lemma dot_digits_whole c ds :
  Js.all_chars Js.is_digit (String c ds) = true ->
  dot_digits (String "." (String c ds)) = Some (String "." (String c ds), "").
Proof.
  intros D. rewrite dot_digits_dot, (span_digits_all _ D). reflexivity.
Qed.

Lemma dot_digits_none_on_digit c r :
  Js.is_digit c = true -> dot_digits (String c r) = None.
Proof.
  intros H. simpl. rewrite (digit_not_dot _ H). reflexivity.
Qed.

Lemma append_assoc (a b c : string) : (a ++ b) ++ c = a ++ (b ++ c).
Proof.
  induction a as [|x a IH]; simpl; [reflexivity | now rewrite IH].
Qed.

Lemma append_nil_r (a : string) : a ++ "" = a.
Proof.
  induction a as [|x a IH]; simpl; [reflexivity | now rewrite IH].
Qed.

Lemma all_digits_has_no_dot_start ds post :
  Js.all_chars Js.is_digit ds = true -> ds <> "" -> dot_digits (ds ++ post) = None.
Proof.
  destruct ds as [|c r]; [congruence|]. simpl Js.all_chars. intros H _.
  apply andb_true_iff in H as [Hc _].
  change (String c r ++ post) with (String c (r ++ post)).
  now apply dot_digits_none_on_digit.
Qed.

(** A match of the pattern at the head of [s]: the text is a number in
    the pattern's sense and nothing more of it could be taken. *)
Lemma match_here_spec s m post :
  match_here s = Some (m, post) ->
  s = m ++ post /\ is_number m = true /\ starts_with_digit post = false.
Proof.
  unfold match_here.
  destruct (dot_digits s) as [[m1 post1]|] eqn:Hd.
  - intros H. injection H as <- <-.
    destruct (dot_digits_spec _ _ _ Hd) as (c & ds & -> & E & D & P).
    repeat split; auto.
    unfold is_number, match_here.
    rewrite (dot_digits_whole _ _ D). reflexivity.
  - pose proof (span_digits_spec s) as (E & D & P).
    destruct (span_digits s) as [[|c ds] rest] eqn:Hs; simpl in E, D, P; [discriminate|].
    destruct (dot_digits rest) as [[frac post2]|] eqn:Hf.
    + intros H. injection H as <- <-.
      destruct (dot_digits_spec _ _ _ Hf) as (c' & fs & -> & E' & D' & P').
      split; [|split]; auto.
      * rewrite E, E'. now rewrite <- append_assoc.
      * unfold is_number, match_here.
        change (String c ds ++ String "." (String c' fs))
          with (String c (ds ++ String "." (String c' fs))).
        apply andb_true_iff in D as [Dc Dds].
        rewrite (dot_digits_none_on_digit _ _ Dc).
        change (String c (ds ++ String "." (String c' fs)))
          with (String c ds ++ String "." (String c' fs)).
        rewrite span_digits_app; [| simpl; now rewrite Dc, Dds | reflexivity].
        rewrite (dot_digits_whole _ _ D'). reflexivity.
    + intros H. injection H as <- <-.
      split; [|split]; auto.
      unfold is_number, match_here.
      pose proof D as D0. apply andb_true_iff in D0 as [Dc Dds].
      rewrite (dot_digits_none_on_digit _ _ Dc).
      rewrite (span_digits_all (String c ds)) by exact D. reflexivity.
Qed.

Lemma match_here_none_head c r :
  match_here (String c r) = None -> Js.is_digit c = false.
Proof.
  unfold match_here.
  destruct (dot_digits (String c r)) as [[? ?]|]; [discriminate|].
  simpl span_digits. destruct (Js.is_digit c); [|reflexivity].
  destruct (span_digits r) as [ds post].
  destruct (dot_digits post) as [[? ?]|]; discriminate.
Qed.

Lemma match_here_no_digit s : has_digit s = false -> match_here s = None.
Proof.
  intros H. destruct (match_here s) as [[m post]|] eqn:Hm; [|reflexivity].
  exfalso. unfold match_here in Hm.
  destruct (dot_digits s) as [[m1 post1]|] eqn:Hd.
  - destruct (dot_digits_spec _ _ _ Hd) as (c & ds & -> & E & D & _).
    subst s. simpl in H, D. apply andb_true_iff in D as [Dc _].
    unfold has_digit in H. cbn [Js.any_char] in H. rewrite Dc in H.
    rewrite orb_true_l, orb_true_r in H. discriminate.
  - destruct s as [|c r]; simpl in Hm; [discriminate|].
    unfold has_digit in H. simpl in H. apply orb_false_iff in H as [Hc _].
    rewrite Hc in Hm. discriminate.
Qed.

Lemma first_match_no_digit s : has_digit s = false -> first_match s = None.
Proof.
  induction s as [|c r IH]; intros H.
  - reflexivity.
  - simpl first_match. rewrite (match_here_no_digit _ H).
    apply IH. unfold has_digit in *. simpl in H.
    now apply orb_false_iff in H as [_ H].
Qed.

Lemma first_match_digit s :
  has_digit s = true ->
  exists pre m post,
    s = pre ++ m ++ post /\ first_match s = Some m
    /\ has_digit pre = false /\ is_number m = true /\ starts_with_digit post = false.
Proof.
  induction s as [|c r IH]; intros H; [discriminate|].
  simpl first_match.
  destruct (match_here (String c r)) as [[m post]|] eqn:Hm.
  - destruct (match_here_spec _ _ _ Hm) as (E & N & P).
    exists "", m, post. auto.
  - pose proof (match_here_none_head _ _ Hm) as Hc.
    unfold has_digit in H. simpl in H. rewrite Hc in H. simpl in H.
    destruct (IH H) as (pre & m & post & E & F & Hp & N & P).
    exists (String c pre), m, post. repeat split; auto.
    + simpl. now rewrite <- E.
    + unfold has_digit. simpl. rewrite Hc. exact Hp.
Qed.

End SequenceFacts.

Module NumberFacts.
Import SequenceRe.

Lemma append_inv_head (a b c : string) : a ++ b = a ++ c -> b = c.
Proof.
  induction a as [|x a IH]; simpl; intros E; [exact E|]. injection E as E. now apply IH.
Qed.

Lemma length_append (a b : string) :
  String.length (a ++ b) = String.length a + String.length b.
Proof. induction a as [|x a IH]; simpl; [reflexivity | now rewrite IH]. Qed.

Lemma length_zero (a : string) : String.length a = 0 -> a = "".
Proof. destruct a; [reflexivity | discriminate]. Qed.

(** Two cuts of one string: the shorter head is a head of the longer. *)
Lemma append_cut (a b a' b' : string) :
  a ++ b = a' ++ b' -> String.length a <= String.length a' ->
  exists c, a' = a ++ c /\ b = c ++ b'.
Proof.
  revert a'. induction a as [|x a IH]; intros a' E L; simpl in *.
  - exists a'. auto.
  - destruct a' as [|y a']; simpl in *; [lia|]. injection E as -> E.
    destruct (IH a' E ltac:(lia)) as (c & -> & ->). now exists c.
Qed.

Lemma append_same_length (a b a' b' : string) :
  a ++ b = a' ++ b' -> String.length a = String.length a' -> a = a' /\ b = b'.
Proof.
  intros E L. destruct (append_cut a b a' b' E ltac:(lia)) as (c & -> & ->).
  rewrite length_append in L. assert (C : c = "") by (apply length_zero; lia).
  subst c. rewrite SequenceFacts.append_nil_r. auto.
Qed.

Lemma digits_spec ds :
  Stated.digits ds = true <-> ds <> "" /\ Js.all_chars Js.is_digit ds = true.
Proof.
  unfold Stated.digits. destruct ds; simpl.
  - split; [discriminate | now intros [N _]].
  - split; [intros H; split; [discriminate | exact H] | now intros [_ H]].
Qed.

Lemma digits_head ds : Stated.digits ds = true -> starts_with_digit ds = true.
Proof.
  intros H. apply digits_spec in H as [N A]. destruct ds; [now elim N|].
  simpl in *. now apply andb_true_iff in A as [A _].
Qed.

Lemma starts_with_digit_append a b :
  starts_with_digit a = true -> starts_with_digit (a ++ b) = true.
Proof. destruct a; [discriminate | auto]. Qed.

(** A run of digits at the head of a string is not longer than the
    longest one. *)
Lemma digits_prefix_le ds post fs post' :
  Js.all_chars Js.is_digit ds = true -> starts_with_digit post = false ->
  Js.all_chars Js.is_digit fs = true ->
  ds ++ post = fs ++ post' -> String.length fs <= String.length ds.
Proof.
  intros D P. revert ds D. induction fs as [|f fs IH]; intros ds D F E; simpl; [lia|].
  simpl in F. apply andb_true_iff in F as [Ff F].
  destruct ds as [|d ds]; simpl in E.
  - subst post. simpl in P. congruence.
  - injection E as -> E. simpl in D. apply andb_true_iff in D as [_ D].
    specialize (IH ds D F E). simpl. lia.
Qed.

(** The longest run of digits at the head of a string is the only run
    that is followed by no digit. *)
Lemma digits_prefix_eq ds post fs post' :
  Js.all_chars Js.is_digit ds = true -> starts_with_digit post = false ->
  Js.all_chars Js.is_digit fs = true -> starts_with_digit post' = false ->
  ds ++ post = fs ++ post' -> ds = fs /\ post = post'.
Proof.
  intros D P F P' E. apply append_same_length; [exact E|].
  pose proof (digits_prefix_le _ _ _ _ D P F E).
  pose proof (digits_prefix_le _ _ _ _ F P' D (eq_sym E)). lia.
Qed.

Lemma numeric_head m :
  Stated.numeric m ->
  (starts_with_digit m = true
   /\ (Stated.digits m = true
       \/ exists ds fs, m = ds ++ "." ++ fs /\ Stated.digits ds = true
                         /\ Stated.digits fs = true))
  \/ (exists fs, m = "." ++ fs /\ Stated.digits fs = true).
Proof.
  intros [D|[(ds & fs & -> & D & F)|(fs & -> & F)]].
  - left. split; [now apply digits_head | now left].
  - left. split; [apply starts_with_digit_append; now apply digits_head|].
    right. now exists ds, fs.
  - right. now exists fs.
Qed.

Lemma dot_digits_some fs post :
  Stated.digits fs = true -> dot_digits ("." ++ fs ++ post) <> None.
Proof.
  intros F. apply digits_spec in F as [N A].
  destruct fs as [|f fs]; [now elim N|].
  change ("." ++ String f fs ++ post) with (String "." (String f (fs ++ post))).
  rewrite SequenceFacts.dot_digits_dot. cbn [span_digits].
  simpl in A. apply andb_true_iff in A as [Af _]. rewrite Af.
  destruct (span_digits (fs ++ post)). discriminate.
Qed.

Lemma dot_digits_none_no_dot s :
  starts_with_digit s = true -> dot_digits s = None.
Proof.
  destruct s as [|c r]; [discriminate|]. simpl.
  intros H. now apply SequenceFacts.dot_digits_none_on_digit.
Qed.

(** What the pattern matches at the head of a string is a number, and
    the longest one that starts there. *)
Lemma match_here_longest s m post :
  match_here s = Some (m, post) ->
  s = m ++ post
  /\ Stated.numeric m
  /\ forall m' post', s = m' ++ post' -> Stated.numeric m' ->
                      String.length m' <= String.length m.
Proof.
  unfold match_here.
  destruct (dot_digits s) as [[m0 post0]|] eqn:Hd.
  - intros H. injection H as <- <-.
    destruct (SequenceFacts.dot_digits_spec _ _ _ Hd) as (c & ds & -> & E & D & P).
    split; [exact E|]. split.
    + right. right. exists (String c ds). split; [reflexivity|].
      apply digits_spec. split; [discriminate | exact D].
    + intros m' post' E' N'. rewrite E in E'.
      destruct (numeric_head m' N') as [[H _]|(fs & -> & F)].
      * exfalso. destruct m' as [|x m']; [discriminate|]. simpl in E', H.
        injection E' as <- _. discriminate H.
      * simpl in E'. injection E' as E'. apply digits_spec in F as [_ F].
        pose proof (digits_prefix_le _ _ _ _ D P F E'). simpl in *. lia.
  - pose proof (SequenceFacts.span_digits_spec s) as (E & D & P).
    destruct (span_digits s) as [[|c ds] rest] eqn:Hs; [discriminate|].
    cbn [fst snd] in E, D, P.
    assert (NoDot : forall fs p, s <> "." ++ fs ++ p).
    { intros fs p H. rewrite H in E. simpl in E. injection E as <- _.
      simpl in D. discriminate D. }
    destruct (dot_digits rest) as [[frac post2]|] eqn:Hf.
    + intros H. injection H as <- <-.
      destruct (SequenceFacts.dot_digits_spec _ _ _ Hf) as (c' & fs & -> & E' & D' & P').
      split; [rewrite E, E'; now rewrite <- SequenceFacts.append_assoc|]. split.
      * right. left. exists (String c ds), (String c' fs). split; [reflexivity|].
        split; apply digits_spec; split; solve [discriminate | assumption].
      * intros m' post' Em N'.
        destruct (numeric_head m' N') as [[_ [Dm|(ds' & fs' & -> & Dd & Df)]]|(fs' & -> & F)].
        -- apply digits_spec in Dm as [_ Dm]. rewrite E in Em.
           pose proof (digits_prefix_le _ _ _ _ D P Dm Em).
           simpl in *. rewrite ?length_append. lia.
        -- apply digits_spec in Dd as [_ Dd]. apply digits_spec in Df as [_ Df].
           rewrite E in Em. rewrite !SequenceFacts.append_assoc in Em.
           destruct (digits_prefix_eq _ _ ds' ("." ++ fs' ++ post') D P Dd eq_refl Em) as [<- Er].
           rewrite E' in Er. simpl in Er. injection Er as Er.
           pose proof (digits_prefix_le _ _ _ _ D' P' Df Er).
           simpl in *. rewrite ?length_append. simpl in *. lia.
        -- exfalso. rewrite SequenceFacts.append_assoc in Em. exact (NoDot _ _ Em).
    + intros H. injection H as <- <-. split; [exact E|]. split.
      * left. apply digits_spec. split; [discriminate | exact D].
      * intros m' post' Em N'.
        destruct (numeric_head m' N') as [[_ [Dm|(ds' & fs' & -> & Dd & Df)]]|(fs' & -> & F)].
        -- apply digits_spec in Dm as [_ Dm]. rewrite E in Em.
           exact (digits_prefix_le _ _ _ _ D P Dm Em).
        -- exfalso. apply digits_spec in Dd as [_ Dd].
           rewrite E in Em. rewrite !SequenceFacts.append_assoc in Em.
           destruct (digits_prefix_eq _ _ ds' ("." ++ fs' ++ post') D P Dd eq_refl Em) as [_ Er].
           rewrite Er in Hf. exact (dot_digits_some _ _ Df Hf).
        -- exfalso. rewrite SequenceFacts.append_assoc in Em. exact (NoDot _ _ Em).
Qed.

(** Where the pattern does not match, no number starts. *)
Lemma match_here_none s m' post' :
  match_here s = None -> s = m' ++ post' -> ~ Stated.numeric m'.
Proof.
  unfold match_here. intros H E N.
  destruct (dot_digits s) as [[m0 post0]|] eqn:Hd; [discriminate|].
  destruct (numeric_head m' N) as [[Hh _]|(fs & -> & F)].
  - pose proof (starts_with_digit_append m' post' Hh) as Hs. rewrite <- E in Hs.
    destruct s as [|c r]; [discriminate|]. simpl in Hs. cbn [span_digits] in H.
    rewrite Hs in H. destruct (span_digits r) as [ds0 rest0].
    destruct (dot_digits rest0) as [[frac post]|]; discriminate.
  - rewrite SequenceFacts.append_assoc in E. rewrite E in Hd.
    exact (dot_digits_some _ _ F Hd).
Qed.

(** The match of the pattern is the first number of the string. *)
Lemma first_match_first_number s m :
  first_match s = Some m -> Stated.first_number s m.
Proof.
  induction s as [|c r IH]; cbn [first_match].
  - destruct (match_here "") as [[m0 post]|] eqn:M; [|discriminate].
    discriminate M.
  - destruct (match_here (String c r)) as [[m0 post]|] eqn:M.
    + intros H. injection H as <-.
      destruct (match_here_longest _ _ _ M) as (E & N & L).
      exists "", post. split; [exact E|]. split; [exact N|].
      intros pre' m' post' E' N'. split; [simpl; lia|].
      intros Z. simpl in Z. apply length_zero in Z. subst pre'. exact (L m' post' E' N').
    + intros H. destruct (IH H) as (pre & post & E & N & L).
      exists (String c pre), post. split; [simpl; now rewrite <- E|]. split; [exact N|].
      intros pre' m' post' E' N'.
      destruct pre' as [|x pre'].
      * exfalso. exact (match_here_none _ m' post' M E' N').
      * simpl in E'. injection E' as <- E'.
        destruct (L pre' m' post' E' N') as [L1 L2]. simpl. split; [lia|].
        intros Z. apply L2. lia.
Qed.

(** A string has at most one first number. *)
Lemma first_number_unique s m m' :
  Stated.first_number s m -> Stated.first_number s m' -> m = m'.
Proof.
  intros (pre & post & E & N & L) (pre' & post' & E' & N' & L').
  destruct (L pre' m' post' E' N') as [A1 A2].
  destruct (L' pre m post E N) as [B1 B2].
  assert (Lp : String.length pre = String.length pre') by lia.
  specialize (A2 (eq_sym Lp)). specialize (B2 Lp).
  rewrite E in E'. destruct (append_same_length _ _ _ _ E' Lp) as [_ Er].
  now destruct (append_same_length _ _ _ _ Er ltac:(lia)).
Qed.

(** The numbers of the pattern are the numeric strings. *)
Lemma is_number_numeric m : is_number m = true <-> Stated.numeric m.
Proof.
  unfold is_number. split.
  - destruct (match_here m) as [[m0 [|x post]]|] eqn:M; try discriminate. intros _.
    destruct (match_here_longest _ _ _ M) as (E & N & _).
    rewrite SequenceFacts.append_nil_r in E. now subst m0.
  - intros N. destruct (match_here m) as [[m0 post]|] eqn:M.
    + destruct (match_here_longest _ _ _ M) as (E & _ & L).
      pose proof (L m "" (eq_sym (SequenceFacts.append_nil_r m)) N) as Le.
      apply (f_equal String.length) in E. rewrite length_append in E.
      destruct post; [reflexivity | simpl in E; lia].
    + exfalso.
      exact (match_here_none m m "" M (eq_sym (SequenceFacts.append_nil_r m)) N).
Qed.

(** Without a digit there is no number. *)
Lemma no_digit_no_number s pre m post :
  has_digit s = false -> s = pre ++ m ++ post -> ~ Stated.numeric m.
Proof.
  intros H E N.
  assert (Hm : has_digit m = true).
  { destruct (numeric_head m N) as [[Hh _]|(fs & -> & F)].
    - destruct m as [|x m]; [discriminate|]. unfold has_digit. simpl in *. now rewrite Hh.
    - apply digits_head in F. destruct fs as [|f fs]; [discriminate|].
      unfold has_digit. simpl in *. rewrite F. now destruct (Js.is_digit "."). }
  assert (App : forall a b, has_digit (a ++ b) = has_digit a || has_digit b).
  { intros a b. unfold has_digit. induction a as [|x a IH]; simpl; [reflexivity|].
    now rewrite IH, orb_assoc. }
  rewrite E, !App, Hm in H. rewrite orb_true_l, orb_true_r in H. discriminate.
Qed.

End NumberFacts.

(** C5.  [cleanSeriesSequence] returns the first number of its input:
    ["2, Dramatized Adaptation"] gives ["2"] and [".5"] gives [".5"]; an
    input without a digit holds no number and is returned as it is; for
    an input with a digit the result is its first numeric substring: a
    number (digits, digits with a fraction, or a dot and digits) before
    the start of which no number of the input starts, and than which no
    number that starts there is longer.  There is one such substring
    only, and the numbers are the strings the pattern matches as a
    whole. *)
Theorem cleanSeriesSequence_first_number :
  (forall name, Audible.cleanSeriesSequence name (Some "2, Dramatized Adaptation") = "2")
  /\ (forall name, Audible.cleanSeriesSequence name (Some ".5") = ".5")
  /\ (forall name s, SequenceRe.has_digit s = false ->
                     Audible.cleanSeriesSequence name (Some s) = s
                     /\ forall pre m post, s = pre ++ m ++ post -> ~ Stated.numeric m)
  /\ (forall name s, SequenceRe.has_digit s = true ->
        Stated.first_number s (Audible.cleanSeriesSequence name (Some s))
        /\ exists pre m post,
             s = pre ++ m ++ post
             /\ Audible.cleanSeriesSequence name (Some s) = m
             /\ SequenceRe.has_digit pre = false
             /\ SequenceRe.is_number m = true
             /\ SequenceRe.starts_with_digit post = false)
  /\ (forall s m m', Stated.first_number s m -> Stated.first_number s m' -> m = m')
  /\ (forall m, SequenceRe.is_number m = true <-> Stated.numeric m).
Proof.
  split; [reflexivity|]. split; [reflexivity|]. split; [|split; [|split]].
  - intros name s H. split.
    + unfold Audible.cleanSeriesSequence.
      destruct s as [|c r]; [reflexivity|]. simpl Js.truthy. cbv iota beta. simpl negb.
      cbv iota. now rewrite (SequenceFacts.first_match_no_digit _ H).
    + intros pre m post. now apply NumberFacts.no_digit_no_number.
  - intros name s H.
    destruct (SequenceFacts.first_match_digit s H) as (pre & m & post & E & F & Hp & N & P).
    assert (C : Audible.cleanSeriesSequence name (Some s) = m).
    { unfold Audible.cleanSeriesSequence.
      destruct s as [|c r]; [discriminate H|]. simpl Js.truthy. simpl negb. cbv iota.
      now rewrite F. }
    rewrite C. split; [now apply NumberFacts.first_match_first_number|].
    exists pre, m, post. repeat split; auto.
  - exact NumberFacts.first_number_unique.
  - exact NumberFacts.is_number_numeric.
Qed.

Lemma cleanSeriesSequence_first_number_witness :
  SequenceRe.has_digit "Prequel" = false
  /\ Audible.cleanSeriesSequence (Some "Saga") (Some "Prequel") = "Prequel"
  /\ SequenceRe.has_digit "Book 1.5 (part 2)" = true
  /\ Audible.cleanSeriesSequence (Some "Saga") (Some "Book 1.5 (part 2)") = "1.5"
  /\ Stated.first_number "Book 1.5 (part 2)" "1.5".
Proof.
  split; [reflexivity|]. split.
  - apply (proj1 (proj2 (proj2 cleanSeriesSequence_first_number))). reflexivity.
  - split; [reflexivity|]. split; [reflexivity|].
    exact (proj1 (proj1 (proj2 (proj2 (proj2 cleanSeriesSequence_first_number)))
                    (Some "Saga") "Book 1.5 (part 2)" eq_refl)).
Defined.

(** ** The catalog client *)

Module AudibleFacts.
Import Audible.

Section WithCasing.
Context {casing : Js.Casing}.

Lemma bind_run {A B} (m : M A) (k : A -> M B) w a w' :
  m w = (Ok a, w') -> bind m k w = k a w'.
Proof. intros H. unfold bind. now rewrite H. Qed.

Lemma axios_get_run url w :
  axios_get url w = (Ok (network w (List.length (requests w)) url), with_request url w).
Proof. reflexivity. Qed.

(** [asinSearch] never throws and asks at most one URL. *)
Lemma asinSearch_run asin region w :
  exists res, asinSearch asin region w
              = (Ok res, if Js.truthy_opt asin
                         then with_request (asin_url (Js.or_else asin "") region) w
                         else w).
Proof.
  destruct asin as [[|c r]|]; simpl; try (eexists; reflexivity).
  unfold bind, axios_get.
  destruct (network w (List.length (requests w)) (asin_url (String c r) region)) as [data|];
    [|eexists; reflexivity].
  destruct (data_book data) as [b|]; [|eexists; reflexivity].
  destruct (Js.truthy_opt (ab_asin b)); eexists; reflexivity.
Qed.

(** The lookups of a list of products never throw. *)
Lemma mapM_asinSearch_total region products w :
  exists items w', mapM (fun product => asinSearch (rel_asin product) region) products w
                   = (Ok items, w').
Proof.
  revert w. induction products as [|p ps IH]; intros w; simpl.
  - eexists _, _. reflexivity.
  - destruct (asinSearch_run (rel_asin p) region w) as [res E].
    rewrite (bind_run _ _ _ _ _ E).
    destruct (IH (if Js.truthy_opt (rel_asin p)
                  then with_request (asin_url (Js.or_else (rel_asin p) "") region) w
                  else w)) as (items & w' & E').
    rewrite (bind_run _ _ _ _ _ E'). eexists _, _. reflexivity.
Qed.

Section WithValidator.
Context {validator : AsinValidator}.

Lemma getSeriesBooks_invalid asin region w :
  invalid_asin asin = true -> getSeriesBooks asin region w = (Ok [], w).
Proof. intros H. unfold getSeriesBooks. now rewrite H. Qed.

Lemma getBooksBySeriesAsin_invalid asin region w :
  invalid_asin asin = true -> getBooksBySeriesAsin asin region w = (Ok [], w).
Proof. intros H. unfold getBooksBySeriesAsin. now rewrite H. Qed.

Lemma getSeriesInfoFromAudible_invalid asin region w :
  invalid_asin asin = true -> getSeriesInfoFromAudible asin region w = (Ok None, w).
Proof. intros H. unfold getSeriesInfoFromAudible. now rewrite H. Qed.

(** [getSeriesBooks] on a valid identifier, by what the similarity
    lookup answers. *)
Lemma getSeriesBooks_valid asin region w :
  invalid_asin asin = false ->
  let a := Js.toUpperCase (Js.or_else asin "") in
  let r := default_region region in
  let w2 := with_request (sims_url a r) w in
  match network w (List.length (requests w)) (sims_url a r) with
  | None => getSeriesBooks asin region w = (Ok [], w2)
  | Some sims =>
      match data_similar_products sims with
      | None => getSeriesBooks asin region w = (Ok [], w2)
      | Some products =>
          exists items w3 orig w4,
            mapM (fun product => asinSearch (rel_asin product) r) products w2
            = (Ok items, w3)
            /\ asinSearch (Some a) r w3 = (Ok orig, w4)
            /\ getSeriesBooks asin region w
               = (Ok (map cleanResult
                        (filter_Boolean
                           (match orig with
                            | Some b => Some b :: items
                            | None => items
                            end))), w4)
      end
  end.
Proof.
  intros H a r w2. unfold getSeriesBooks. rewrite H. fold a. fold r.
  rewrite (bind_run _ _ _ _ _ (axios_get_run _ _)). fold w2.
  destruct (network w (List.length (requests w)) (sims_url a r)) as [sims|];
    [|reflexivity].
  destruct (data_similar_products sims) as [products|]; [|reflexivity].
  destruct (mapM_asinSearch_total r products w2) as (items & w3 & E).
  destruct (asinSearch_run (Some a) r w3) as [orig E'].
  eexists items, w3, orig, _. split; [exact E|]. split; [exact E'|].
  rewrite (bind_run _ _ _ _ _ E), (bind_run _ _ _ _ _ E'). reflexivity.
Qed.

End WithValidator.

End WithCasing.

End AudibleFacts.

(** C4, as the code has it.  An identifier that is missing, empty or
    not of the provider's format makes [getSeriesBooks],
    [getBooksBySeriesAsin] and [getSeriesInfoFromAudible], and the
    finder's [getSeriesBooksByAsin] and [findSeriesAsinFromBook], answer
    empty or null with no request made.  [asinSearch] does not validate:
    it answers null with no request for a missing or empty identifier
    only, and asks Audnexus for any other. *)
Theorem invalid_identifier_short_circuits {casing : Js.Casing} {validator : AsinValidator}
  (asin region : option string) (w : World) :
  Audible.invalid_asin asin = true ->
  Audible.getSeriesBooks asin region w = (Ok [], w)
  /\ Audible.getBooksBySeriesAsin asin region w = (Ok [], w)
  /\ Audible.getSeriesInfoFromAudible asin region w = (Ok None, w)
  /\ SeriesFinder.getSeriesBooksByAsin asin region w = (Ok [], w)
  /\ SeriesFinder.findSeriesAsinFromBook asin region w = (Ok None, w)
  /\ (Js.truthy_opt asin = false -> Audible.asinSearch asin region w = (Ok None, w))
  /\ (Js.truthy_opt asin = true ->
      requests (snd (Audible.asinSearch asin region w))
      = (requests w ++ [Audible.asin_url (Js.or_else asin "") region])%list).
Proof.
  intros H.
  split; [now apply AudibleFacts.getSeriesBooks_invalid|].
  split; [now apply AudibleFacts.getBooksBySeriesAsin_invalid|].
  split; [now apply AudibleFacts.getSeriesInfoFromAudible_invalid|].
  split; [unfold SeriesFinder.getSeriesBooksByAsin; now rewrite H|].
  split; [unfold SeriesFinder.findSeriesAsinFromBook; now rewrite H|].
  split; intros T.
  - destruct asin as [[|c r]|]; try reflexivity. discriminate T.
  - destruct (AudibleFacts.asinSearch_run asin region w) as [res E].
    rewrite E, T. reflexivity.
Qed.

Lemma invalid_identifier_short_circuits_witness :
  @Audible.invalid_asin Js.ascii_casing specValidASIN (Some "b0-bad id") = true
  /\ @Audible.getSeriesBooks Js.ascii_casing specValidASIN (Some "b0-bad id") (Some "us")
       (Examples.world_of Examples.audnex_always Examples.empty_db)
     = (Ok [], Examples.world_of Examples.audnex_always Examples.empty_db).
Proof.
  split; [reflexivity|].
  apply (@invalid_identifier_short_circuits Js.ascii_casing specValidASIN). reflexivity.
Defined.

(** C4, as the specification states it, fails for [asinSearch]: the identifier
    ["b0-bad id"] is not of the provider's format, and [asinSearch]
    requests it from Audnexus and hands back what Audnexus answers. *)
Lemma asinSearch_requests_invalid_identifier :
  @Audible.invalid_asin Js.ascii_casing specValidASIN (Some "b0-bad id") = true
  /\ Audible.asinSearch (Some "b0-bad id") (Some "us")
       (Examples.world_of Examples.audnex_always Examples.empty_db)
     = (Ok (Some (Examples.book_of "B0BAD" "A book")),
        with_request "https://api.audnex.us/books/B0-BAD%20ID?region=us"
          (Examples.world_of Examples.audnex_always Examples.empty_db)).
Proof. split; reflexivity. Qed.

(** C6, as the code has it.  [getBooksBySeriesAsin] on a well-formed
    series identifier asks for the relationships of the series.  If that
    request fails, or names no child of the series with an identifier,
    or names one whose identifier is not well formed, the answer is the
    empty list and nothing more is asked.  Otherwise it asks for the
    books similar to the child; if that request fails or carries no list
    of similar products, the answer is the empty list and nothing more
    is asked.  Otherwise every similar product is looked up, then the
    child itself; no lookup throws, and the answer is the cleaned books
    of the lookups that answered, the child's first: a lookup that fails
    drops that book and no other. *)
Theorem getBooksBySeriesAsin_stages {casing : Js.Casing} {validator : AsinValidator}
  (seriesAsin region : option string) (w : World) :
  Audible.invalid_asin seriesAsin = false ->
  let r := Audible.default_region region in
  let url1 := Audible.series_url (Js.toUpperCase (Js.or_else seriesAsin "")) r in
  let w1 := with_request url1 w in
  let run := Audible.getBooksBySeriesAsin seriesAsin region w in
  (network w (List.length (requests w)) url1 = None -> run = (Ok [], w1))
  /\ (forall data,
        network w (List.length (requests w)) url1 = Some data ->
        (Audible.childBook_of data = None -> run = (Ok [], w1))
        /\ (forall child,
              Audible.childBook_of data = Some child ->
              (Audible.invalid_asin (rel_asin child) = true -> run = (Ok [], w1))
              /\ (Audible.invalid_asin (rel_asin child) = false ->
                  let a := Js.toUpperCase (Js.or_else (rel_asin child) "") in
                  let r2 := Audible.default_region r in
                  let url2 := Audible.sims_url a r2 in
                  let w2 := with_request url2 w1 in
                  (network w (List.length (requests w1)) url2 = None -> run = (Ok [], w2))
                  /\ (forall sims,
                        network w (List.length (requests w1)) url2 = Some sims ->
                        (data_similar_products sims = None -> run = (Ok [], w2))
                        /\ (forall products,
                              data_similar_products sims = Some products ->
                              exists items w3 orig w4,
                                mapM (fun product =>
                                        Audible.asinSearch (rel_asin product) r2)
                                  products w2 = (Ok items, w3)
                                /\ Audible.asinSearch (Some a) r2 w3 = (Ok orig, w4)
                                /\ run
                                   = (Ok (map Audible.cleanResult
                                            (Audible.filter_Boolean
                                               (match orig with
                                                | Some b => Some b :: items
                                                | None => items
                                                end))), w4)))))).
Proof.
  intros H r url1 w1 run.
  assert (R : run = match network w (List.length (requests w)) url1 with
                    | None => (Ok [], w1)
                    | Some data =>
                        match Audible.childBook_of data with
                        | Some childBook =>
                            if Js.truthy_opt (rel_asin childBook)
                            then Audible.getSeriesBooks (rel_asin childBook) r w1
                            else (Ok [], w1)
                        | None => (Ok [], w1)
                        end
                    end).
  { unfold run, Audible.getBooksBySeriesAsin. rewrite H. fold r. fold url1.
    rewrite (AudibleFacts.bind_run _ _ _ _ _ (AudibleFacts.axios_get_run _ _)). fold w1.
    destruct (network w (List.length (requests w)) url1) as [data|]; [|reflexivity].
    destruct (Audible.childBook_of data) as [child|]; [|reflexivity].
    destruct (Js.truthy_opt (rel_asin child)); reflexivity. }
  split.
  - intros N. rewrite R, N. reflexivity.
  - intros data D. rewrite D in R. split.
    + intros C. rewrite R, C. reflexivity.
    + intros child C. rewrite C in R. split.
      * intros I. rewrite R.
        destruct (Js.truthy_opt (rel_asin child)); [|reflexivity].
        now apply AudibleFacts.getSeriesBooks_invalid.
      * intros V a r2 url2 w2.
        assert (T : Js.truthy_opt (rel_asin child) = true).
        { unfold Audible.invalid_asin in V. destruct (rel_asin child) as [s|]; [|discriminate].
          simpl. apply orb_false_iff in V as [V _]. now apply negb_false_iff in V. }
        rewrite T in R.
        pose proof (AudibleFacts.getSeriesBooks_valid (rel_asin child) r w1 V) as G.
        cbv zeta in G. fold a r2 url2 w2 in G.
        assert (L : network w1 = network w) by reflexivity. rewrite L in G.
        split.
        -- intros N. rewrite N in G. now rewrite R.
        -- intros sims S. rewrite S in G. split.
           ++ intros P. rewrite P in G. now rewrite R.
           ++ intros products P. rewrite P in G. now rewrite R.
Qed.

Lemma getBooksBySeriesAsin_stages_witness :
  @Audible.invalid_asin Js.ascii_casing specValidASIN (Some "B0SERIES01") = false
  /\ exists items w3 orig w4,
       mapM (fun product => Audible.asinSearch (rel_asin product) (Some "us"))
         [Examples.related "B000000002" None None]
         (with_request (Audible.sims_url "B000000001" (Some "us"))
            (with_request (Audible.series_url "B0SERIES01" (Some "us"))
               (Examples.world_of Examples.series_net Examples.empty_db)))
       = (Ok items, w3)
       /\ Audible.asinSearch (Some "B000000001") (Some "us") w3 = (Ok orig, w4)
       /\ @Audible.getBooksBySeriesAsin Js.ascii_casing specValidASIN (Some "B0SERIES01") (Some "us")
            (Examples.world_of Examples.series_net Examples.empty_db)
          = (Ok (map Audible.cleanResult
                   (Audible.filter_Boolean
                      (match orig with
                       | Some b => Some b :: items
                       | None => items
                       end))), w4).
Proof.
  split; [reflexivity|].
  pose proof (@getBooksBySeriesAsin_stages Js.ascii_casing specValidASIN (Some "B0SERIES01") (Some "us")
                (Examples.world_of Examples.series_net Examples.empty_db) eq_refl) as S.
  cbv zeta in S. destruct S as [_ S].
  destruct (S _ eq_refl) as [_ S1].
  destruct (S1 _ eq_refl) as [_ S2].
  destruct (S2 eq_refl) as [_ S3].
  destruct (S3 _ eq_refl) as [_ S4].
  exact (S4 _ eq_refl).
Defined.

(** C6, as the specification states it, fails at the stage that resolves the
    similar items.  For the series [B0SERIES01] the relationships name
    the child [B000000001] and the similarity set is [B000000002]; the
    lookup of [B000000002] fails.  The child is looked up all the same
    and the answer is not empty: it is the child's book. *)
Lemma getBooksBySeriesAsin_failed_item_lookup_is_dropped :
  Audible.asinSearch (Some "B000000002") (Some "us")
    (with_request (Audible.sims_url "B000000001" (Some "us"))
       (with_request (Audible.series_url "B0SERIES01" (Some "us"))
          (Examples.world_of Examples.series_net Examples.empty_db)))
  = (Ok None,
     with_request (Audible.asin_url "B000000002" (Some "us"))
       (with_request (Audible.sims_url "B000000001" (Some "us"))
          (with_request (Audible.series_url "B0SERIES01" (Some "us"))
             (Examples.world_of Examples.series_net Examples.empty_db))))
  /\ fst (@Audible.getBooksBySeriesAsin Js.ascii_casing specValidASIN (Some "B0SERIES01") (Some "us")
            (Examples.world_of Examples.series_net Examples.empty_db))
     = Ok [Audible.cleanResult (Examples.book_of "B000000001" "Book One")]
  /\ requests (snd (@Audible.getBooksBySeriesAsin Js.ascii_casing specValidASIN (Some "B0SERIES01")
                      (Some "us")
                      (Examples.world_of Examples.series_net Examples.empty_db)))
     = [ "https://api.audible.com/1.0/catalog/products/B0SERIES01?response_groups=relationships";
         "https://api.audible.com/1.0/catalog/products/B000000001/sims?similarity_type=InTheSameSeries&num_results=50";
         "https://api.audnex.us/books/B000000002?region=us";
         "https://api.audnex.us/books/B000000001?region=us" ].
Proof. repeat split; vm_compute; reflexivity. Qed.

(** ** Runs that do not throw *)

Module RunFacts.

Section WithCasing.
Context {casing : Js.Casing}.

Lemma runs_ret {A} (a : A) w (Q : A -> World -> Prop) : Q a w -> runs (ret a) w Q.
Proof. intros H. exists a, w. auto. Qed.

Lemma runs_bind {A B} (m : M A) (k : A -> M B) w (Q : B -> World -> Prop) :
  runs m w (fun a w' => runs (k a) w' Q) -> runs (bind m k) w Q.
Proof.
  intros (a & w' & E & b & w'' & E' & H).
  exists b, w''. split; [|exact H]. unfold bind. now rewrite E.
Qed.

Lemma runs_weaken {A} (m : M A) w (Q Q' : A -> World -> Prop) :
  runs m w Q -> (forall a w', Q a w' -> Q' a w') -> runs m w Q'.
Proof. intros (a & w' & E & H) I. exists a, w'. auto. Qed.

Lemma runs_try_catch {A} (m : M A) h w (Q : A -> World -> Prop) :
  runs m w Q -> runs (try_catch m h) w Q.
Proof.
  intros (a & w' & E & H). exists a, w'. split; [|exact H].
  unfold try_catch. now rewrite E.
Qed.

Lemma runs_eq {A} (m : M A) w (Q : A -> World -> Prop) a w' :
  runs m w Q -> m w = (Ok a, w') -> Q a w'.
Proof. intros (a0 & w0 & E & H) E'. rewrite E in E'. now injection E' as <- <-. Qed.

Lemma only_requests_refl w : only_requests w w.
Proof. repeat split. exists []. now rewrite app_nil_r. Qed.

Lemma only_requests_trans w1 w2 w3 :
  only_requests w1 w2 -> only_requests w2 w3 -> only_requests w1 w3.
Proof.
  intros (N1 & D1 & L1 & E1 & C1 & l1 & R1) (N2 & D2 & L2 & E2 & C2 & l2 & R2).
  repeat split; try congruence.
  exists (l1 ++ l2)%list. rewrite R2, R1. now rewrite app_assoc.
Qed.

Lemma only_requests_with_request url w : only_requests w (with_request url w).
Proof. repeat split. now exists [url]. Qed.

Section Keeps.
Variable R : World -> World -> Prop.

Lemma keeps_ret {A} (a : A) : keeps R (ret a).
Proof. intros w0 w H. now apply runs_ret. Qed.

Lemma keeps_bind {A B} (m : M A) (k : A -> M B) :
  keeps R m -> (forall a, keeps R (k a)) -> keeps R (bind m k).
Proof.
  intros Hm Hk w0 w H. apply runs_bind.
  apply (runs_weaken _ _ _ _ (Hm w0 w H)). intros a w' H'. now apply Hk.
Qed.

Lemma keeps_try_catch {A} (m : M A) h : keeps R m -> keeps R (try_catch m h).
Proof. intros Hm w0 w H. apply runs_try_catch. now apply Hm. Qed.

Lemma keeps_get_db : keeps R get_db.
Proof. intros w0 w H. eexists _, _. split; [reflexivity|exact H]. Qed.

Lemma keeps_now : keeps R now.
Proof. intros w0 w H. eexists _, _. split; [reflexivity|exact H]. Qed.

Hypothesis R_refl : forall w, R w w.
Hypothesis R_trans : forall w1 w2 w3, R w1 w2 -> R w2 w3 -> R w1 w3.

Lemma keeps_runs {A} (m : M A) w : keeps R m -> runs m w (fun _ w' => R w w').
Proof. intros H. apply H, R_refl. Qed.

Lemma keeps_step {A} (m : M A) :
  (forall w, runs m w (fun _ w' => R w w')) -> keeps R m.
Proof.
  intros H w0 w H0. apply (runs_weaken _ _ _ _ (H w)).
  intros a w' H'. exact (R_trans _ _ _ H0 H').
Qed.

Lemma keeps_more {A} (m : M A) (R' : World -> World -> Prop) :
  (forall w w', R' w w' -> R w w') ->
  (forall w, R' w w) -> keeps R' m -> keeps R m.
Proof.
  intros I Rf H. apply keeps_step. intros w.
  apply (runs_weaken _ _ _ _ (H w w (Rf w))). intros a w'. apply I.
Qed.

End Keeps.

Lemma quiet_ret {A} (a : A) : quiet (ret a).
Proof. apply keeps_ret. Qed.

Lemma quiet_bind {A B} (m : M A) (k : A -> M B) :
  quiet m -> (forall a, quiet (k a)) -> quiet (bind m k).
Proof. apply keeps_bind. Qed.

Lemma quiet_axios_get url : quiet (axios_get url).
Proof.
  intros w0 w H. eexists _, _. split; [reflexivity|].
  exact (only_requests_trans _ _ _ H (only_requests_with_request url w)).
Qed.

Lemma quiet_get_db : quiet get_db.
Proof. apply keeps_get_db. Qed.

Lemma quiet_runs {A} (m : M A) w :
  quiet m -> runs m w (fun _ w' => only_requests w w').
Proof. apply keeps_runs, only_requests_refl. Qed.

Ltac quiet :=
  repeat first
    [ apply quiet_ret
    | apply quiet_axios_get
    | apply quiet_get_db
    | apply quiet_bind; [|intros ?]
    | match goal with
      | |- quiet (match ?x with _ => _ end) => destruct x
      | |- quiet (if ?x then _ else _) => destruct x
      end
    | assumption ].

Lemma quiet_asinSearch asin region : quiet (Audible.asinSearch asin region).
Proof. unfold Audible.asinSearch. quiet. Qed.

Lemma quiet_mapM {A B} (f : A -> M B) l :
  (forall x, quiet (f x)) -> quiet (mapM f l).
Proof. intros H. induction l as [|x r IH]; simpl; quiet; apply H. Qed.

Section WithValidator.
Context {validator : AsinValidator}.

Lemma quiet_getSeriesBooks asin region :
  quiet (Audible.getSeriesBooks asin region).
Proof.
  unfold Audible.getSeriesBooks.
  destruct (Audible.invalid_asin asin); [apply quiet_ret|].
  apply quiet_bind; [apply quiet_axios_get|]. intros [data|]; [|apply quiet_ret].
  destruct (data_similar_products data) as [products|]; [|apply quiet_ret].
  apply quiet_bind; [apply quiet_mapM; intros x; apply quiet_asinSearch|].
  intros items. apply quiet_bind; [apply quiet_asinSearch|].
  intros orig. apply quiet_ret.
Qed.

Lemma quiet_getBooksBySeriesAsin seriesAsin region :
  quiet (Audible.getBooksBySeriesAsin seriesAsin region).
Proof.
  unfold Audible.getBooksBySeriesAsin.
  destruct (Audible.invalid_asin seriesAsin); [apply quiet_ret|].
  apply quiet_bind; [apply quiet_axios_get|]. intros [data|]; [|apply quiet_ret].
  destruct (Audible.childBook_of data) as [child|]; [|apply quiet_ret].
  destruct (Js.truthy_opt (rel_asin child)); [|apply quiet_ret].
  apply quiet_getSeriesBooks.
Qed.

Lemma quiet_getSeriesInfoFromAudible asin region :
  quiet (Audible.getSeriesInfoFromAudible asin region).
Proof.
  unfold Audible.getSeriesInfoFromAudible.
  destruct (Audible.invalid_asin asin); [apply quiet_ret|].
  apply quiet_bind; [apply quiet_axios_get|]. intros [data|]; [|apply quiet_ret].
  destruct (Audible.series_info_of_related _); [apply quiet_ret|].
  destruct (data_product data) as [p|]; [|apply quiet_ret].
  destruct (product_relationships p); apply quiet_ret.
Qed.

Lemma quiet_getSeriesBooksByAsin seriesAsin region :
  quiet (SeriesFinder.getSeriesBooksByAsin seriesAsin region).
Proof.
  unfold SeriesFinder.getSeriesBooksByAsin.
  destruct (Audible.invalid_asin seriesAsin); [apply quiet_ret|].
  apply quiet_bind; [apply quiet_getBooksBySeriesAsin|]. intros books. apply quiet_ret.
Qed.

Lemma quiet_findSeriesAsinFromBook bookAsin region :
  quiet (SeriesFinder.findSeriesAsinFromBook bookAsin region).
Proof.
  unfold SeriesFinder.findSeriesAsinFromBook.
  destruct (Audible.invalid_asin bookAsin); [apply quiet_ret|].
  apply quiet_bind; [apply quiet_asinSearch|]. intros [b|]; [|apply quiet_ret].
  destruct (Audible.extractSeriesInfo (Some b)); [apply quiet_ret|].
  apply quiet_getSeriesInfoFromAudible.
Qed.

Lemma quiet_first_series_asin books region :
  quiet (SeriesFinder.first_series_asin books region).
Proof.
  induction books as [|book rest IH]; simpl; [apply quiet_ret|].
  destruct (negb (Audible.invalid_asin (book_asin book))); [|exact IH].
  apply quiet_bind; [apply quiet_findSeriesAsinFromBook|].
  intros [i|]; [apply quiet_ret|exact IH].
Qed.

Lemma quiet_findSeriesAsinFromLibrary seriesId region :
  quiet (SeriesFinder.findSeriesAsinFromLibrary seriesId region).
Proof.
  unfold SeriesFinder.findSeriesAsinFromLibrary, series_findByPk,
    getBooksExpandedWithLibraryItem.
  apply quiet_bind; [apply quiet_bind; [apply quiet_get_db|intros d; apply quiet_ret]|].
  intros [s|]; [|apply quiet_ret].
  apply quiet_bind; [apply quiet_bind; [apply quiet_get_db|intros d; apply quiet_ret]|].
  intros books. apply quiet_first_series_asin.
Qed.

End WithValidator.

End WithCasing.

End RunFacts.

(** ** What the catalog client hands back *)

Module CatalogFacts.
Import Audible RunFacts.

Section WithCasing.
Context {casing : Js.Casing}.

Lemma asks_zero w : asks_at_most 0 w w.
Proof. split; [apply only_requests_refl | lia]. Qed.

Lemma asks_one url w : asks_at_most 1 w (with_request url w).
Proof.
  split; [apply only_requests_with_request|]. simpl. rewrite length_app. simpl. lia.
Qed.

Lemma asks_trans n m w1 w2 w3 :
  asks_at_most n w1 w2 -> asks_at_most m w2 w3 -> asks_at_most (n + m) w1 w3.
Proof.
  intros [O1 L1] [O2 L2]. split; [exact (only_requests_trans _ _ _ O1 O2) | lia].
Qed.

Lemma asks_more n m w w' : n <= m -> asks_at_most n w w' -> asks_at_most m w w'.
Proof. intros L [O B]. split; [exact O | lia]. Qed.

(** One lookup: at most one request, none for an absent identifier, and
    a book only if it carries its identifier. *)
Lemma asinSearch_spec asin region w :
  runs (asinSearch asin region) w
    (fun res w' =>
       asks_at_most 1 w w'
       /\ (Js.truthy_opt asin = false -> w' = w /\ res = None)
       /\ (forall b, res = Some b -> Js.truthy_opt (ab_asin b) = true)).
Proof.
  assert (Z : runs (ret (@None AudnexBook)) w
                (fun res w' =>
                   asks_at_most 1 w w'
                   /\ (Js.truthy_opt asin = false -> w' = w /\ res = None)
                   /\ (forall b, res = Some b -> Js.truthy_opt (ab_asin b) = true))).
  { apply runs_ret. split; [apply (asks_more 0); [lia | apply asks_zero]|].
    split; [auto | discriminate]. }
  destruct asin as [[|c r]|]; [exact Z | | exact Z].
  unfold asinSearch. cbn [Js.truthy negb]. apply runs_bind.
  eexists _, _. split; [apply AudibleFacts.axios_get_run|].
  assert (N : forall res, (forall b, res = Some b -> Js.truthy_opt (ab_asin b) = true) ->
              runs (ret res) (with_request (asin_url (String c r) region) w)
                (fun res w' =>
                   asks_at_most 1 w w'
                   /\ (Js.truthy_opt (Some (String c r)) = false -> w' = w /\ res = None)
                   /\ (forall b, res = Some b -> Js.truthy_opt (ab_asin b) = true))).
  { intros res H. apply runs_ret. split; [apply asks_one|]. split; [discriminate | exact H]. }
  destruct (network w (List.length (requests w)) (asin_url (String c r) region)) as [data|];
    [|apply N; discriminate].
  destruct (data_book data) as [b|]; [|apply N; discriminate].
  destruct (Js.truthy_opt (ab_asin b)) eqn:T; apply N; [|discriminate].
  intros b' E. now injection E as <-.
Qed.


Lemma mapM_asinSearch_spec region products w :
  runs (mapM (fun product => asinSearch (rel_asin product) region) products) w
    (fun items w' => only_requests w w' /\ Forall identified items).
Proof.
  revert w. induction products as [|p ps IH]; intros w; simpl.
  - apply runs_ret. split; [apply only_requests_refl | constructor].
  - apply runs_bind. apply (runs_weaken _ _ _ _ (asinSearch_spec (rel_asin p) region w)).
    intros res w1 ([O1 _] & _ & I). apply runs_bind.
    apply (runs_weaken _ _ _ _ (IH w1)). intros items w2 [O2 F].
    apply runs_ret. split; [exact (only_requests_trans _ _ _ O1 O2)|].
    constructor; [exact I | exact F].
Qed.

Lemma filter_Boolean_identified items :
  Forall identified items ->
  Forall (fun b => Js.truthy_opt (ab_asin b) = true) (filter_Boolean items).
Proof.
  induction 1 as [|[b|] r I _ IH]; simpl; try constructor; auto.
Qed.

Section WithValidator.
Context {validator : AsinValidator}.

Lemma getSeriesBooks_identified asin region w :
  runs (getSeriesBooks asin region) w
    (fun books w' =>
       only_requests w w'
       /\ Forall (fun book => Js.truthy_opt (Audible.asin book) = true) books).
Proof.
  unfold getSeriesBooks.
  destruct (invalid_asin asin);
    [apply runs_ret; split; [apply only_requests_refl | constructor]|].
  apply runs_bind. eexists _, _. split; [apply AudibleFacts.axios_get_run|].
  set (w1 := with_request _ w).
  assert (O1 : only_requests w w1) by apply only_requests_with_request.
  destruct (network w _ _) as [data|]; [|apply runs_ret; split; [exact O1 | constructor]].
  destruct (data_similar_products data) as [products|];
    [|apply runs_ret; split; [exact O1 | constructor]].
  apply runs_bind.
  apply (runs_weaken _ _ _ _ (mapM_asinSearch_spec _ products w1)).
  intros items w2 [O2 F]. apply runs_bind.
  apply (runs_weaken _ _ _ _ (asinSearch_spec _ _ w2)).
  intros orig w3 ([O3 _] & _ & I). apply runs_ret.
  split; [exact (only_requests_trans _ _ _ O1 (only_requests_trans _ _ _ O2 O3))|].
  apply Forall_map. apply filter_Boolean_identified.
  destruct orig as [b|]; [constructor; [exact I | exact F] | exact F].
Qed.

Lemma getBooksBySeriesAsin_identified seriesAsin region w :
  runs (getBooksBySeriesAsin seriesAsin region) w
    (fun books w' =>
       only_requests w w'
       /\ Forall (fun book => Js.truthy_opt (Audible.asin book) = true) books).
Proof.
  unfold getBooksBySeriesAsin.
  destruct (invalid_asin seriesAsin);
    [apply runs_ret; split; [apply only_requests_refl | constructor]|].
  apply runs_bind. eexists _, _. split; [apply AudibleFacts.axios_get_run|].
  set (w1 := with_request _ w).
  assert (O1 : only_requests w w1) by apply only_requests_with_request.
  destruct (network w _ _) as [data|]; [|apply runs_ret; split; [exact O1 | constructor]].
  destruct (childBook_of data) as [child|];
    [|apply runs_ret; split; [exact O1 | constructor]].
  destruct (Js.truthy_opt (rel_asin child));
    [|apply runs_ret; split; [exact O1 | constructor]].
  apply (runs_weaken _ _ _ _ (getSeriesBooks_identified _ _ w1)).
  intros books w2 [O2 F]. split; [exact (only_requests_trans _ _ _ O1 O2) | exact F].
Qed.

Lemma getSeriesBooksByAsin_identified seriesAsin region w :
  runs (SeriesFinder.getSeriesBooksByAsin seriesAsin region) w
    (fun books w' =>
       only_requests w w'
       /\ Forall (fun entry => Js.truthy_opt (SeriesFinder.asin entry) = true) books).
Proof.
  unfold SeriesFinder.getSeriesBooksByAsin.
  destruct (invalid_asin seriesAsin);
    [apply runs_ret; split; [apply only_requests_refl | constructor]|].
  apply runs_bind.
  apply (runs_weaken _ _ _ _ (getBooksBySeriesAsin_identified _ _ w)).
  intros books w' [O F]. apply runs_ret. split; [exact O|].
  apply Forall_map. exact F.
Qed.

End WithValidator.

End WithCasing.

End CatalogFacts.

(** ** The release diff *)

Module DiffFacts.
Import SeriesFinder.

Section WithCasing.
Context {casing : Js.Casing}.

Lemma has_In set x : has set x = true <-> In x set.
Proof.
  unfold has. rewrite existsb_exists. split.
  - intros (y & I & E). apply String.eqb_eq in E. now subst.
  - intros I. exists x. split; [exact I | apply String.eqb_refl].
Qed.

Lemma has_false set x : has set x = false <-> ~ In x set.
Proof.
  rewrite <- has_In. destruct (has set x); split; congruence.
Qed.

Lemma truthy_nonempty s : Js.truthy s = true <-> s <> "".
Proof. destruct s; simpl; split; congruence. Qed.

Lemma filter_Boolean_In {A} (l : list (option A)) x :
  In x (Audible.filter_Boolean l) <-> In (Some x) l.
Proof.
  induction l as [|[a|] r IH]; simpl.
  - tauto.
  - rewrite IH. split; intros [E|I]; auto; left; congruence.
  - rewrite IH. split; [auto | intros [E|I]; [discriminate | exact I]].
Qed.

(** The set of owned identifiers: the non-empty identifiers of the
    library's books, in upper case. *)
Lemma libraryAsins_In libraryBooks x :
  In x (libraryAsins libraryBooks)
  <-> x <> "" /\ exists book a, In book libraryBooks /\ book_asin book = Some a
                                /\ Js.toUpperCase a = x.
Proof.
  unfold libraryAsins. rewrite filter_In, filter_Boolean_In, in_map_iff, truthy_nonempty.
  split.
  - intros [(book & E & I) N]. split; [exact N|].
    destruct (book_asin book) as [a|] eqn:B; [|discriminate].
    exists book, a. simpl in E. injection E as E. auto.
  - intros [N (book & a & I & B & E)]. split; [|exact N].
    exists book. rewrite B. simpl. now rewrite E.
Qed.

(** The set of recorded identifiers: the identifiers of the releases, in
    upper case. *)
Lemma existingReleaseAsins_In releases x :
  In x (existingReleaseAsins releases)
  <-> exists a, In a releases /\ Js.toUpperCase a = x.
Proof.
  unfold existingReleaseAsins. rewrite in_map_iff.
  split; intros (a & H1 & H2); exists a; auto.
Qed.

Lemma is_new_stated owned recorded book :
  is_new owned recorded book
  = Js.truthy_opt (asin book) && Stated.in_neither_set owned recorded book.
Proof.
  unfold is_new, Stated.in_neither_set. destruct (asin book) as [[|c r]|]; reflexivity.
Qed.

Lemma filter_both {A} (p q : A -> bool) l :
  filter (fun x => p x && q x) l = filter p (filter q l).
Proof.
  induction l as [|x r IH]; simpl; [reflexivity|].
  destruct (q x); simpl.
  - rewrite andb_true_r. destruct (p x); now rewrite IH.
  - now rewrite andb_false_r.
Qed.

Lemma newBooks_stated externalBooks libraryBooks releases :
  newBooks externalBooks libraryBooks releases
  = filter (fun book => Js.truthy_opt (asin book))
      (Stated.diff externalBooks (libraryAsins libraryBooks)
         (existingReleaseAsins releases)).
Proof.
  unfold newBooks, Stated.diff. rewrite <- filter_both.
  apply filter_ext. intros book. apply is_new_stated.
Qed.

Lemma newBooks_In externalBooks libraryBooks releases book :
  In book (newBooks externalBooks libraryBooks releases)
  <-> In book externalBooks
      /\ exists a, asin book = Some a /\ a <> ""
                   /\ ~ In (Js.toUpperCase a) (libraryAsins libraryBooks)
                   /\ ~ In (Js.toUpperCase a) (existingReleaseAsins releases).
Proof.
  unfold newBooks. rewrite filter_In. unfold is_new.
  split.
  - intros [I N]. split; [exact I|].
    destruct (asin book) as [a|]; [|discriminate].
    destruct (Js.truthy a) eqn:T; [|discriminate]. simpl in N.
    apply andb_true_iff in N as [N1 N2].
    apply negb_true_iff in N1, N2.
    exists a. repeat split.
    + now apply truthy_nonempty.
    + now apply has_false.
    + now apply has_false.
  - intros [I (a & -> & N & O & R)]. split; [exact I|].
    apply truthy_nonempty in N. rewrite N. simpl.
    apply has_false in O, R. now rewrite O, R.
Qed.

Lemma newBooks_truthy externalBooks libraryBooks releases :
  Forall (fun book => Js.truthy_opt (asin book) = true)
    (newBooks externalBooks libraryBooks releases).
Proof.
  apply Forall_forall. intros book I.
  apply newBooks_In in I as [_ (a & E & N & _)].
  rewrite E. simpl. now apply truthy_nonempty.
Qed.

Section WithValidator.
Context {validator : AsinValidator}.

(** What [getNewReleasesForSeries] returns, and that it only reads. *)
Lemma getNewReleasesForSeries_run trackedSeries w :
  exists externalBooks w',
    only_requests w w'
    /\ (Js.truthy_opt (ts_seriesAsin (inst_row trackedSeries)) = true ->
        getSeriesBooksByAsin (ts_seriesAsin (inst_row trackedSeries))
          (Some (Js.or_else (ts_region (inst_row trackedSeries)) "us")) w
        = (Ok externalBooks, w'))
    /\ getNewReleasesForSeries trackedSeries w
       = (Ok (if Js.truthy_opt (ts_seriesAsin (inst_row trackedSeries))
              then match series_of (db w) trackedSeries with
                   | Some series =>
                       newBooks externalBooks (series_books (db w) series)
                         (NewReleaseModel.release_asins (db w)
                            (ts_id (inst_row trackedSeries)))
                   | None => []
                   end
              else []), w').
Proof.
  unfold getNewReleasesForSeries.
  destruct (Js.truthy_opt (ts_seriesAsin (inst_row trackedSeries))) eqn:T;
    cbn [negb]; cbv iota.
  - destruct (RunFacts.quiet_runs _ w
                (RunFacts.quiet_getSeriesBooksByAsin
                   (ts_seriesAsin (inst_row trackedSeries))
                   (Some (Js.or_else (ts_region (inst_row trackedSeries)) "us"))))
      as (ext & w' & E & Q).
    exists ext, w'. split; [exact Q|]. split; [intros _; exact E|].
    rewrite (AudibleFacts.bind_run _ _ _ _ _ E).
    destruct Q as (_ & D & _).
    destruct ext as [|b ext].
    + destruct (series_of (db w) trackedSeries); reflexivity.
    + unfold series_of, series_findByPk, getBooksExpandedWithLibraryItem,
        NewReleaseModel.asins_of_tracked, bind, get_db, ret.
      destruct (inst_series trackedSeries) as [s|]; cbv beta iota; rewrite ?D.
      * reflexivity.
      * destruct (series_by_pk (db w) (ts_seriesId (inst_row trackedSeries)));
          cbv beta iota; rewrite ?D; reflexivity.
  - exists [], w. split; [apply RunFacts.only_requests_refl|].
    split; [discriminate | reflexivity].
Qed.

(** The guard on the identifier lets every entry through that carries
    one. *)
Lemma filter_identified (l : list SeriesBookResult) :
  Forall (fun book => Js.truthy_opt (asin book) = true) l ->
  filter (fun book => Js.truthy_opt (asin book)) l = l.
Proof.
  induction 1 as [|x r T _ IH]; simpl; [reflexivity|]. now rewrite T, IH.
Qed.

Lemma diff_identified externalBooks owned recorded :
  Forall (fun book => Js.truthy_opt (asin book) = true) externalBooks ->
  Forall (fun book => Js.truthy_opt (asin book) = true)
    (Stated.diff externalBooks owned recorded).
Proof.
  intros F. apply Forall_forall. intros book I. apply filter_In in I as [I _].
  revert book I. now apply Forall_forall.
Qed.

(** [getNewReleasesForSeries] returns the stated diff of what the finder
    lists: every listed entry carries an identifier. *)
Lemma getNewReleasesForSeries_diff trackedSeries w :
  exists externalBooks w',
    only_requests w w'
    /\ Forall (fun book => Js.truthy_opt (asin book) = true) externalBooks
    /\ (if Js.truthy_opt (ts_seriesAsin (inst_row trackedSeries))
        then getSeriesBooksByAsin (ts_seriesAsin (inst_row trackedSeries))
               (Some (Js.or_else (ts_region (inst_row trackedSeries)) "us")) w
             = (Ok externalBooks, w')
        else externalBooks = [] /\ w' = w)
    /\ getNewReleasesForSeries trackedSeries w
       = (Ok match series_of (db w) trackedSeries with
             | Some series =>
                 Stated.diff externalBooks
                   (libraryAsins (series_books (db w) series))
                   (existingReleaseAsins
                      (NewReleaseModel.release_asins (db w)
                         (ts_id (inst_row trackedSeries))))
             | None => []
             end, w').
Proof.
  destruct (Js.truthy_opt (ts_seriesAsin (inst_row trackedSeries))) eqn:T.
  - destruct (getNewReleasesForSeries_run trackedSeries w) as (ext & w' & O & E & R).
    rewrite T in E, R. specialize (E eq_refl).
    destruct (CatalogFacts.getSeriesBooksByAsin_identified
                (ts_seriesAsin (inst_row trackedSeries))
                (Some (Js.or_else (ts_region (inst_row trackedSeries)) "us")) w)
      as (books & w1 & E1 & _ & F).
    rewrite E in E1. injection E1 as <- <-.
    exists ext, w'. split; [exact O|]. split; [exact F|]. split; [exact E|].
    rewrite R. destruct (series_of (db w) trackedSeries) as [series|]; [|reflexivity].
    rewrite newBooks_stated. now rewrite (filter_identified _ (diff_identified _ _ _ F)).
  - exists [], w. split; [apply RunFacts.only_requests_refl|]. split; [constructor|].
    split; [now split|].
    unfold getNewReleasesForSeries. rewrite T. cbn [negb]. cbv iota.
    now destruct (series_of (db w) trackedSeries).
Qed.

(** The stated diff, entry by entry. *)
Lemma diff_In externalBooks owned recorded book :
  In book (Stated.diff externalBooks owned recorded)
  <-> In book externalBooks
      /\ forall a, asin book = Some a ->
                   ~ In (Js.toUpperCase a) owned /\ ~ In (Js.toUpperCase a) recorded.
Proof.
  unfold Stated.diff, Stated.in_neither_set. rewrite filter_In.
  split; intros [I N]; (split; [exact I|]).
  - intros a E. rewrite E in N. apply andb_true_iff in N as [N1 N2].
    apply negb_true_iff in N1, N2. split; now apply has_false.
  - destruct (asin book) as [a|]; [|reflexivity].
    destruct (N a eq_refl) as [N1 N2]. apply has_false in N1, N2. now rewrite N1, N2.
Qed.

End WithValidator.

End WithCasing.

End DiffFacts.

(** C1.  [getNewReleasesForSeries], run in any world on any tracked
    series, returns the set difference the specification states: of the
    entries the catalog client listed (none when the tracked series has no
    series identifier), exactly those whose identifier, in upper case, is
    neither in the set of owned identifiers (the non-empty identifiers of
    the library's books of the series, in upper case) nor in the set of
    recorded ones (the identifiers of the tracked series' releases, in
    upper case), in the order of the catalog client; when the series of
    the tracked series is not in the database there is no owned set and
    the result is empty.  It only reads.  Every listed entry carries an
    identifier, so the guard of the code on a missing identifier drops
    nothing: on every list the code's filter is the stated diff without
    the entries that lack an identifier. *)
Theorem release_diff_is_set_difference {casing : Js.Casing} {validator : AsinValidator} :
  (forall trackedSeries w,
      exists externalBooks w',
        only_requests w w'
        /\ Forall (fun book => Js.truthy_opt (SeriesFinder.asin book) = true) externalBooks
        /\ (if Js.truthy_opt (ts_seriesAsin (inst_row trackedSeries))
            then SeriesFinder.getSeriesBooksByAsin (ts_seriesAsin (inst_row trackedSeries))
                   (Some (Js.or_else (ts_region (inst_row trackedSeries)) "us")) w
                 = (Ok externalBooks, w')
            else externalBooks = [] /\ w' = w)
        /\ SeriesFinder.getNewReleasesForSeries trackedSeries w
           = (Ok match SeriesFinder.series_of (db w) trackedSeries with
                 | Some series =>
                     Stated.diff externalBooks
                       (SeriesFinder.libraryAsins (series_books (db w) series))
                       (SeriesFinder.existingReleaseAsins
                          (NewReleaseModel.release_asins (db w)
                             (ts_id (inst_row trackedSeries))))
                 | None => []
                 end, w'))
  /\ (forall externalBooks owned recorded book,
        In book (Stated.diff externalBooks owned recorded)
        <-> In book externalBooks
            /\ forall a, SeriesFinder.asin book = Some a ->
                         ~ In (Js.toUpperCase a) owned /\ ~ In (Js.toUpperCase a) recorded)
  /\ (forall before after owned recorded,
        Stated.diff (before ++ after)%list owned recorded
        = (Stated.diff before owned recorded ++ Stated.diff after owned recorded)%list)
  /\ (forall libraryBooks x,
        In x (SeriesFinder.libraryAsins libraryBooks)
        <-> x <> "" /\ exists book a, In book libraryBooks /\ book_asin book = Some a
                                      /\ Js.toUpperCase a = x)
  /\ (forall releases x,
        In x (SeriesFinder.existingReleaseAsins releases)
        <-> exists a, In a releases /\ Js.toUpperCase a = x)
  /\ (forall externalBooks libraryBooks releases,
        SeriesFinder.newBooks externalBooks libraryBooks releases
        = filter (fun book => Js.truthy_opt (SeriesFinder.asin book))
            (Stated.diff externalBooks (SeriesFinder.libraryAsins libraryBooks)
               (SeriesFinder.existingReleaseAsins releases))).
Proof.
  split; [exact DiffFacts.getNewReleasesForSeries_diff|].
  split; [exact DiffFacts.diff_In|].
  split; [intros; apply filter_app|].
  split; [exact DiffFacts.libraryAsins_In|].
  split; [exact DiffFacts.existingReleaseAsins_In|].
  exact DiffFacts.newBooks_stated.
Qed.

Lemma release_diff_is_set_difference_witness :
  exists externalBooks w',
    @SeriesFinder.getSeriesBooksByAsin Js.ascii_casing specValidASIN (Some "B0SERIES01") (Some "us")
      (Examples.world_of Examples.catalog_net Examples.library_db)
    = (Ok externalBooks, w')
    /\ @SeriesFinder.getNewReleasesForSeries Js.ascii_casing specValidASIN Examples.tracked
         (Examples.world_of Examples.catalog_net Examples.library_db)
       = (Ok (Stated.diff externalBooks ["B000000001"] ["B000000003"]), w').
Proof.
  destruct (proj1 (@release_diff_is_set_difference Js.ascii_casing specValidASIN)
              Examples.tracked (Examples.world_of Examples.catalog_net Examples.library_db))
    as (externalBooks & w' & _ & _ & E & R).
  exists externalBooks, w'. split; [exact E | exact R].
Defined.

(** The diff on the example catalog: of the three books of the series,
    the one the library holds and the one already recorded are left out. *)
Example getNewReleasesForSeries_example :
  fst (@SeriesFinder.getNewReleasesForSeries Js.ascii_casing specValidASIN Examples.tracked
         (Examples.world_of Examples.catalog_net Examples.library_db))
  = Ok [Examples.entry "B000000002" "Book Two"].
Proof. vm_compute. reflexivity. Qed.

(** ** Recording releases *)

Module ManagerFacts.
Import NewReleaseManager RunFacts.

Lemma same_releases_refl w : same_releases w w.
Proof. split; reflexivity. Qed.

Lemma same_releases_trans w1 w2 w3 :
  same_releases w1 w2 -> same_releases w2 w3 -> same_releases w1 w3.
Proof. intros [A B] [C D]. split; congruence. Qed.

Lemma only_requests_same_releases w w' : only_requests w w' -> same_releases w w'.
Proof. intros (_ & D & _). split; now rewrite D. Qed.

Lemma keeps_Logger R l :
  (forall w, R w (with_logged l w)) ->
  (forall w1 w2 w3, R w1 w2 -> R w2 w3 -> R w1 w3) -> keeps R (Logger l).
Proof.
  intros H T w0 w H0. eexists _, _. split; [reflexivity|].
  exact (T _ _ _ H0 (H w)).
Qed.

Lemma quiet_same_releases {A} (m : M A) : quiet m -> keeps same_releases m.
Proof.
  apply keeps_more.
  - exact same_releases_trans.
  - exact only_requests_same_releases.
  - exact only_requests_refl.
Qed.

Lemma same_releases_step {A} (m : M A) :
  (forall w, runs m w (fun _ w' => same_releases w w')) -> keeps same_releases m.
Proof. apply keeps_step. exact same_releases_trans. Qed.

Lemma same_releases_Logger l : keeps same_releases (Logger l).
Proof.
  apply same_releases_step. intros w. eexists _, _. split; [reflexivity|]. split; reflexivity.
Qed.

Lemma same_releases_emit e : keeps same_releases (emit e).
Proof.
  apply same_releases_step. intros w. eexists _, _. split; [reflexivity|]. split; reflexivity.
Qed.

Lemma same_releases_save id change : keeps same_releases (TrackedSeriesModel.save id change).
Proof.
  apply same_releases_step. intros w. eexists _, _. split; [reflexivity|]. split; reflexivity.
Qed.

Lemma same_releases_updateLastChecked inst :
  keeps same_releases (TrackedSeriesModel.updateLastChecked inst).
Proof.
  unfold TrackedSeriesModel.updateLastChecked.
  apply keeps_bind; [apply keeps_now|]. intros t.
  apply keeps_bind; [apply same_releases_save|]. intros _. apply keeps_ret.
Qed.

Lemma same_releases_updateSeriesAsin inst asin :
  keeps same_releases (TrackedSeriesModel.updateSeriesAsin inst asin).
Proof.
  unfold TrackedSeriesModel.updateSeriesAsin.
  apply keeps_bind; [apply keeps_now|]. intros t.
  apply keeps_bind; [apply same_releases_save|]. intros _. apply keeps_ret.
Qed.

Lemma same_releases_notifyNewReleases inst releases :
  keeps same_releases (notifyNewReleases inst releases).
Proof.
  induction releases as [|r rest IH]; simpl; [apply keeps_ret|].
  apply keeps_bind; [apply same_releases_emit|]. intros _. exact IH.
Qed.

(** What one turn of the loop does, case by case: it never throws. *)
Lemma create_release_cases trackedSeriesId seriesName book w :
  match SeriesFinder.asin book, SeriesFinder.title book with
  | Some a, Some t =>
      if release_index w
         && existsb (NewReleaseModel.same_key trackedSeriesId a) (newReleaseTable (db w))
      then create_release trackedSeriesId seriesName book w
           = (Ok None, with_logged (ReleaseAlreadyExists (Some a)) w)
      else if negb (NewReleaseModel.tracked_exists (db w) trackedSeriesId)
      then create_release trackedSeriesId seriesName book w
           = (Ok None,
              with_logged (ErrorCreatingReleaseRecord SequelizeForeignKeyConstraintError) w)
      else exists row,
          nr_trackedSeriesId row = trackedSeriesId /\ nr_asin row = a
          /\ create_release trackedSeriesId seriesName book w
             = (Ok (Some row),
                with_logged (NewReleaseFound (Some t) seriesName)
                  (with_db (with_nextId (S (nextId (db w)))
                              (with_newReleaseTable
                                 (newReleaseTable (db w) ++ [row])%list (db w))) w))
  | _, _ =>
      create_release trackedSeriesId seriesName book w
      = (Ok None, with_logged (ErrorCreatingReleaseRecord SequelizeValidationError) w)
  end.
Proof.
  unfold create_release, NewReleaseModel.createNewRelease, NewReleaseModel.create,
    try_catch, bind, now, get_db, release_index. simpl.
  destruct (SeriesFinder.asin book) as [a|]; [|reflexivity].
  destruct (SeriesFinder.title book) as [t|]; [|reflexivity].
  destruct (Sql.has_unique_index (schema (db w)) "newReleases" ["trackedSeriesId"; "asin"]
            && existsb (NewReleaseModel.same_key trackedSeriesId a) (newReleaseTable (db w))).
  - reflexivity.
  - destruct (NewReleaseModel.tracked_exists (db w) trackedSeriesId); cbn [negb].
    + eexists. split; [|split; [|reflexivity]]; reflexivity.
    + reflexivity.
Qed.








Lemma recorded_with_identifier_refl w : recorded_with_identifier w w.
Proof. intros r I. now left. Qed.

Lemma recorded_with_identifier_trans w1 w2 w3 :
  recorded_with_identifier w1 w2 -> recorded_with_identifier w2 w3 ->
  recorded_with_identifier w1 w3.
Proof.
  intros H1 H2 r I. destruct (H2 r I) as [I2|N]; [|now right]. exact (H1 r I2).
Qed.

Lemma same_releases_recorded_with_identifier w w' :
  same_releases w w' -> recorded_with_identifier w w'.
Proof. intros [_ T] r I. left. now rewrite <- T. Qed.

Lemma logged_same l w : same_releases w (with_logged l w).
Proof. split; reflexivity. Qed.


(** One turn of the loop on a book with an identifier records no release
    without one. *)
Lemma create_release_identifier trackedSeriesId seriesName book w :
  Js.truthy_opt (SeriesFinder.asin book) = true ->
  runs (create_release trackedSeriesId seriesName book) w
    (fun _ w' => recorded_with_identifier w w').
Proof.
  intros T.
  pose proof (create_release_cases trackedSeriesId seriesName book w) as C.
  destruct (SeriesFinder.asin book) as [a|]; [|discriminate T].
  destruct (SeriesFinder.title book) as [t|];
    [|eexists _, _; split; [exact C | apply same_releases_recorded_with_identifier, logged_same]].
  destruct (release_index w
            && existsb (NewReleaseModel.same_key trackedSeriesId a) (newReleaseTable (db w))).
  - eexists _, _. split; [exact C | apply same_releases_recorded_with_identifier, logged_same].
  - destruct (negb (NewReleaseModel.tracked_exists (db w) trackedSeriesId));
      [eexists _, _; split;
       [exact C | apply same_releases_recorded_with_identifier, logged_same]|].
    destruct C as (row & Kt & Ka & C). eexists _, _. split; [exact C|].
    intros r I. simpl in I. apply in_app_or in I as [I|[<-|[]]]; [now left|].
    right. rewrite Ka. now apply DiffFacts.truthy_nonempty.
Qed.

End ManagerFacts.

Module CheckFacts.
Import NewReleaseManager RunFacts ManagerFacts.

Section Kept.
Context {casing : Js.Casing} {validator : AsinValidator}.
Variable R : World -> World -> Prop.
Hypothesis R_refl : forall w, R w w.
Hypothesis R_trans : forall w1 w2 w3, R w1 w2 -> R w2 w3 -> R w1 w3.
Hypothesis R_same : forall w w', same_releases w w' -> R w w'.
Hypothesis R_create :
  forall trackedSeriesId seriesName book w,
    Js.truthy_opt (SeriesFinder.asin book) = true ->
    runs (create_release trackedSeriesId seriesName book) w (fun _ w' => R w w').

Lemma lift {A} (m : M A) : keeps same_releases m -> keeps R m.
Proof. apply keeps_more; auto using same_releases_refl. Qed.

Lemma keeps_bind_post {A B} (m : M A) (k : A -> M B) (Q : A -> Prop) :
  (forall w, runs m w (fun a w' => R w w' /\ Q a)) ->
  (forall a, Q a -> keeps R (k a)) -> keeps R (bind m k).
Proof.
  intros Hm Hk w0 w H. apply runs_bind.
  apply (runs_weaken _ _ _ _ (Hm w)). intros a w' [H' q].
  apply (Hk a q). exact (R_trans _ _ _ H H').
Qed.

Lemma create_releases_kept trackedSeriesId seriesName newBooks :
  Forall (fun book => Js.truthy_opt (SeriesFinder.asin book) = true) newBooks ->
  keeps R (create_releases trackedSeriesId seriesName newBooks).
Proof.
  induction 1 as [|book rest T _ IH]; simpl; [apply keeps_ret|].
  apply keeps_bind.
  - apply keeps_step; [exact R_trans|]. intros w. now apply R_create.
  - intros created. apply keeps_bind; [exact IH|]. intros rest'. apply keeps_ret.
Qed.

Lemma getNewReleasesForSeries_post trackedSeries w :
  runs (SeriesFinder.getNewReleasesForSeries trackedSeries) w
    (fun books w' =>
       R w w' /\ Forall (fun book => Js.truthy_opt (SeriesFinder.asin book) = true) books).
Proof.
  destruct (DiffFacts.getNewReleasesForSeries_run trackedSeries w)
    as (ext & w' & Q & _ & E).
  eexists _, _. split; [exact E|]. split.
  - apply R_same. now apply only_requests_same_releases.
  - destruct (Js.truthy_opt (ts_seriesAsin (inst_row trackedSeries))); [|constructor].
    destruct (SeriesFinder.series_of (db w) trackedSeries); [|constructor].
    apply DiffFacts.newBooks_truthy.
Qed.

(** [checkSeriesForNewReleases] never throws, and keeps what the turns
    of its loop keep. *)
Lemma checkSeriesForNewReleases_kept trackedSeries :
  keeps R (checkSeriesForNewReleases trackedSeries).
Proof.
  unfold checkSeriesForNewReleases.
  apply keeps_bind; [apply lift, same_releases_Logger|]. intros _.
  apply keeps_try_catch.
  apply keeps_bind.
  - destruct (negb (Js.truthy_opt (ts_seriesAsin (inst_row trackedSeries))));
      [|apply keeps_ret].
    apply keeps_bind;
      [apply lift, quiet_same_releases, quiet_findSeriesAsinFromLibrary|].
    intros seriesAsin. destruct (Js.or_null seriesAsin) as [a|].
    + apply keeps_bind; [apply lift, same_releases_updateSeriesAsin|].
      intros ts. apply keeps_ret.
    + apply keeps_bind; [apply lift, same_releases_Logger|]. intros _.
      apply keeps_bind; [apply lift, same_releases_updateLastChecked|]. intros _.
      apply keeps_ret.
  - intros [ts|]; [|apply keeps_ret].
    apply keeps_bind_post
      with (Q := Forall (fun book => Js.truthy_opt (SeriesFinder.asin book) = true)).
    + intros w. apply getNewReleasesForSeries_post.
    + intros newBooks T.
      apply keeps_bind; [now apply create_releases_kept|]. intros created.
      apply keeps_bind; [apply lift, same_releases_updateLastChecked|]. intros ts'.
      destruct created as [|c cs]; [apply keeps_ret|].
      apply keeps_bind; [apply lift, same_releases_notifyNewReleases|]. intros _.
      apply keeps_bind; [apply lift, same_releases_emit|]. intros _.
      apply keeps_ret.
Qed.

End Kept.



End CheckFacts.




(** C10.  An external entry whose identifier is missing or empty is in no
    diff, whatever the sets hold; [getNewReleasesForSeries] never throws
    and every entry it returns has a non-empty identifier;
    [checkSeriesForNewReleases] never throws and every release in the
    database after it that was not there before has a non-empty
    identifier. *)
Theorem entries_without_identifier_are_excluded {casing : Js.Casing} {validator : AsinValidator} :
  (forall externalBooks libraryBooks releases book,
      Js.truthy_opt (SeriesFinder.asin book) = false ->
      ~ In book (SeriesFinder.newBooks externalBooks libraryBooks releases))
  /\ (forall trackedSeries w,
        exists books w',
          SeriesFinder.getNewReleasesForSeries trackedSeries w = (Ok books, w')
          /\ Forall (fun book => Js.truthy_opt (SeriesFinder.asin book) = true) books)
  /\ (forall trackedSeries w,
        exists created w',
          NewReleaseManager.checkSeriesForNewReleases trackedSeries w = (Ok created, w')
          /\ forall r, In r (newReleaseTable (db w')) ->
                       In r (newReleaseTable (db w)) \/ nr_asin r <> "").
Proof.
  split; [|split].
  - intros ext lib rel book F I.
    pose proof (DiffFacts.newBooks_truthy ext lib rel) as T.
    rewrite Forall_forall in T. rewrite (T book I) in F. discriminate.
  - intros ts w.
    destruct (CheckFacts.getNewReleasesForSeries_post same_releases (fun w w' H => H) ts w)
      as (books & w' & E & _ & T).
    exists books, w'. auto.
  - intros ts w.
    assert (C : keeps recorded_with_identifier
                  (NewReleaseManager.checkSeriesForNewReleases ts)).
    { apply CheckFacts.checkSeriesForNewReleases_kept;
        first [ exact ManagerFacts.recorded_with_identifier_refl
              | exact ManagerFacts.recorded_with_identifier_trans
              | exact ManagerFacts.same_releases_recorded_with_identifier
              | exact ManagerFacts.create_release_identifier ]. }
    destruct (RunFacts.keeps_runs _ ManagerFacts.recorded_with_identifier_refl _ w C)
      as (created & w' & E & K).
    exists created, w'. auto.
Qed.

Lemma entries_without_identifier_are_excluded_witness :
  Js.truthy_opt (SeriesFinder.asin (Examples.entry "" "Untitled")) = false
  /\ ~ In (Examples.entry "" "Untitled")
         (SeriesFinder.newBooks
            [Examples.entry "B000000002" "Book Two"; Examples.entry "" "Untitled"] [] []).
Proof.
  split; [reflexivity|].
  apply (proj1 (@entries_without_identifier_are_excluded Js.ascii_casing specValidASIN)). reflexivity.
Defined.

(** ** Following a series *)

Module FollowFacts.
Import SeriesTrackingController RunFacts.

Section WithCasing.
Context {casing : Js.Casing}.

Section WithValidator.
Context {validator : AsinValidator}.

Lemma quiet_follow_region body_region libraryBooks :
  quiet (follow_region body_region libraryBooks).
Proof.
  unfold follow_region. destruct libraryBooks as [|book rest]; [apply quiet_ret|].
  destruct (book_libraryId book) as [lid|]; [|apply quiet_ret].
  apply quiet_bind.
  - unfold library_findByPk. apply quiet_bind; [apply quiet_get_db|].
    intros d. apply quiet_ret.
  - intros [l|]; [|apply quiet_ret].
    destruct (library_provider l) as [p|]; [|apply quiet_ret].
    destruct (Js.truthy p); [|apply quiet_ret].
    destruct (provider_region p); apply quiet_ret.
Qed.

Lemma quiet_follow_seriesAsin libraryBooks region :
  quiet (follow_seriesAsin libraryBooks region).
Proof.
  induction libraryBooks as [|book rest IH]; simpl; [apply quiet_ret|].
  destruct (Js.truthy_opt (book_asin book)); [|exact IH].
  apply quiet_bind; [apply quiet_findSeriesAsinFromBook|].
  intros [i|]; [apply quiet_ret | exact IH].
Qed.

Lemma find_none_existsb {A} (p : A -> bool) l : find p l = None -> existsb p l = false.
Proof.
  induction l as [|x r IH]; simpl; [reflexivity|].
  destruct (p x); [discriminate | exact IH].
Qed.

Lemma find_app_new {A} (p : A -> bool) l x :
  find p l = None -> p x = true -> find p (l ++ [x]) = Some x.
Proof.
  induction l as [|y r IH]; simpl; intros F P.
  - now rewrite P.
  - destruct (p y); [discriminate | now apply IH].
Qed.

Lemma matches_identity u s r r' :
  identity r' = identity r ->
  TrackedSeriesModel.matches u s r' = TrackedSeriesModel.matches u s r.
Proof.
  unfold identity, TrackedSeriesModel.matches. intros E. injection E as _ -> ->. reflexivity.
Qed.

Lemma find_identity u s t1 : forall t2 r,
  map identity t2 = map identity t1 ->
  find (TrackedSeriesModel.matches u s) t1 = Some r ->
  exists r', find (TrackedSeriesModel.matches u s) t2 = Some r'
             /\ identity r' = identity r /\ In r' t2.
Proof.
  induction t1 as [|x t1 IH]; intros [|y t2] r E F; try discriminate.
  cbn [map] in E.
  assert (Ey : identity y = identity x) by congruence.
  assert (Et : map identity t2 = map identity t1) by congruence.
  cbn [find] in *. rewrite (matches_identity u s x y Ey).
  destruct (TrackedSeriesModel.matches u s x).
  - injection F as <-. exists y. split; [reflexivity|]. split; [exact Ey | now left].
  - destruct (IH t2 r Et F) as (r' & F' & I & N). exists r'.
    split; [exact F'|]. split; [exact I | now right].
Qed.

(** A call of [followSeries] that answers a tracked series leaves the
    series in the database and that row as the first of its user and
    series. *)
Lemma followSeries_establishes seriesId userId body_region w followed w1 row :
  followSeries seriesId userId body_region w = (Ok followed, w1) ->
  response followed = Json row ->
  find (TrackedSeriesModel.matches userId seriesId) (trackedSeriesTable (db w1)) = Some row
  /\ series_by_pk (db w1) seriesId <> None.
Proof.
  unfold followSeries. intros H J.
  assert (E1 : series_findByPk seriesId w = (Ok (series_by_pk (db w) seriesId), w))
    by reflexivity.
  rewrite (AudibleFacts.bind_run _ _ _ _ _ E1) in H.
  destruct (series_by_pk (db w) seriesId) as [series|] eqn:S.
  2:{ cbv [bind Logger ret] in H. injection H as <- <-. discriminate J. }
  assert (E2 : TrackedSeriesModel.getByUserAndSeries userId seriesId w
               = (Ok (option_map TrackedSeriesModel.plain
                        (find (TrackedSeriesModel.matches userId seriesId)
                           (trackedSeriesTable (db w)))), w)) by reflexivity.
  rewrite (AudibleFacts.bind_run _ _ _ _ _ E2) in H.
  destruct (find (TrackedSeriesModel.matches userId seriesId) (trackedSeriesTable (db w)))
    as [existing|] eqn:F; cbn [option_map] in H.
  - cbv [ret] in H. injection H as <- <-. simpl in J. injection J as <-.
    rewrite F, S. split; [reflexivity | discriminate].
  - assert (E3 : getBooksExpandedWithLibraryItem series w = (Ok (series_books (db w) series), w))
      by reflexivity.
    rewrite (AudibleFacts.bind_run _ _ _ _ _ E3) in H.
    destruct (quiet_runs _ w (quiet_follow_region body_region (series_books (db w) series)))
      as (region & wa & Ea & Qa).
    rewrite (AudibleFacts.bind_run _ _ _ _ _ Ea) in H.
    destruct (keeps_runs _ only_requests_refl _ wa
                (quiet_follow_seriesAsin (series_books (db w) series) region))
      as (seriesAsin & wb & Eb & Qb).
    rewrite (AudibleFacts.bind_run _ _ _ _ _ Eb) in H.
    pose proof (only_requests_trans _ _ _ Qa Qb) as (_ & D & _).
    unfold TrackedSeriesModel.createTrackedSeries, TrackedSeriesModel.getByUserAndSeries,
      TrackedSeriesModel.create in H.
    cbv [bind get_db ret now set_db throw Logger
         TrackedSeriesModel.cd_userId TrackedSeriesModel.cd_seriesId
         TrackedSeriesModel.cd_seriesAsin TrackedSeriesModel.cd_autoTracked
         TrackedSeriesModel.cd_region] in H.
    rewrite D, F in H. cbn [option_map] in H. cbv beta in H. rewrite ?D in H.
    rewrite (find_none_existsb _ _ F), andb_false_r in H.
    rewrite S in H.
    injection H as <- <-. simpl in J. injection J as <-. simpl.
    split.
    + apply find_app_new; [exact F|].
      unfold TrackedSeriesModel.matches. simpl. now rewrite !Nat.eqb_refl.
    + unfold series_by_pk in *. simpl. rewrite S. discriminate.
Qed.

End WithValidator.

End WithCasing.

End FollowFacts.

(** C3.  After a call of [followSeries] for a user and a series that
    answered a tracked series, a later call for the same user and series
    (in the same world, or in a later one that kept the series and the
    identity of the tracked rows) does not throw, answers the row that is
    there, with the id the first call answered, starts no check and
    leaves the world as it is: no second row is made. *)
Theorem follow_twice_same_tracked_series {casing : Js.Casing} {validator : AsinValidator}
  (seriesId userId : uuid) (region1 region2 : option string)
  (w w1 : World) (followed : SeriesTrackingController.Followed) (row : TrackedSeries) :
  SeriesTrackingController.followSeries seriesId userId region1 w = (Ok followed, w1) ->
  SeriesTrackingController.response followed = SeriesTrackingController.Json row ->
  forall w2, tracking_kept w1 w2 ->
  exists row',
    SeriesTrackingController.followSeries seriesId userId region2 w2
    = (Ok {| SeriesTrackingController.response := SeriesTrackingController.Json row';
             SeriesTrackingController.started_check := None |}, w2)
    /\ ts_id row' = ts_id row
    /\ ts_userId row' = userId /\ ts_seriesId row' = seriesId
    /\ In row' (trackedSeriesTable (db w2))
    /\ (w2 = w1 -> row' = row).
Proof.
  intros H J w2 [KS KT].
  destruct (FollowFacts.followSeries_establishes _ _ _ _ _ _ _ H J) as [F S].
  destruct (FollowFacts.find_identity userId seriesId _ _ _ KT F) as (row' & F' & I & N).
  exists row'.
  assert (M : TrackedSeriesModel.matches userId seriesId row' = true).
  { apply find_some in F'. tauto. }
  unfold TrackedSeriesModel.matches in M. apply andb_true_iff in M as [Mu Ms].
  apply Nat.eqb_eq in Mu, Ms.
  unfold identity in I. injection I as Ii _ _.
  repeat split; auto.
  - unfold SeriesTrackingController.followSeries, series_findByPk,
      TrackedSeriesModel.getByUserAndSeries.
    cbv [bind get_db ret]. unfold series_by_pk in *. rewrite KS.
    destruct (find (fun s => Nat.eqb (series_id s) seriesId) (seriesTable (db w1)));
      [|congruence].
    now rewrite F'.
  - intros ->. congruence.
Qed.

Lemma follow_twice_same_tracked_series_witness :
  exists followed w1 row',
    @SeriesTrackingController.followSeries Js.ascii_casing specValidASIN 1 8 None
      (Examples.world_of Examples.catalog_net Examples.library_db) = (Ok followed, w1)
    /\ SeriesTrackingController.response followed
       = SeriesTrackingController.Json
           {| ts_id := 100; ts_userId := 8; ts_seriesId := 1;
              ts_seriesAsin := None; ts_autoTracked := false; ts_region := Some "us";
              ts_lastChecked := None; ts_createdAt := 0; ts_updatedAt := 0 |}
    /\ tracking_kept w1 w1
    /\ @SeriesTrackingController.followSeries Js.ascii_casing specValidASIN 1 8 (Some "de") w1
       = (Ok {| SeriesTrackingController.response := SeriesTrackingController.Json row';
                SeriesTrackingController.started_check := None |}, w1)
    /\ ts_id row' = 100.
Proof.
  eexists _, _.
  assert (H : @SeriesTrackingController.followSeries Js.ascii_casing specValidASIN 1 8 None
                (Examples.world_of Examples.catalog_net Examples.library_db)
              = (Ok {| SeriesTrackingController.response :=
                         SeriesTrackingController.Json
                           {| ts_id := 100; ts_userId := 8; ts_seriesId := 1;
                              ts_seriesAsin := None; ts_autoTracked := false;
                              ts_region := Some "us"; ts_lastChecked := None;
                              ts_createdAt := 0; ts_updatedAt := 0 |};
                       SeriesTrackingController.started_check := None |},
                 snd (@SeriesTrackingController.followSeries Js.ascii_casing specValidASIN 1 8 None
                        (Examples.world_of Examples.catalog_net Examples.library_db)))).
  { vm_compute. reflexivity. }
  destruct (@follow_twice_same_tracked_series Js.ascii_casing specValidASIN 1 8 None (Some "de")
              _ _ _ _ H eq_refl _ (conj eq_refl eq_refl)) as (row' & E & I & _).
  exists row'. split; [exact H|]. split; [reflexivity|]. split; [split; reflexivity|].
  split; [exact E | exact I].
Defined.

(** ** Ordered queries *)

Module SqlFacts.
Import Sql.

Section Sorting.
Context {A : Type}.
Variable le : A -> A -> bool.
Hypothesis le_total : forall a b, le a b = true \/ le b a = true.
Hypothesis le_trans : forall a b c, le a b = true -> le b c = true -> le a c = true.

Lemma insert_by_perm x l : Permutation (insert_by le x l) (x :: l).
Proof.
  induction l as [|y r IH]; simpl; [reflexivity|].
  destruct (le x y); [reflexivity|].
  apply perm_trans with (y :: x :: r); [now apply perm_skip | apply perm_swap].
Qed.

Lemma order_by_perm l : Permutation (order_by le l) l.
Proof.
  induction l as [|x r IH]; simpl; [reflexivity|].
  apply perm_trans with (x :: order_by le r); [apply insert_by_perm | now apply perm_skip].
Qed.

Lemma insert_by_sorted x l : StronglySorted (holds le) l -> StronglySorted (holds le) (insert_by le x l).
Proof.
  induction 1 as [|y r S IH F]; simpl.
  - repeat constructor.
  - destruct (le x y) eqn:E.
    + constructor; [now constructor|]. constructor; [exact E|].
      apply Forall_forall. intros z I. rewrite Forall_forall in F.
      exact (le_trans _ _ _ E (F z I)).
    + constructor; [exact IH|].
      apply Forall_forall. intros z I.
      apply (Permutation_in _ (insert_by_perm x r)) in I as [<-|I].
      * destruct (le_total x y) as [T|T]; [congruence | exact T].
      * rewrite Forall_forall in F. now apply F.
Qed.

Lemma order_by_sorted l : StronglySorted (holds le) (order_by le l).
Proof.
  induction l as [|x r IH]; simpl; [constructor | now apply insert_by_sorted].
Qed.

Lemma sorted_firstn n l : StronglySorted (holds le) l -> StronglySorted (holds le) (firstn n l).
Proof.
  intros S. revert n. induction S as [|y r S IH F]; intros [|n]; simpl; try constructor.
  - apply IH.
  - apply Forall_forall. intros z I. rewrite Forall_forall in F.
    apply F. rewrite <- (firstn_skipn n r). apply in_or_app. now left.
Qed.


End Sorting.







End SqlFacts.

Module DueFacts.

Lemma StronglySorted_impl {A} (R R' : A -> A -> Prop) l :
  (forall a b, R a b -> R' a b) -> StronglySorted R l -> StronglySorted R' l.
Proof.
  intros I. induction 1 as [|x r S IH F]; constructor; [exact IH|].
  eapply Forall_impl; [|exact F]. intros b. apply I.
Qed.



End DueFacts.



(** ** The scheduled sweep *)

Module SweepFacts.
Import NewReleaseManager.

(** No sweep and the guard released, or one sweep and the guard held. *)
Lemma reachable_single s :
  reachable s ->
  (sweeps s = [] /\ isRunning (manager s) = false)
  \/ (exists k, sweeps s = [k] /\ isRunning (manager s) = true).
Proof.
  assert (One : forall (before after : list Suspended) k k',
             (before ++ k :: after)%list = [k'] -> before = [] /\ after = []).
  { intros [|b [|b' before]] after k k' E; simpl in E.
    - injection E as _ E. auto.
    - injection E as _ E. discriminate E.
    - injection E as _ E. discriminate E. }
  assert (Next : forall rest m,
             isRunning m = true ->
             let r := next_series rest m in
             (snd r = None /\ isRunning (fst r) = false)
             \/ (exists k, snd r = Some k /\ isRunning (fst r) = true)).
  { intros [|ts rest] m R; simpl; [left | right; eexists]; split;
      solve [reflexivity | assumption]. }
  induction 1 as [|s s' _ IH St].
  - left. auto.
  - destruct St as [now s | m before thr lim after due | m before ts rest after
                   | m before ms rest after | m before k after error].
    + unfold trigger, runScheduledCheck.
      destruct IH as [[E R]|(k & E & R)]; rewrite R; simpl; rewrite E.
      * right. eexists. split; reflexivity.
      * right. exists k. split; [reflexivity | exact R].
    + destruct IH as [[E _]|(k & E & R)]; simpl in *.
      * destruct before; discriminate E.
      * destruct (One _ _ _ _ E) as [-> ->].
        unfold after_due.
        destruct (Next due (say (FoundSeriesDue (List.length due)) m) R)
          as [[N F]|(k' & N & F)]; unfold resumed; rewrite N; simpl;
          [left | right; exists k']; split; solve [reflexivity | assumption].
    + destruct IH as [[E _]|(k & E & R)]; simpl in *.
      * destruct before; discriminate E.
      * destruct (One _ _ _ _ E) as [-> ->]. right. eexists.
        split; [reflexivity | exact R].
    + destruct IH as [[E _]|(k & E & R)]; simpl in *.
      * destruct before; discriminate E.
      * destruct (One _ _ _ _ E) as [-> ->].
        unfold after_delay.
        destruct (Next rest m R) as [[N F]|(k' & N & F)];
          unfold resumed; rewrite N; simpl;
          [left | right; exists k']; split; solve [reflexivity | assumption].
    + destruct IH as [[E _]|(k' & E & R)]; simpl in *.
      * destruct before; discriminate E.
      * destruct (One _ _ _ _ E) as [-> ->]. left. split; reflexivity.
Qed.

(** A step that ends a sweep releases the guard. *)
Lemma step_end_releases s s' :
  step s s' -> List.length (sweeps s') < List.length (sweeps s) ->
  isRunning (manager s') = false.
Proof.
  assert (Next : forall rest m before after,
             List.length (sweeps (resumed before after (next_series rest m)))
             < List.length (before ++ AwaitDelay 0 rest :: after) ->
             isRunning (manager (resumed before after (next_series rest m))) = false).
  { intros [|ts rest] m before after; simpl; [reflexivity|].
    rewrite !length_app. simpl. lia. }
  intros St. destruct St as [now s | m before thr lim after due | m before ts rest after
                            | m before ms rest after | m before k after error]; simpl.
  - unfold trigger, runScheduledCheck. destruct (isRunning (manager s)); simpl;
      rewrite ?length_app; simpl; lia.
  - unfold after_due. intros L. apply (Next due _ before after).
    rewrite !length_app in *. simpl in *. exact L.
  - rewrite !length_app. simpl. lia.
  - unfold after_delay. intros L. apply (Next rest _ before after).
    rewrite !length_app in *. simpl in *. exact L.
  - reflexivity.
Qed.

End SweepFacts.

(** C8.  In every state the scheduler can reach, at most one sweep is
    under way, and the guard [isRunning] is held exactly when one is.
    While it is held, a call of [runScheduledCheck] returns at once: no
    sweep starts, the guard and the sweep under way are as they were, and
    the log gains the warning "Check already running, skipping" and
    nothing else (no second "Starting" line).  Every step that ends a
    sweep releases the guard: the normal end, after the last series or
    with no series due, and the rejection of any awaited promise.  Once
    the guard is released, a call starts a sweep. *)
Theorem scheduled_check_is_single_flight (s : NewReleaseManager.Scheduler) :
  NewReleaseManager.reachable s ->
  List.length (NewReleaseManager.sweeps s) <= 1
  /\ (NewReleaseManager.isRunning (NewReleaseManager.manager s) = true
      <-> NewReleaseManager.sweeps s <> [])
  /\ (NewReleaseManager.isRunning (NewReleaseManager.manager s) = true ->
      forall now,
        NewReleaseManager.runScheduledCheck now (NewReleaseManager.manager s)
        = ({| NewReleaseManager.isRunning := true;
              NewReleaseManager.log :=
                (NewReleaseManager.log (NewReleaseManager.manager s)
                 ++ [CheckAlreadyRunning])%list |}, None)
        /\ NewReleaseManager.sweeps (NewReleaseManager.trigger now s)
           = NewReleaseManager.sweeps s)
  /\ (forall s',
        NewReleaseManager.step s s' ->
        List.length (NewReleaseManager.sweeps s') < List.length (NewReleaseManager.sweeps s) ->
        NewReleaseManager.isRunning (NewReleaseManager.manager s') = false
        /\ NewReleaseManager.sweeps s' = [])
  /\ (forall m error,
        NewReleaseManager.isRunning (fst (NewReleaseManager.on_rejected error m)) = false
        /\ snd (NewReleaseManager.on_rejected error m) = None)
  /\ (forall m,
        NewReleaseManager.isRunning (fst (NewReleaseManager.after_delay [] m)) = false
        /\ snd (NewReleaseManager.after_delay [] m) = None
        /\ NewReleaseManager.isRunning (fst (NewReleaseManager.after_due [] m)) = false
        /\ snd (NewReleaseManager.after_due [] m) = None)
  /\ (NewReleaseManager.isRunning (NewReleaseManager.manager s) = false ->
      forall now,
        NewReleaseManager.trigger now s
        = {| NewReleaseManager.manager :=
               {| NewReleaseManager.isRunning := true;
                  NewReleaseManager.log :=
                    (NewReleaseManager.log (NewReleaseManager.manager s)
                     ++ [StartingScheduledCheck])%list |};
             NewReleaseManager.sweeps :=
               [NewReleaseManager.AwaitDue (NewReleaseManager.checkThreshold now) 100] |}).
Proof.
  intros Re.
  pose proof (SweepFacts.reachable_single s Re) as Single.
  split; [|split; [|split; [|split; [|split; [|split]]]]].
  - destruct Single as [[E _]|(k & E & _)]; rewrite E; simpl; lia.
  - destruct Single as [[E R]|(k & E & R)]; rewrite E, R; split; congruence.
  - intros R now. unfold NewReleaseManager.trigger, NewReleaseManager.runScheduledCheck.
    rewrite R. simpl. split; [|apply app_nil_r].
    unfold NewReleaseManager.say. now rewrite R.
  - intros s' St L. split; [exact (SweepFacts.step_end_releases s s' St L)|].
    destruct Single as [[E _]|(k & E & _)]; rewrite E in L; simpl in L; [lia|].
    destruct (NewReleaseManager.sweeps s'); [reflexivity | simpl in L; lia].
  - intros m error. split; reflexivity.
  - intros m. repeat split; reflexivity.
  - intros R now. unfold NewReleaseManager.trigger, NewReleaseManager.runScheduledCheck.
    rewrite R. destruct Single as [[E _]|(k & E & R')]; [|congruence].
    unfold NewReleaseManager.resumed. simpl. now rewrite E.
Qed.

Lemma scheduled_check_is_single_flight_witness :
  NewReleaseManager.reachable
    (NewReleaseManager.trigger 200000000 NewReleaseManager.initial)
  /\ NewReleaseManager.trigger 5
       (NewReleaseManager.trigger 200000000 NewReleaseManager.initial)
     = {| NewReleaseManager.manager :=
            {| NewReleaseManager.isRunning := true;
               NewReleaseManager.log := [StartingScheduledCheck; CheckAlreadyRunning] |};
          NewReleaseManager.sweeps := [NewReleaseManager.AwaitDue 113600000 100] |}
  /\ List.length
       (NewReleaseManager.sweeps
          (NewReleaseManager.trigger 200000000 NewReleaseManager.initial)) <= 1.
Proof.
  assert (Re : NewReleaseManager.reachable
                 (NewReleaseManager.trigger 200000000 NewReleaseManager.initial)).
  { eapply NewReleaseManager.reachable_step;
      [apply NewReleaseManager.reachable_initial | apply NewReleaseManager.step_trigger]. }
  split; [exact Re|]. split; [reflexivity|].
  exact (proj1 (scheduled_check_is_single_flight _ Re)).
Defined.

(** ** Listing the releases of a tracked series *)

Module ListingFacts.

Lemma asc_nulls_last_total a b :
  Sql.asc_nulls_last a b = true \/ Sql.asc_nulls_last b a = true.
Proof.
  destruct a as [x|], b as [y|]; simpl; auto.
  rewrite !Qle_bool_iff.
  destruct (Qlt_le_dec x y) as [L|L]; [left; now apply Qlt_le_weak | now right].
Qed.

Lemma asc_nulls_last_trans a b c :
  Sql.asc_nulls_last a b = true -> Sql.asc_nulls_last b c = true ->
  Sql.asc_nulls_last a c = true.
Proof.
  destruct a as [x|], b as [y|], c as [z|]; simpl; try congruence.
  rewrite !Qle_bool_iff. apply Qle_trans.
Qed.

Lemma asc_nulls_last_stated {engine : SqlEngine} a b :
  Sql.asc_nulls_last (NewReleaseModel.sequence_key a) (NewReleaseModel.sequence_key b) = true
  <-> Stated.marker_no_later a b.
Proof.
  unfold Stated.marker_no_later.
  destruct (NewReleaseModel.sequence_key a) as [x|],
           (NewReleaseModel.sequence_key b) as [y|]; simpl;
    rewrite ?Qle_bool_iff; intuition congruence.
Qed.

Lemma StronglySorted_after {A} (R : A -> A -> Prop) pre a post b :
  StronglySorted R (pre ++ a :: post) -> In b post -> R a b.
Proof.
  induction pre as [|x pre IH]; simpl; intros S I.
  - inversion S as [|? ? _ F]; subst. rewrite Forall_forall in F. now apply F.
  - inversion S as [|? ? S' _]; subst. now apply IH.
Qed.

(** SQLite casts a text that starts with a letter to 0. *)
Lemma text_to_real_letter c r :
  Js.is_upper c || Js.is_lower c = true -> Sqlite.text_to_real (String c r) = 0%Q.
Proof.
  destruct c as [[] [] [] [] [] [] [] []]; intros H;
    first [discriminate H | reflexivity].
Qed.

End ListingFacts.

(** C9, as the code has it.  Whatever the engine's cast of a text to a
    real, the releases listed for a tracked series are the rows of the
    tracked series (the dismissed ones only on demand), in ascending
    order of the cast of their sequence marker, and a row without a
    marker is listed after every row that has one: no row that has a
    marker follows a row that has none.  A marker that is not a number is
    a marker: it is ordered by its cast, which in SQLite is 0 for a text
    that starts with a letter. *)
Theorem releases_listed_by_cast_of_sequence {engine : SqlEngine}
  (trackedSeriesId : uuid) (includeDismissed : bool) (table : list NewRelease) :
  let listed := NewReleaseModel.forTrackedSeries trackedSeriesId includeDismissed table in
  Permutation listed
    (filter (fun r => Nat.eqb (nr_trackedSeriesId r) trackedSeriesId
                      && (includeDismissed || negb (nr_dismissed r))) table)
  /\ StronglySorted Stated.marker_no_later listed
  /\ (forall pre a post b,
        listed = (pre ++ a :: post)%list -> In b post ->
        nr_sequence a = None -> nr_sequence b = None)
  /\ (forall w,
        NewReleaseModel.getForTrackedSeries trackedSeriesId None w
        = (Ok (NewReleaseModel.forTrackedSeries trackedSeriesId false
                 (newReleaseTable (db w))), w))
  /\ (forall c r, Js.is_upper c || Js.is_lower c = true ->
                  Sqlite.text_to_real (String c r) = 0%Q).
Proof.
  intros listed.
  set (le := fun a b => Sql.asc_nulls_last (NewReleaseModel.sequence_key a)
                          (NewReleaseModel.sequence_key b)).
  assert (S : StronglySorted Stated.marker_no_later listed).
  { apply (DueFacts.StronglySorted_impl (Sql.holds le)).
    - intros a b. apply ListingFacts.asc_nulls_last_stated.
    - apply SqlFacts.order_by_sorted.
      + intros a b. apply ListingFacts.asc_nulls_last_total.
      + intros a b c. apply ListingFacts.asc_nulls_last_trans. }
  split; [apply SqlFacts.order_by_perm|].
  split; [exact S|].
  split.
  { intros pre a post b E I N. rewrite E in S.
    pose proof (ListingFacts.StronglySorted_after _ _ _ _ _ S I) as C.
    unfold Stated.marker_no_later, NewReleaseModel.sequence_key in C.
    rewrite N in C. simpl in C.
    destruct (nr_sequence b); [contradiction | reflexivity]. }
  split; [reflexivity|].
  exact ListingFacts.text_to_real_letter.
Qed.

Lemma releases_listed_by_cast_of_sequence_witness :
  Js.is_upper "P" || Js.is_lower "P" = true
  /\ Sqlite.text_to_real "Prequel" = 0%Q
  /\ StronglySorted (@Stated.marker_no_later Sqlite.engine)
       (@NewReleaseModel.forTrackedSeries Sqlite.engine 10 false Examples.listed_table).
Proof.
  split; [reflexivity|].
  split.
  - apply (proj2 (proj2 (proj2 (proj2
             (@releases_listed_by_cast_of_sequence Sqlite.engine 10 false
                Examples.listed_table))))).
    reflexivity.
  - apply (proj1 (proj2 (@releases_listed_by_cast_of_sequence Sqlite.engine 10 false
                           Examples.listed_table))).
Defined.

(** C9, as the specification states it, fails on a marker that is not a number:
    the marker ["Prequel"] is cast to 0, and its release is listed before
    the release whose marker is ["1"], not after it. *)
Lemma non_numeric_marker_is_listed_first :
  Stated.numeric_marker (Some "1") = true
  /\ Stated.numeric_marker (Some "Prequel") = false
  /\ @NewReleaseModel.forTrackedSeries Sqlite.engine 10 false Examples.listed_table
     = [Examples.release_row 22 "B000000000" "The Prequel" (Some "Prequel");
        Examples.release_row 21 "B000000001" "Book One" (Some "1")].
Proof. repeat split; vm_compute; reflexivity. Qed.

(* ================================================================== *)
(** * Further properties of the code *)
(* ================================================================== *)

(** ** The provider's URLs and results *)

Module ProviderFacts.
Import Audible.

Lemma nat_of_ascii_bound c : nat_of_ascii c < 256.
Proof.
  destruct c as [[] [] [] [] [] [] [] []]; vm_compute;
    repeat (apply le_n || apply le_S).
Qed.

Lemma hex_digit_unreserved k : k < 16 -> uri_unreserved (hex_digit k) = true.
Proof.
  intros H. do 16 (destruct k as [|k]; [reflexivity|]). lia.
Qed.

Lemma encode_safe s : Js.all_chars uri_safe (encodeURIComponent s) = true.
Proof.
  induction s as [|c r IH]; [reflexivity|]. cbn [encodeURIComponent].
  destruct (uri_unreserved c) eqn:U.
  - cbn [Js.all_chars]. unfold uri_safe at 1. now rewrite U, IH.
  - pose proof (nat_of_ascii_bound c) as B. cbv zeta.
    cbn [Js.all_chars]. rewrite IH.
    assert (H1 : nat_of_ascii c / 16 < 16) by (apply Nat.Div0.div_lt_upper_bound; lia).
    assert (H2 : nat_of_ascii c mod 16 < 16) by (apply Nat.mod_upper_bound; lia).
    unfold uri_safe. rewrite (hex_digit_unreserved _ H1), (hex_digit_unreserved _ H2).
    reflexivity.
Qed.

Lemma encode_unreserved s :
  Js.all_chars uri_unreserved s = true -> encodeURIComponent s = s.
Proof.
  induction s as [|c r IH]; simpl; [reflexivity|].
  intros H. apply andb_true_iff in H as [Hc Hr]. now rewrite Hc, (IH Hr).
Qed.

Lemma all_chars_none p q s :
  Js.all_chars p s = true -> (forall c, p c = true -> q c = false) ->
  Js.any_char q s = false.
Proof.
  induction s as [|c r IH]; simpl; [reflexivity|].
  intros H I. apply andb_true_iff in H as [Hc Hr]. now rewrite (I c Hc), (IH Hr I).
Qed.

Lemma assoc_In k m v : assoc k m = Some v -> In v (map snd m).
Proof.
  induction m as [|[k' v'] r IH]; simpl; [discriminate|].
  destruct (String.eqb k k'); [intros E; injection E as ->; now left | auto].
Qed.

Lemma assoc_key k m v : assoc k m = Some v -> In k (map fst m).
Proof.
  induction m as [|[k' v'] r IH]; simpl; [discriminate|].
  destruct (String.eqb_spec k k') as [->|_]; [now left | auto].
Qed.

Lemma hex_value_digit k : k < 16 -> Uri.hex_value (hex_digit k) = Some k.
Proof.
  intros H. do 16 (destruct k as [|k]; [reflexivity|]). lia.
Qed.

(** What was escaped reads back. *)
Lemma encode_length s :
  String.length (encodeURIComponent s) = String.length s + 2 * Uri.escaped s.
Proof.
  induction s as [|c r IH]; [reflexivity|]. cbn [encodeURIComponent Uri.escaped].
  destruct (uri_unreserved c); cbn [String.length]; rewrite IH; lia.
Qed.

Lemma decode_encode s : Uri.decode (encodeURIComponent s) = s.
Proof.
  induction s as [|c r IH]; [reflexivity|]. cbn [encodeURIComponent].
  destruct (uri_unreserved c) eqn:U.
  - assert (P : Ascii.eqb c "%" = false).
    { destruct (Ascii.eqb_spec c "%") as [->|]; [discriminate U | reflexivity]. }
    cbn [Uri.decode]. rewrite P, IH.
    destruct (encodeURIComponent r) as [|h [|l r2]]; reflexivity.
  - pose proof (nat_of_ascii_bound c) as B. cbv zeta.
    assert (H1 : nat_of_ascii c / 16 < 16) by (apply Nat.Div0.div_lt_upper_bound; lia).
    assert (H2 : nat_of_ascii c mod 16 < 16) by (apply Nat.mod_upper_bound; lia).
    cbn [Uri.decode]. rewrite Ascii.eqb_refl.
    rewrite (hex_value_digit _ H1), (hex_value_digit _ H2), IH.
    rewrite <- (Nat.div_mod_eq (nat_of_ascii c) 16), ascii_nat_embedding. reflexivity.
Qed.

End ProviderFacts.

(** X1.  The URL that [asinSearch] asks is
    [https://api.audnex.us/books/], a path and the query of the region,
    where the path is the identifier in upper case, percent-encoded: it
    holds only letters, digits, the marks [-_.!~*'()] and the percent
    sign of an escape (so no slash, question mark, hash, ampersand,
    equals sign or blank), it reads back as the identifier in upper case,
    it is longer than that identifier by two bytes for each byte that
    needs an escape and by no more, and so is that identifier itself
    when nothing needs an escape.  A
    lookup of an identifier that is not empty asks this URL and no
    other. *)
Theorem identifier_is_escaped_in_url {casing : Js.Casing}
  (s : string) (region : option string) :
  exists path,
    Audible.asin_url s region
    = "https://api.audnex.us/books/" ++ path ++ Uri.region_query region
    /\ Js.all_chars uri_safe path = true
    /\ (forall c, In c ["/"; "?"; "#"; "&"; "="; " "]%char ->
                  Js.any_char (Ascii.eqb c) path = false)
    /\ Uri.decode path = Js.toUpperCase s
    /\ String.length path
       = String.length (Js.toUpperCase s) + 2 * Uri.escaped (Js.toUpperCase s)
    /\ (Js.all_chars Audible.uri_unreserved (Js.toUpperCase s) = true ->
        path = Js.toUpperCase s)
    /\ (Js.truthy s = true ->
        forall w, exists res,
          Audible.asinSearch (Some s) region w
          = (Ok res,
             with_request ("https://api.audnex.us/books/" ++ path ++ Uri.region_query region)
               w)).
Proof.
  exists (Audible.encodeURIComponent (Js.toUpperCase s)).
  split; [reflexivity|]. split; [apply ProviderFacts.encode_safe|].
  split; [|split; [|split; [|split]]].
  - intros c I. apply (ProviderFacts.all_chars_none uri_safe);
      [apply ProviderFacts.encode_safe|].
    intros d S. apply Ascii.eqb_neq. intros <-.
    simpl in I. repeat (destruct I as [<-|I]; [discriminate S|]). contradiction.
  - apply ProviderFacts.decode_encode.
  - apply ProviderFacts.encode_length.
  - apply ProviderFacts.encode_unreserved.
  - intros T w. destruct (AudibleFacts.asinSearch_run (Some s) region w) as [res E].
    exists res. rewrite E. cbn [Js.truthy_opt Js.or_else]. now rewrite T.
Qed.

Lemma identifier_is_escaped_in_url_witness :
  Js.all_chars Audible.uri_unreserved (Js.toUpperCase "b08g9prs1k") = true
  /\ Audible.asin_url "b08g9prs1k" (Some "de")
     = "https://api.audnex.us/books/B08G9PRS1K?region=de".
Proof.
  split; [reflexivity|].
  destruct (@identifier_is_escaped_in_url Js.ascii_casing "b08g9prs1k" (Some "de"))
    as (path & E & _ & _ & _ & _ & U & _).
  rewrite E, (U eq_refl). reflexivity.
Defined.

(** X2.  The region an operation of the provider goes on with, after an
    unknown region was replaced by ['us'], is not replaced again.  For a
    region that is not a name every object inherits, the domain suffix it
    leads to is one of the ten of the region map, and a region that was
    given (not empty) ends as a key of the map.  A region that is such a
    name, [constructor] for one, is found in the map all the same: it is
    kept, and the suffix put into the URL is the text of the inherited
    value, none of the ten. *)
Theorem region_defaults_to_a_known_domain (region : option string) :
  Audible.default_region (Audible.default_region region) = Audible.default_region region
  /\ (region = None -> Audible.tld_of (Audible.default_region region) = ".com")
  /\ (forall r,
        region = Some r -> Audible.assoc r Audible.inherited = None ->
        In (Audible.tld_of (Audible.default_region region)) (map snd Audible.regionMap)
        /\ (r <> "" ->
            exists key tld,
              Audible.default_region region = Some key
              /\ Audible.assoc key Audible.regionMap = Some tld
              /\ Audible.tld_of (Audible.default_region region) = tld))
  /\ (forall r text,
        region = Some r -> Audible.assoc r Audible.inherited = Some text ->
        Audible.default_region region = region
        /\ Audible.tld_of (Audible.default_region region) = text
        /\ ~ In text (map snd Audible.regionMap)).
Proof.
  assert (Own : forall r v, Audible.assoc r Audible.regionMap = Some v ->
                            In v (map snd Audible.regionMap) /\ Js.truthy v = true).
  { intros r v E. pose proof (ProviderFacts.assoc_In _ _ _ E) as I. split; [exact I|].
    simpl in I. repeat (destruct I as [<-|I]; [reflexivity|]). contradiction. }
  assert (Inh : forall r v, Audible.assoc r Audible.inherited = Some v ->
                            Audible.assoc r Audible.regionMap = None
                            /\ Js.truthy v = true
                            /\ ~ In v (map snd Audible.regionMap)).
  { intros r v E. pose proof (ProviderFacts.assoc_key _ _ _ E) as K.
    pose proof (ProviderFacts.assoc_In _ _ _ E) as I.
    split.
    - simpl in K. repeat (destruct K as [<-|K]; [reflexivity|]). contradiction.
    - simpl in I.
      repeat (destruct I as [<-|I];
              [split; [reflexivity|];
               intros J; simpl in J;
               repeat (destruct J as [J|J]; [discriminate J|]); contradiction|]).
      contradiction. }
  destruct region as [r|].
  2:{ split; [reflexivity|]. split; [reflexivity|]. split; discriminate. }
  destruct (Audible.assoc r Audible.inherited) as [text|] eqn:I.
  - destruct (Inh r text I) as (O & T & N).
    assert (G : Audible.regionMap_get (Some r) = Some text).
    { cbn [Audible.regionMap_get]. now rewrite O, I. }
    assert (D : Audible.default_region (Some r) = Some r).
    { unfold Audible.default_region. rewrite G. cbn [Js.truthy_opt]. rewrite T.
      cbn [negb]. now rewrite andb_false_r. }
    rewrite !D. split; [reflexivity|]. split; [discriminate|]. split.
    + intros r' E. injection E as <-. congruence.
    + intros r' text' E I'. injection E as <-. rewrite I in I'. injection I' as <-.
      split; [reflexivity|]. split; [|exact N].
      unfold Audible.tld_of. rewrite G. cbn [Js.or_else]. now rewrite T.
  - destruct (Audible.assoc r Audible.regionMap) as [v|] eqn:O.
    + destruct (Own r v O) as [Iv T].
      assert (G : Audible.regionMap_get (Some r) = Some v).
      { cbn [Audible.regionMap_get]. now rewrite O. }
      assert (D : Audible.default_region (Some r) = Some r).
      { unfold Audible.default_region. rewrite G. cbn [Js.truthy_opt]. rewrite T.
        cbn [negb]. now rewrite andb_false_r. }
      assert (Tl : Audible.tld_of (Some r) = v).
      { unfold Audible.tld_of. rewrite G. cbn [Js.or_else]. now rewrite T. }
      rewrite !D, Tl. split; [reflexivity|]. split; [discriminate|]. split.
      * intros r' E _. injection E as <-. split; [exact Iv|].
        intros _. exists r, v. auto.
      * intros r' text' E I'. injection E as <-. congruence.
    + assert (G : Audible.regionMap_get (Some r) = None).
      { cbn [Audible.regionMap_get]. now rewrite O, I. }
      destruct r as [|c r].
      * assert (D : Audible.default_region (Some "") = Some "") by reflexivity.
        rewrite !D. split; [reflexivity|]. split; [discriminate|]. split.
        -- intros r' E _. injection E as <-. split; [now left|]. intros N. now elim N.
        -- intros r' text' E I'. injection E as <-. discriminate I'.
      * assert (D : Audible.default_region (Some (String c r)) = Some "us").
        { unfold Audible.default_region. now rewrite G. }
        rewrite !D. split; [reflexivity|]. split; [discriminate|]. split.
        -- intros r' E _. injection E as <-. split; [now left|].
           intros _. exists "us", ".com". auto.
        -- intros r' text' E I'. injection E as <-. congruence.
Qed.

Lemma region_defaults_to_a_known_domain_witness :
  (exists key tld,
     Audible.default_region (Some "zz") = Some key
     /\ Audible.assoc key Audible.regionMap = Some tld
     /\ Audible.tld_of (Audible.default_region (Some "zz")) = tld)
  /\ Audible.sims_url "B000000001" (Some "constructor")
     = "https://api.audiblefunction Object() { [native code] }/1.0/catalog/products/B000000001/sims?similarity_type=InTheSameSeries&num_results=50".
Proof.
  split.
  - destruct (region_defaults_to_a_known_domain (Some "zz")) as (_ & _ & K & _).
    destruct (K "zz" eq_refl eq_refl) as [_ G]. apply G. discriminate.
  - destruct (region_defaults_to_a_known_domain (Some "constructor")) as (_ & _ & _ & Q).
    destruct (Q "constructor" _ eq_refl eq_refl) as (D & T & _).
    unfold Audible.sims_url. rewrite D in T. now rewrite T.
Defined.

(** ** What the finder lists *)

(** X3.  A lookup by identifier hands back a book only if the book
    carries its identifier, and what the finder lists for a series,
    whatever the network answers, never throws, changes nothing but the
    requests made, and is a list of entries that each carry a non-empty
    identifier and the provider tag ['audible']. *)
Theorem catalog_entries_carry_identifier {casing : Js.Casing} {validator : AsinValidator} :
  (forall asin region w b w',
      Audible.asinSearch asin region w = (Ok (Some b), w') ->
      Js.truthy_opt (ab_asin b) = true)
  /\ (forall seriesAsin region w,
        exists books w',
          SeriesFinder.getSeriesBooksByAsin seriesAsin region w = (Ok books, w')
          /\ only_requests w w'
          /\ Forall (fun entry => Js.truthy_opt (SeriesFinder.asin entry) = true
                                  /\ SeriesFinder.provider entry = "audible") books).
Proof.
  split.
  - intros asin region w b w' E.
    destruct (CatalogFacts.asinSearch_spec asin region w) as (res & w1 & E1 & _ & _ & I).
    rewrite E in E1. injection E1 as <- _. now apply I.
  - intros seriesAsin region w. unfold SeriesFinder.getSeriesBooksByAsin.
    destruct (Audible.invalid_asin seriesAsin).
    + exists [], w. split; [reflexivity|]. split; [apply RunFacts.only_requests_refl|].
      constructor.
    + destruct (CatalogFacts.getBooksBySeriesAsin_identified seriesAsin
                  (SeriesFinder.default_us region) w) as (books & w' & E & O & F).
      exists (map SeriesFinder.to_result books), w'.
      split; [now rewrite (AudibleFacts.bind_run _ _ _ _ _ E)|]. split; [exact O|].
      apply Forall_map. eapply Forall_impl; [|exact F]. intros book T. now split.
Qed.

Lemma catalog_entries_carry_identifier_witness :
  Audible.asinSearch (Some "B000000001") (Some "us")
    (Examples.world_of Examples.catalog_net Examples.library_db)
  = (Ok (Some (Examples.book_of "B000000001" "Book One")),
     with_request (Audible.asin_url "B000000001" (Some "us"))
       (Examples.world_of Examples.catalog_net Examples.library_db))
  /\ Js.truthy_opt (ab_asin (Examples.book_of "B000000001" "Book One")) = true.
Proof.
  assert (E : Audible.asinSearch (Some "B000000001") (Some "us")
                (Examples.world_of Examples.catalog_net Examples.library_db)
              = (Ok (Some (Examples.book_of "B000000001" "Book One")),
                 with_request (Audible.asin_url "B000000001" (Some "us"))
                   (Examples.world_of Examples.catalog_net Examples.library_db)))
    by reflexivity.
  split; [exact E|].
  exact (proj1 (@catalog_entries_carry_identifier Js.ascii_casing specValidASIN) _ _ _ _ _ E).
Defined.

(** ** Cleaned results *)

Module CleanFacts.
Import Audible.

Lemma first_match_number s m : SequenceRe.first_match s = Some m -> SequenceRe.is_number m = true.
Proof.
  induction s as [|c r IH]; cbn [SequenceRe.first_match].
  - destruct (SequenceRe.match_here "") as [[m' post]|] eqn:E; [|discriminate].
    intros H. injection H as <-. now destruct (SequenceFacts.match_here_spec _ _ _ E) as (_ & N & _).
  - destruct (SequenceRe.match_here (String c r)) as [[m' post]|] eqn:E; [|exact IH].
    intros H. injection H as <-. now destruct (SequenceFacts.match_here_spec _ _ _ E) as (_ & N & _).
Qed.

(** A cleaned sequence is empty, a number, or the text as it was, no
    digit in it. *)
Lemma cleanSeriesSequence_shape name sequence :
  cleanSeriesSequence name sequence = ""
  \/ SequenceRe.is_number (cleanSeriesSequence name sequence) = true
  \/ (SequenceRe.has_digit (cleanSeriesSequence name sequence) = false
      /\ sequence = Some (cleanSeriesSequence name sequence)).
Proof.
  unfold cleanSeriesSequence. destruct sequence as [[|c r]|]; [now left | | now left].
  cbn [Js.truthy negb]. right.
  destruct (SequenceRe.first_match (String c r)) as [m|] eqn:F.
  - left. exact (first_match_number _ _ F).
  - right. split; [|reflexivity].
    destruct (SequenceRe.has_digit (String c r)) eqn:H; [|reflexivity].
    destruct (SequenceFacts.first_match_digit _ H) as (? & ? & ? & _ & F' & _). congruence.
Qed.

Lemma before_dash_spec d :
  Js.any_char (Ascii.eqb "-") (Js.before_dash d) = false
  /\ exists rest, d = Js.before_dash d ++ rest.
Proof.
  induction d as [|c r [N (rest & E)]]; cbn [Js.before_dash].
  - split; [reflexivity | now exists ""].
  - destruct (Ascii.eqb c "-") eqn:C.
    + split; [reflexivity | now eexists].
    + cbn [Js.any_char String.append]. rewrite Ascii.eqb_sym, C, N.
      split; [reflexivity|]. exists rest. now rewrite <- E.
Qed.

End CleanFacts.

(** X4.  [cleanResult] keeps the identifier of the item; it lists the
    series of the item, the primary one first, one or two of them, or
    has [null] when the item has neither; the sequence of each listed
    series is empty, a number, or the provider's text with no digit in
    it; and the year it publishes is the start of the release date, up to
    its first dash. *)
Theorem cleanResult_normalizes (item : AudnexBook) :
  Audible.asin (Audible.cleanResult item) = ab_asin item
  /\ match Audible.series (Audible.cleanResult item) with
     | Some l =>
         l = (Audible.series_entry (ab_seriesPrimary item)
              ++ Audible.series_entry (ab_seriesSecondary item))%list
         /\ 1 <= List.length l <= 2
     | None => ab_seriesPrimary item = None /\ ab_seriesSecondary item = None
     end
  /\ (forall l e,
        Audible.series (Audible.cleanResult item) = Some l -> In e l ->
        Audible.se_sequence e = ""
        \/ SequenceRe.is_number (Audible.se_sequence e) = true
        \/ SequenceRe.has_digit (Audible.se_sequence e) = false)
  /\ (forall year,
        Audible.publishedYear (Audible.cleanResult item) = Some year ->
        Js.any_char (Ascii.eqb "-") year = false
        /\ exists releaseDate rest,
             ab_releaseDate item = Some releaseDate /\ releaseDate = year ++ rest).
Proof.
  assert (Sh : forall s e, In e (Audible.series_entry s) ->
               Audible.se_sequence e = ""
               \/ SequenceRe.is_number (Audible.se_sequence e) = true
               \/ SequenceRe.has_digit (Audible.se_sequence e) = false).
  { intros [s|] e I; simpl in I; [|contradiction]. destruct I as [<-|[]].
    cbn [Audible.se_sequence].
    destruct (CleanFacts.cleanSeriesSequence_shape (sref_name s)
                (Some (Js.or_else (sref_position s) ""))) as [H|[H|[H _]]]; auto. }
  split; [reflexivity|]. split; [|split].
  - unfold Audible.cleanResult. cbn [Audible.series].
    destruct (ab_seriesPrimary item) as [p|], (ab_seriesSecondary item) as [s|]; simpl;
      repeat split; lia.
  - intros l e E I. unfold Audible.cleanResult in E. cbn [Audible.series] in E.
    destruct (Audible.series_entry (ab_seriesPrimary item)
              ++ Audible.series_entry (ab_seriesSecondary item))%list eqn:L;
      [discriminate|].
    injection E as <-. rewrite <- L in I.
    apply in_app_or in I as [I|I]; eapply Sh; exact I.
  - intros year E. unfold Audible.cleanResult in E. cbn [Audible.publishedYear] in E.
    destruct (ab_releaseDate item) as [d|]; [|discriminate].
    destruct (Js.truthy d); [|discriminate]. injection E as <-.
    destruct (CleanFacts.before_dash_spec d) as [N (rest & R)].
    split; [exact N|]. exists d, rest. split; [reflexivity | exact R].
Qed.

Lemma cleanResult_normalizes_witness :
  Audible.publishedYear
    (Audible.cleanResult
       {| ab_asin := Some "B000000001"; ab_title := Some "Book One";
          ab_authors := Some ["A. Writer"; "B. Writer"]; ab_narrators := None;
          ab_image := None; ab_releaseDate := Some "2021-03-04";
          ab_seriesPrimary :=
            Some {| sref_asin := Some "B0SERIES01"; sref_name := Some "Saga";
                    sref_position := Some "Book 1.5" |};
          ab_seriesSecondary := None |})
  = Some "2021"
  /\ Js.any_char (Ascii.eqb "-") "2021" = false.
Proof.
  split; [reflexivity|].
  exact (proj1 (proj2 (proj2 (proj2
           (cleanResult_normalizes
              {| ab_asin := Some "B000000001"; ab_title := Some "Book One";
                 ab_authors := Some ["A. Writer"; "B. Writer"]; ab_narrators := None;
                 ab_image := None; ab_releaseDate := Some "2021-03-04";
                 ab_seriesPrimary :=
                   Some {| sref_asin := Some "B0SERIES01"; sref_name := Some "Saga";
                           sref_position := Some "Book 1.5" |};
                 ab_seriesSecondary := None |}))) "2021" eq_refl)).
Defined.

(** ** Finding the identifier of a series *)

Module FinderFacts.
Import Audible RunFacts CatalogFacts.

Section WithCasing.
Context {casing : Js.Casing}.

Lemma series_info_of_ref_truthy s i :
  series_info_of_ref s = Some i -> Js.truthy (si_asin i) = true.
Proof.
  unfold series_info_of_ref. destruct s as [s|]; [|discriminate].
  destruct (sref_asin s) as [a|]; [|discriminate].
  destruct (Js.truthy a) eqn:T; [|discriminate]. intros E. now injection E as <-.
Qed.

Lemma series_info_of_related_truthy r i :
  series_info_of_related r = Some i -> Js.truthy (si_asin i) = true.
Proof.
  unfold series_info_of_related. destruct r as [r|]; [|discriminate].
  destruct (rel_asin r) as [a|]; [|discriminate].
  destruct (Js.truthy a) eqn:T; [|discriminate]. intros E. now injection E as <-.
Qed.

Lemma extractSeriesInfo_truthy bookData i :
  extractSeriesInfo bookData = Some i -> Js.truthy (si_asin i) = true.
Proof.
  unfold extractSeriesInfo. destruct bookData as [b|]; [|discriminate].
  destruct (series_info_of_ref (ab_seriesPrimary b)) eqn:P.
  - intros E. injection E as <-. exact (series_info_of_ref_truthy _ _ P).
  - apply series_info_of_ref_truthy.
Qed.

Section WithValidator.
Context {validator : AsinValidator}.

Lemma getSeriesInfoFromAudible_spec asin region w :
  runs (getSeriesInfoFromAudible asin region) w
    (fun res w' =>
       asks_at_most 1 w w'
       /\ forall i, res = Some i -> Js.truthy (si_asin i) = true).
Proof.
  assert (Z : forall w1, asks_at_most 1 w w1 ->
              runs (ret (@None SeriesInfo)) w1
                (fun res w' =>
                   asks_at_most 1 w w'
                   /\ forall i, res = Some i -> Js.truthy (si_asin i) = true)).
  { intros w1 A. apply runs_ret. split; [exact A | discriminate]. }
  unfold getSeriesInfoFromAudible.
  destruct (invalid_asin asin); [apply Z, (asks_more 0); [lia | apply asks_zero]|].
  apply runs_bind. eexists _, _. split; [apply AudibleFacts.axios_get_run|].
  set (w1 := with_request _ w).
  assert (A : asks_at_most 1 w w1) by apply asks_one.
  destruct (network w _ _) as [data|]; [|exact (Z _ A)].
  destruct (series_info_of_related _) as [i|] eqn:S.
  - apply runs_ret. split; [exact A|]. intros i' E. injection E as <-.
    exact (series_info_of_related_truthy _ _ S).
  - destruct (data_product data) as [p|]; [|exact (Z _ A)].
    destruct (product_relationships p) as [rels|]; [|exact (Z _ A)].
    apply runs_ret. split; [exact A|]. intros i E.
    exact (series_info_of_related_truthy _ _ E).
Qed.

(** A series found from a book: never more than two requests, none for
    an identifier that is not valid, a second one only after a book that
    names no series, and a series only with its identifier. *)
Lemma findSeriesAsinFromBook_spec bookAsin region w :
  runs (SeriesFinder.findSeriesAsinFromBook bookAsin region) w
    (fun res w' =>
       asks_at_most 2 w w'
       /\ (invalid_asin bookAsin = true -> w' = w /\ res = None)
       /\ (forall i, res = Some i -> Js.truthy (si_asin i) = true)
       /\ (List.length (requests w') = List.length (requests w) + 2 ->
           exists b w1,
             asinSearch bookAsin (SeriesFinder.default_us region) w = (Ok (Some b), w1)
             /\ extractSeriesInfo (Some b) = None)).
Proof.
  unfold SeriesFinder.findSeriesAsinFromBook.
  destruct (invalid_asin bookAsin) eqn:V.
  { apply runs_ret. split; [apply (asks_more 0); [lia | apply asks_zero]|].
    split; [auto|]. split; [discriminate | lia]. }
  apply runs_bind.
  destruct (asinSearch_spec bookAsin (SeriesFinder.default_us region) w)
    as (bookData & w1 & E1 & A1 & _ & _).
  exists bookData, w1. split; [exact E1|].
  destruct bookData as [b|].
  - destruct (extractSeriesInfo (Some b)) as [i|] eqn:X.
    + apply runs_ret. split; [apply (asks_more 1); [lia | exact A1]|].
      split; [discriminate|]. split.
      * intros i' E. injection E as <-. exact (extractSeriesInfo_truthy _ _ X).
      * destruct A1 as [_ L]. lia.
    + apply (runs_weaken _ _ _ _
               (getSeriesInfoFromAudible_spec bookAsin (SeriesFinder.default_us region) w1)).
      intros res w2 [A2 I]. split; [exact (asks_trans _ _ _ _ _ A1 A2)|].
      split; [discriminate|]. split; [exact I|].
      intros _. exists b, w1. split; [exact E1 | exact X].
  - apply runs_ret. split; [apply (asks_more 1); [lia | exact A1]|].
    split; [discriminate|]. split; [discriminate|].
    destruct A1 as [_ L]. lia.
Qed.

Lemma first_series_asin_spec books region w :
  runs (SeriesFinder.first_series_asin books region) w
    (fun res w' =>
       asks_at_most (2 * List.length (books_with_valid_asin books)) w w'
       /\ (books_with_valid_asin books = [] -> w' = w /\ res = None)
       /\ (forall a, res = Some a -> Js.truthy a = true)).
Proof.
  revert w. induction books as [|book rest IH]; intros w.
  - apply runs_ret. split; [apply asks_zero|]. split; [auto | discriminate].
  - cbn [SeriesFinder.first_series_asin]. unfold books_with_valid_asin.
    cbn [filter]. fold (books_with_valid_asin rest).
    destruct (negb (invalid_asin (book_asin book))).
    + apply runs_bind.
      apply (runs_weaken _ _ _ _
               (findSeriesAsinFromBook_spec (book_asin book) region w)).
      intros [i|] w1 (A1 & _ & I & _).
      * apply runs_ret. split; [apply (asks_more 2); [simpl; lia | exact A1]|].
        split; [discriminate|]. intros a E. injection E as <-. now apply I.
      * apply (runs_weaken _ _ _ _ (IH w1)). intros res w2 (A2 & _ & T).
        split; [|split; [discriminate | exact T]].
        apply (asks_more (2 + 2 * List.length (books_with_valid_asin rest)));
          [simpl; lia|].
        exact (asks_trans _ _ _ _ _ A1 A2).
    + exact (IH w).
Qed.

End WithValidator.

End WithCasing.

End FinderFacts.

(** X5.  [findSeriesAsinFromBook], whatever the network answers, never
    throws and changes nothing but the requests made, at most two of
    them: the book at Audnexus and, only when that book was found and
    names no series with an identifier, its product at Audible.  A series
    it returns carries a non-empty identifier. *)
Theorem findSeriesAsinFromBook_asks_twice_at_most {casing : Js.Casing} {validator : AsinValidator}
  (bookAsin region : option string) (w : World) :
  exists res w',
    SeriesFinder.findSeriesAsinFromBook bookAsin region w = (Ok res, w')
    /\ asks_at_most 2 w w'
    /\ (forall info, res = Some info -> Js.truthy (Audible.si_asin info) = true)
    /\ (List.length (requests w') = List.length (requests w) + 2 ->
        exists b w1,
          Audible.asinSearch bookAsin (SeriesFinder.default_us region) w
          = (Ok (Some b), w1)
          /\ Audible.extractSeriesInfo (Some b) = None).
Proof.
  destruct (FinderFacts.findSeriesAsinFromBook_spec bookAsin region w)
    as (res & w' & E & A & _ & I & F).
  exists res, w'. auto.
Qed.

(** X6.  [findSeriesAsinFromLibrary] never throws and changes nothing
    but the requests made: none when the series is unknown or the
    library holds no book of it with a valid identifier, and at most two
    for each such book otherwise.  The identifier it returns is not
    empty. *)
Theorem findSeriesAsinFromLibrary_asks_per_book {casing : Js.Casing} {validator : AsinValidator}
  (seriesId : uuid) (region : option string) (w : World) :
  exists res w',
    SeriesFinder.findSeriesAsinFromLibrary seriesId region w = (Ok res, w')
    /\ (forall seriesAsin, res = Some seriesAsin -> Js.truthy seriesAsin = true)
    /\ match series_by_pk (db w) seriesId with
       | None => res = None /\ w' = w
       | Some series =>
           asks_at_most
             (2 * List.length (books_with_valid_asin (series_books (db w) series))) w w'
           /\ (books_with_valid_asin (series_books (db w) series) = [] ->
               res = None /\ w' = w)
       end.
Proof.
  unfold SeriesFinder.findSeriesAsinFromLibrary.
  assert (E1 : series_findByPk seriesId w = (Ok (series_by_pk (db w) seriesId), w))
    by reflexivity.
  rewrite (AudibleFacts.bind_run _ _ _ _ _ E1).
  destruct (series_by_pk (db w) seriesId) as [series|].
  - assert (E2 : getBooksExpandedWithLibraryItem series w
                 = (Ok (series_books (db w) series), w)) by reflexivity.
    rewrite (AudibleFacts.bind_run _ _ _ _ _ E2).
    destruct (FinderFacts.first_series_asin_spec (series_books (db w) series)
                (SeriesFinder.default_us region) w) as (res & w' & E & A & Z & T).
    exists res, w'. split; [exact E|]. split; [exact T|]. split; [exact A|].
    intros N. destruct (Z N). auto.
  - exists None, w. split; [reflexivity|]. split; [discriminate | auto].
Qed.

Lemma findSeriesAsinFromBook_asks_twice_at_most_witness :
  Js.truthy "B0SERIES01" = true
  /\ exists b w1,
       Audible.asinSearch (Some "B000000001") (Some "us")
         (Examples.world_of Examples.catalog_net Examples.library_db)
       = (Ok (Some b), w1)
       /\ Audible.extractSeriesInfo (Some b) = None.
Proof.
  split.
  - destruct (@findSeriesAsinFromBook_asks_twice_at_most Js.ascii_casing specValidASIN
                (Some "B000000001") (Some "us")
                (Examples.world_of Worlds.audnex_net Examples.library_db))
      as (res & w' & E & _ & I & _).
    vm_compute in E. injection E as <- <-. exact (I _ eq_refl).
  - destruct (@findSeriesAsinFromBook_asks_twice_at_most Js.ascii_casing specValidASIN
                (Some "B000000001") None
                (Examples.world_of Examples.catalog_net Examples.library_db))
      as (res & w' & E & _ & _ & F).
    vm_compute in E. injection E as <- <-. exact (F eq_refl).
Defined.

Lemma findSeriesAsinFromLibrary_asks_per_book_witness :
  Js.truthy "B0SERIES01" = true
  /\ exists res w',
       SeriesFinder.findSeriesAsinFromLibrary (validator := specValidASIN) 1 None
         (Examples.world_of Examples.catalog_net Worlds.no_books_db) = (Ok res, w')
       /\ res = None
       /\ w' = Examples.world_of Examples.catalog_net Worlds.no_books_db.
Proof.
  split.
  - destruct (@findSeriesAsinFromLibrary_asks_per_book Js.ascii_casing specValidASIN 1 (Some "us")
                (Examples.world_of Worlds.audnex_net Examples.library_db))
      as (res & w' & E & I & _).
    vm_compute in E. injection E as <- <-. exact (I _ eq_refl).
  - destruct (@findSeriesAsinFromLibrary_asks_per_book Js.ascii_casing specValidASIN 1 None
                (Examples.world_of Examples.catalog_net Worlds.no_books_db))
      as (res & w' & E & _ & Z).
    exists res, w'. split; [exact E|]. exact (proj2 Z eq_refl).
Defined.

(** ** The migration, up and down *)

Module MigrationFacts.
Import Migration MigrationDown.

Lemma tableExists_app name l ixs1 l' ixs2 :
  tableExists name {| tables := (l ++ l')%list; indexes := ixs1 |}
  = tableExists name {| tables := l; indexes := ixs2 |}
    || tableExists name {| tables := l'; indexes := ixs2 |}.
Proof. unfold tableExists. cbn [tables]. apply existsb_app. Qed.

Lemma tableExists_createTable name s : tableExists name (createTable name s) = true.
Proof.
  unfold tableExists, createTable. cbn [tables]. rewrite existsb_app. simpl.
  rewrite String.eqb_refl. now rewrite orb_true_r.
Qed.

Lemma tableExists_createTable_other name other s :
  String.eqb name other = false ->
  tableExists name (createTable other s) = tableExists name s.
Proof.
  intros N. unfold tableExists, createTable. cbn [tables]. rewrite existsb_app. simpl.
  rewrite N. now rewrite !orb_false_r.
Qed.

Lemma tableExists_addIndex name table fields unique ixname s :
  tableExists name (addIndex table fields unique ixname s) = tableExists name s.
Proof. reflexivity. Qed.

(** After [up] both tables are there. *)
Lemma up_tables s :
  tableExists "trackedSeries" (up s) = true /\ tableExists "newReleases" (up s) = true.
Proof.
  unfold up. cbv zeta.
  destruct (tableExists "trackedSeries" s) eqn:T.
  - destruct (tableExists "newReleases" s) eqn:N; [now split|].
    rewrite !tableExists_addIndex, tableExists_createTable.
    now rewrite tableExists_createTable_other.
  - rewrite !tableExists_addIndex, tableExists_createTable_other by reflexivity.
    destruct (tableExists "newReleases" s) eqn:N.
    + rewrite !tableExists_addIndex, tableExists_createTable.
      rewrite tableExists_createTable_other by reflexivity. now split.
    + rewrite !tableExists_addIndex, tableExists_createTable.
      rewrite tableExists_createTable_other by reflexivity.
      rewrite !tableExists_addIndex, tableExists_createTable. now split.
Qed.

Lemma filter_absent name l :
  existsb (String.eqb name) l = false ->
  filter (fun t => negb (String.eqb t name)) l = l.
Proof.
  induction l as [|t r IH]; simpl; [reflexivity|].
  rewrite (String.eqb_sym t name). destruct (String.eqb name t); [discriminate|].
  simpl. intros H. now rewrite IH.
Qed.

Lemma filter_no_index name (ixs : list IndexDef) :
  (forall ix, In ix ixs -> ix_table ix <> name) ->
  filter (fun ix => negb (String.eqb (ix_table ix) name)) ixs = ixs.
Proof.
  induction ixs as [|ix r IH]; simpl; [reflexivity|]. intros H.
  destruct (String.eqb_spec (ix_table ix) name) as [E|_].
  - exfalso. exact (H ix (or_introl eq_refl) E).
  - simpl. rewrite IH; [reflexivity|]. intros ix' I. apply H. now right.
Qed.

End MigrationFacts.

(** X7.  Running the migration [up] leaves both tables in the schema,
    keeps every table and index that was there, and a second run changes
    nothing.  When it creates [newReleases] it declares the unique index
    on [(trackedSeriesId, asin)]; a [newReleases] table that is already
    there is left as it is, with the indexes it has. *)
Theorem migration_up_is_idempotent (s : Schema) :
  Migration.up (Migration.up s) = Migration.up s
  /\ Migration.tableExists "trackedSeries" (Migration.up s) = true
  /\ Migration.tableExists "newReleases" (Migration.up s) = true
  /\ (exists created, tables (Migration.up s) = (tables s ++ created)%list)
  /\ (exists declared, indexes (Migration.up s) = (indexes s ++ declared)%list)
  /\ (Migration.tableExists "newReleases" s = false ->
      Sql.has_unique_index (Migration.up s) "newReleases" ["trackedSeriesId"; "asin"] = true)
  /\ (Migration.tableExists "trackedSeries" s = true ->
      Migration.tableExists "newReleases" s = true ->
      Migration.up s = s).
Proof.
  destruct (MigrationFacts.up_tables s) as [T N].
  split; [|split; [exact T|split; [exact N|]]].
  - unfold Migration.up at 1. cbv zeta. now rewrite T, N.
  - unfold Migration.up. cbv zeta.
    destruct (Migration.tableExists "trackedSeries" s) eqn:T0.
    + destruct (Migration.tableExists "newReleases" s) eqn:N0.
      * split; [exists []; now rewrite app_nil_r|].
        split; [exists []; now rewrite app_nil_r|]. split; [discriminate | reflexivity].
      * split; [eexists; reflexivity|].
        split; [eexists; cbn [indexes Migration.addIndex Migration.createTable];
                rewrite <- !app_assoc; reflexivity|].
        split; [|discriminate]. intros _.
        unfold Sql.has_unique_index.
        cbn [indexes Migration.addIndex Migration.createTable].
        rewrite !existsb_app. simpl. now rewrite !orb_true_r.
    + rewrite !MigrationFacts.tableExists_addIndex,
        MigrationFacts.tableExists_createTable_other by reflexivity.
      destruct (Migration.tableExists "newReleases" s) eqn:N0.
      * split; [eexists; reflexivity|].
        split; [eexists; cbn [indexes Migration.addIndex Migration.createTable];
                rewrite <- !app_assoc; reflexivity|].
        split; discriminate.
      * split; [eexists; cbn [tables Migration.addIndex Migration.createTable];
                rewrite <- !app_assoc; reflexivity|].
        split; [eexists; cbn [indexes Migration.addIndex Migration.createTable];
                rewrite <- !app_assoc; reflexivity|].
        split; [|discriminate]. intros _.
        unfold Sql.has_unique_index.
        cbn [indexes Migration.addIndex Migration.createTable].
        rewrite !existsb_app. simpl. now rewrite !orb_true_r.
Qed.

Lemma migration_up_is_idempotent_witness :
  Sql.has_unique_index
    (Migration.up {| tables := ["users"; "series"]; indexes := [] |})
    "newReleases" ["trackedSeriesId"; "asin"] = true.
Proof.
  exact (proj1 (proj2 (proj2 (proj2 (proj2 (proj2
           (migration_up_is_idempotent
              {| tables := ["users"; "series"]; indexes := [] |})))))) eq_refl).
Defined.

(** X8.  The migration [down] undoes [up]: on a schema that has neither
    of the two tables, and no index on them, [down] after [up] gives the
    schema back.  After [down], whatever the schema was, neither table is
    there. *)
Theorem migration_down_undoes_up (s : Schema) :
  (Migration.tableExists "trackedSeries" s = false ->
   Migration.tableExists "newReleases" s = false ->
   (forall ix, In ix (indexes s) ->
               ix_table ix <> "trackedSeries" /\ ix_table ix <> "newReleases") ->
   MigrationDown.down (Migration.up s) = s)
  /\ Migration.tableExists "trackedSeries" (MigrationDown.down s) = false
  /\ Migration.tableExists "newReleases" (MigrationDown.down s) = false.
Proof.
  assert (Gone : forall name l,
            existsb (String.eqb name) (filter (fun t => negb (String.eqb t name)) l) = false).
  { intros name l. induction l as [|t r IH]; simpl; [reflexivity|].
    destruct (String.eqb t name) eqn:E; simpl; [exact IH|].
    now rewrite String.eqb_sym, E, IH. }
  assert (Kept : forall name other l,
            existsb (String.eqb name) l = false ->
            existsb (String.eqb name) (filter (fun t => negb (String.eqb t other)) l) = false).
  { intros name other l. induction l as [|t r IH]; simpl; [reflexivity|].
    destruct (String.eqb name t) eqn:E; [discriminate|]. intros H.
    destruct (negb (String.eqb t other)); simpl; [now rewrite E, IH | now apply IH]. }
  split; [|split].
  - intros T N I. destruct s as [ts ixs]. unfold Migration.up. cbv zeta. rewrite T.
    rewrite !MigrationFacts.tableExists_addIndex,
      MigrationFacts.tableExists_createTable_other by reflexivity.
    rewrite N. unfold MigrationDown.down.
    rewrite !MigrationFacts.tableExists_addIndex, MigrationFacts.tableExists_createTable.
    unfold Migration.tableExists in T, N. cbn [tables] in T, N. cbn [indexes] in I.
    cbv [MigrationDown.dropTable Migration.addIndex Migration.createTable
         Migration.tableExists tables indexes].
    rewrite !filter_app, !existsb_app.
    rewrite (MigrationFacts.filter_absent _ _ N), (MigrationFacts.filter_absent _ _ T).
    rewrite (MigrationFacts.filter_no_index "newReleases" ixs)
      by (intros ix H; exact (proj2 (I ix H))).
    rewrite (MigrationFacts.filter_no_index "trackedSeries" ixs)
      by (intros ix H; exact (proj1 (I ix H))).
    rewrite T. simpl. now rewrite !app_nil_r.
  - unfold MigrationDown.down.
    destruct (Migration.tableExists "newReleases" s) eqn:N.
    + destruct (Migration.tableExists "trackedSeries" (MigrationDown.dropTable _ s)) eqn:T;
        [|exact T].
      unfold Migration.tableExists, MigrationDown.dropTable. cbn [tables]. apply Gone.
    + destruct (Migration.tableExists "trackedSeries" s) eqn:T; [|exact T].
      unfold Migration.tableExists, MigrationDown.dropTable. cbn [tables]. apply Gone.
  - unfold MigrationDown.down.
    destruct (Migration.tableExists "newReleases" s) eqn:N.
    + assert (G : Migration.tableExists "newReleases"
                    (MigrationDown.dropTable "newReleases" s) = false)
        by (unfold Migration.tableExists, MigrationDown.dropTable; cbn [tables]; apply Gone).
      destruct (Migration.tableExists "trackedSeries" _); [|exact G].
      unfold Migration.tableExists, MigrationDown.dropTable. cbn [tables].
      apply Kept. exact G.
    + destruct (Migration.tableExists "trackedSeries" s); [|exact N].
      unfold Migration.tableExists, MigrationDown.dropTable. cbn [tables].
      apply Kept. exact N.
Qed.

Lemma migration_down_undoes_up_witness :
  MigrationDown.down
    (Migration.up
       {| tables := ["users"; "series"];
          indexes := [ {| ix_table := "series"; ix_fields := ["libraryId"];
                          ix_unique := false; ix_name := "series_library" |} ] |})
  = {| tables := ["users"; "series"];
       indexes := [ {| ix_table := "series"; ix_fields := ["libraryId"];
                       ix_unique := false; ix_name := "series_library" |} ] |}.
Proof.
  apply (proj1 (migration_down_undoes_up _)); [reflexivity | reflexivity |].
  intros ix [<-|[]]. split; discriminate.
Defined.

(** ** Tracked series: creating and removing *)

Module TrackingFacts.
Import TrackedSeriesModel.

Lemma find_none_filter {A} (p : A -> bool) l : find p l = None -> filter p l = [].
Proof.
  induction l as [|x r IH]; simpl; [reflexivity|].
  destruct (p x); [discriminate | exact IH].
Qed.

Lemma find_some_filter {A} (p : A -> bool) l x :
  find p l = Some x -> 1 <= List.length (filter p l).
Proof.
  induction l as [|y r IH]; simpl; [discriminate|].
  destruct (p y); simpl; [lia | exact IH].
Qed.

Lemma find_app_none {A} (p : A -> bool) l x :
  find p l = None -> p x = true -> find p (l ++ [x]) = Some x.
Proof.
  induction l as [|y r IH]; simpl; intros N P; [now rewrite P|].
  destruct (p y); [discriminate | now apply IH].
Qed.

Lemma matches_refl userId seriesId r :
  ts_userId r = userId -> ts_seriesId r = seriesId -> matches userId seriesId r = true.
Proof. intros <- <-. unfold matches. now rewrite !Nat.eqb_refl. Qed.

Lemma with_db_same w : with_db (db w) w = w.
Proof. now destruct w. Qed.

Lemma filter_all {A} (p : A -> bool) l : filter p l = [] -> filter (fun x => negb (p x)) l = l.
Proof.
  induction l as [|x r IH]; simpl; [reflexivity|].
  destruct (p x); [discriminate|]. simpl. intros H. now rewrite IH.
Qed.

Lemma filter_none {A} (p : A -> bool) l : filter p (filter (fun x => negb (p x)) l) = [].
Proof.
  induction l as [|x r IH]; simpl; [reflexivity|].
  destruct (p x) eqn:P; simpl; [exact IH | now rewrite P].
Qed.

(** [createTrackedSeries] when the user does not follow the series yet
    and the series is there: the row it appends. *)
Lemma createTrackedSeries_new data w series :
  find (matches (cd_userId data) (cd_seriesId data)) (trackedSeriesTable (db w)) = None ->
  series_by_pk (db w) (cd_seriesId data) = Some series ->
  exists row,
    createTrackedSeries data w
    = (Ok (plain row),
       with_db (with_nextId (S (nextId (db w)))
                  (with_trackedSeriesTable (trackedSeriesTable (db w) ++ [row])%list (db w)))
         w)
    /\ ts_id row = nextId (db w)
    /\ ts_userId row = cd_userId data
    /\ ts_seriesId row = cd_seriesId data
    /\ ts_seriesAsin row = Js.or_null (cd_seriesAsin data)
    /\ ts_autoTracked row = match cd_autoTracked data with Some b => b | None => false end
    /\ ts_region row = Some (Js.or_else (cd_region data) "us")
    /\ ts_lastChecked row = None.
Proof.
  intros F S.
  exists {| ts_id := nextId (db w); ts_userId := cd_userId data;
            ts_seriesId := cd_seriesId data;
            ts_seriesAsin := Js.or_null (cd_seriesAsin data);
            ts_autoTracked := match cd_autoTracked data with Some b => b | None => false end;
            ts_region := Some (Js.or_else (cd_region data) "us");
            ts_lastChecked := None;
            ts_createdAt := clock w; ts_updatedAt := clock w |}.
  split; [|repeat split].
  unfold createTrackedSeries, getByUserAndSeries, create.
  cbv [bind get_db now set_db ret throw]. cbv beta. rewrite F. cbn [option_map].
  now rewrite (FollowFacts.find_none_existsb _ _ F), andb_false_r, S.
Qed.

(** The same call when the series is not there: the reference of
    [seriesId] is not met. *)
Lemma createTrackedSeries_no_series data w :
  find (matches (cd_userId data) (cd_seriesId data)) (trackedSeriesTable (db w)) = None ->
  series_by_pk (db w) (cd_seriesId data) = None ->
  createTrackedSeries data w = (Throw SequelizeForeignKeyConstraintError, w).
Proof.
  intros F S. unfold createTrackedSeries, getByUserAndSeries, create.
  cbv [bind get_db now set_db ret throw]. cbv beta. rewrite F. cbn [option_map].
  now rewrite (FollowFacts.find_none_existsb _ _ F), andb_false_r, S.
Qed.

End TrackingFacts.

(** X9.  [createTrackedSeries] finds or creates.  A row of the user and
    the series that is there is returned, with the database left as it
    was.  When there is none and the series exists, one row is appended
    for the user and the series, never checked so far, with the region
    given or ['us']; the user then follows the series with one row, and
    the same call again returns that row and changes nothing.  When
    there is none and the series does not exist, the insert fails on the
    reference to the series: the call throws
    [SequelizeForeignKeyConstraintError] and nothing is changed.  The
    call never throws the uniqueness error, also under the unique
    index.  The user is taken to be one of the [users] table, which
    the state does not hold. *)
Theorem createTrackedSeries_finds_or_creates
  (data : TrackedSeriesModel.CreateData) (w : World) :
  (forall r,
      find (TrackedSeriesModel.matches (TrackedSeriesModel.cd_userId data)
              (TrackedSeriesModel.cd_seriesId data)) (trackedSeriesTable (db w))
      = Some r ->
      TrackedSeriesModel.createTrackedSeries data w = (Ok (TrackedSeriesModel.plain r), w))
  /\ (find (TrackedSeriesModel.matches (TrackedSeriesModel.cd_userId data)
                (TrackedSeriesModel.cd_seriesId data)) (trackedSeriesTable (db w))
      = None ->
      forall series,
        series_by_pk (db w) (TrackedSeriesModel.cd_seriesId data) = Some series ->
        exists row w',
          TrackedSeriesModel.createTrackedSeries data w
          = (Ok (TrackedSeriesModel.plain row), w')
          /\ trackedSeriesTable (db w') = (trackedSeriesTable (db w) ++ [row])%list
          /\ newReleaseTable (db w') = newReleaseTable (db w)
          /\ seriesTable (db w') = seriesTable (db w)
          /\ ts_id row = nextId (db w)
          /\ ts_userId row = TrackedSeriesModel.cd_userId data
          /\ ts_seriesId row = TrackedSeriesModel.cd_seriesId data
          /\ ts_lastChecked row = None
          /\ ts_region row = Some (Js.or_else (TrackedSeriesModel.cd_region data) "us")
          /\ filter (TrackedSeriesModel.matches (TrackedSeriesModel.cd_userId data)
                       (TrackedSeriesModel.cd_seriesId data)) (trackedSeriesTable (db w'))
             = [row]
          /\ TrackedSeriesModel.createTrackedSeries data w'
             = (Ok (TrackedSeriesModel.plain row), w'))
  /\ (find (TrackedSeriesModel.matches (TrackedSeriesModel.cd_userId data)
                (TrackedSeriesModel.cd_seriesId data)) (trackedSeriesTable (db w))
      = None ->
      series_by_pk (db w) (TrackedSeriesModel.cd_seriesId data) = None ->
      TrackedSeriesModel.createTrackedSeries data w
      = (Throw SequelizeForeignKeyConstraintError, w))
  /\ (forall w',
        TrackedSeriesModel.createTrackedSeries data w
        <> (Throw SequelizeUniqueConstraintError, w')).
Proof.
  set (userId := TrackedSeriesModel.cd_userId data).
  set (seriesId := TrackedSeriesModel.cd_seriesId data).
  assert (G : forall w0, TrackedSeriesModel.getByUserAndSeries userId seriesId w0
              = (Ok (option_map TrackedSeriesModel.plain
                       (find (TrackedSeriesModel.matches userId seriesId)
                          (trackedSeriesTable (db w0)))), w0)) by reflexivity.
  assert (Found : forall w0 r,
            find (TrackedSeriesModel.matches userId seriesId) (trackedSeriesTable (db w0))
            = Some r ->
            TrackedSeriesModel.createTrackedSeries data w0
            = (Ok (TrackedSeriesModel.plain r), w0)).
  { intros w0 r F. unfold TrackedSeriesModel.createTrackedSeries. fold userId seriesId.
    rewrite (AudibleFacts.bind_run _ _ _ _ _ (G w0)). now rewrite F. }
  split; [exact (Found w)|]. split; [|split].
  - intros F series S.
    destruct (TrackingFacts.createTrackedSeries_new data w series F S)
      as (row & E & Ki & Ku & Ks & _ & _ & Kr & Kl).
    assert (Mt : TrackedSeriesModel.matches userId seriesId row = true)
      by (now apply TrackingFacts.matches_refl).
    eexists row, _. split; [exact E|].
    cbn [db with_db trackedSeriesTable newReleaseTable seriesTable with_nextId
         with_trackedSeriesTable].
    repeat (split; [solve [reflexivity | assumption]|]).
    split.
    + rewrite filter_app, (TrackingFacts.find_none_filter _ _ F). cbn [filter app].
      now rewrite Mt.
    + apply Found. cbn [db with_db trackedSeriesTable with_nextId with_trackedSeriesTable].
      now apply TrackingFacts.find_app_none.
  - apply TrackingFacts.createTrackedSeries_no_series.
  - intros w' E.
    destruct (find (TrackedSeriesModel.matches userId seriesId) (trackedSeriesTable (db w)))
      as [r|] eqn:F.
    + rewrite (Found w r F) in E. discriminate E.
    + destruct (series_by_pk (db w) seriesId) as [series|] eqn:S.
      * destruct (TrackingFacts.createTrackedSeries_new data w series F S) as (row & E' & _).
        rewrite E' in E. discriminate E.
      * rewrite (TrackingFacts.createTrackedSeries_no_series data w F S) in E.
        discriminate E.
Qed.

Lemma createTrackedSeries_finds_or_creates_witness :
  (exists row w',
     TrackedSeriesModel.createTrackedSeries
       {| TrackedSeriesModel.cd_userId := 8; TrackedSeriesModel.cd_seriesId := 1;
          TrackedSeriesModel.cd_seriesAsin := None;
          TrackedSeriesModel.cd_autoTracked := None;
          TrackedSeriesModel.cd_region := None |}
       (Examples.world_of Examples.catalog_net Examples.library_db)
     = (Ok (TrackedSeriesModel.plain row), w')
     /\ ts_id row = 100 /\ ts_lastChecked row = None /\ ts_region row = Some "us")
  /\ TrackedSeriesModel.createTrackedSeries
       {| TrackedSeriesModel.cd_userId := 8; TrackedSeriesModel.cd_seriesId := 5;
          TrackedSeriesModel.cd_seriesAsin := None;
          TrackedSeriesModel.cd_autoTracked := None;
          TrackedSeriesModel.cd_region := None |}
       (Examples.world_of Examples.catalog_net Examples.library_db)
     = (Throw SequelizeForeignKeyConstraintError,
        Examples.world_of Examples.catalog_net Examples.library_db).
Proof.
  split.
  - destruct (proj1 (proj2 (createTrackedSeries_finds_or_creates
                {| TrackedSeriesModel.cd_userId := 8; TrackedSeriesModel.cd_seriesId := 1;
                   TrackedSeriesModel.cd_seriesAsin := None;
                   TrackedSeriesModel.cd_autoTracked := None;
                   TrackedSeriesModel.cd_region := None |}
                (Examples.world_of Examples.catalog_net Examples.library_db)))
                eq_refl Examples.saga eq_refl)
      as (row & w' & E & _ & _ & _ & Ki & _ & _ & Kl & Kr & _).
    exists row, w'. auto.
  - exact (proj1 (proj2 (proj2 (createTrackedSeries_finds_or_creates
                {| TrackedSeriesModel.cd_userId := 8; TrackedSeriesModel.cd_seriesId := 5;
                   TrackedSeriesModel.cd_seriesAsin := None;
                   TrackedSeriesModel.cd_autoTracked := None;
                   TrackedSeriesModel.cd_region := None |}
                (Examples.world_of Examples.catalog_net Examples.library_db))))
             eq_refl eq_refl).
Defined.

Module UnfollowFacts.
Import TrackedSeriesModel.

Lemma filter_id {A} (p : A -> bool) l : (forall x, In x l -> p x = true) -> filter p l = l.
Proof.
  induction l as [|x r IH]; simpl; intros H; [reflexivity|].
  rewrite (H x (or_introl eq_refl)). rewrite IH; [reflexivity|]. intros y I. apply H. now right.
Qed.

Lemma tables_same d :
  with_newReleaseTable (newReleaseTable d)
    (with_trackedSeriesTable (trackedSeriesTable d) d) = d.
Proof. now destruct d. Qed.

(** What [removeTracking] does to a world. *)
Lemma removeTracking_run userId seriesId w :
  removeTracking userId seriesId w
  = (Ok (Nat.ltb 0 (List.length (filter (matches userId seriesId)
                                   (trackedSeriesTable (db w))))),
     with_db
       (with_newReleaseTable
          (filter (fun r => negb (release_of (filter (matches userId seriesId)
                                                (trackedSeriesTable (db w))) r))
             (newReleaseTable (db w)))
          (with_trackedSeriesTable
             (filter (fun r => negb (matches userId seriesId r))
                (trackedSeriesTable (db w))) (db w))) w).
Proof. reflexivity. Qed.

Lemma removeTracking_nothing userId seriesId w :
  filter (matches userId seriesId) (trackedSeriesTable (db w)) = [] ->
  removeTracking userId seriesId w = (Ok false, w).
Proof.
  intros F. rewrite removeTracking_run, F. cbn [List.length Nat.ltb Nat.leb].
  rewrite (TrackingFacts.filter_all _ _ F).
  rewrite (filter_id (fun r => negb (release_of [] r))) by reflexivity.
  now rewrite tables_same, TrackingFacts.with_db_same.
Qed.

End UnfollowFacts.

(** X10.  [unfollowSeries] answers 404 exactly when the user does not
    follow the series, and then changes nothing.  Otherwise the rows of
    the user for the series are gone and no other row is, the releases
    recorded for a removed row are gone with it and no other release is,
    and nothing but the database changed.  Afterwards
    [getSeriesTrackingStatus] answers that the series is not tracked, and
    a second [unfollowSeries] answers 404. *)
Theorem unfollow_stops_tracking (seriesId userId : uuid) (w : World) :
  exists answer w',
    Handlers.unfollowSeries seriesId userId w = (Ok answer, w')
    /\ (find (TrackedSeriesModel.matches userId seriesId) (trackedSeriesTable (db w)) = None ->
        answer = Handlers.Status404 "Not tracking this series" /\ w' = w)
    /\ (forall r,
          find (TrackedSeriesModel.matches userId seriesId) (trackedSeriesTable (db w))
          = Some r ->
          answer = Handlers.Json tt)
    /\ w' = with_db (db w') w
    /\ (forall r, In r (trackedSeriesTable (db w')) <->
                  In r (trackedSeriesTable (db w))
                  /\ TrackedSeriesModel.matches userId seriesId r = false)
    /\ (forall n, In n (newReleaseTable (db w')) <->
                  In n (newReleaseTable (db w))
                  /\ forall t, In t (trackedSeriesTable (db w)) ->
                               TrackedSeriesModel.matches userId seriesId t = true ->
                               ts_id t <> nr_trackedSeriesId n)
    /\ Handlers.getSeriesTrackingStatus seriesId userId w'
       = (Ok {| Handlers.isTracking := false; Handlers.trackedSeries := None |}, w')
    /\ Handlers.unfollowSeries seriesId userId w'
       = (Ok (Handlers.Status404 "Not tracking this series"), w').
Proof.
  set (destroyed := filter (TrackedSeriesModel.matches userId seriesId)
                      (trackedSeriesTable (db w))).
  set (d' := with_newReleaseTable
               (filter (fun r => negb (TrackedSeriesModel.release_of destroyed r))
                  (newReleaseTable (db w)))
               (with_trackedSeriesTable
                  (filter (fun r => negb (TrackedSeriesModel.matches userId seriesId r))
                     (trackedSeriesTable (db w))) (db w))).
  assert (R : TrackedSeriesModel.removeTracking userId seriesId w
              = (Ok (Nat.ltb 0 (List.length destroyed)), with_db d' w))
    by apply UnfollowFacts.removeTracking_run.
  assert (T' : trackedSeriesTable d'
               = filter (fun r => negb (TrackedSeriesModel.matches userId seriesId r))
                   (trackedSeriesTable (db w))) by (now destruct (db w)).
  assert (N' : newReleaseTable d'
               = filter (fun r => negb (TrackedSeriesModel.release_of destroyed r))
                   (newReleaseTable (db w))) by (now destruct (db w)).
  assert (Gone : filter (TrackedSeriesModel.matches userId seriesId)
                   (trackedSeriesTable (db (with_db d' w))) = []).
  { cbn [db with_db]. rewrite T'. apply TrackingFacts.filter_none. }
  assert (Again : TrackedSeriesModel.removeTracking userId seriesId (with_db d' w)
                  = (Ok false, with_db d' w))
    by (apply UnfollowFacts.removeTracking_nothing; exact Gone).
  exists (if negb (Nat.ltb 0 (List.length destroyed))
          then Handlers.Status404 "Not tracking this series" else Handlers.Json tt),
         (with_db d' w).
  split.
  { unfold Handlers.unfollowSeries. rewrite (AudibleFacts.bind_run _ _ _ _ _ R).
    now destruct (Nat.ltb 0 (List.length destroyed)). }
  split.
  { intros F. pose proof (TrackingFacts.find_none_filter _ _ F) as E.
    fold destroyed in E. rewrite E. split; [reflexivity|].
    pose proof (UnfollowFacts.removeTracking_nothing userId seriesId w E) as R0.
    rewrite R in R0. now injection R0. }
  split.
  { intros r F. pose proof (TrackingFacts.find_some_filter _ _ _ F) as L.
    fold destroyed in L. destruct destroyed; [simpl in L; lia | reflexivity]. }
  split; [reflexivity|].
  split.
  { intros r. cbn [db with_db]. rewrite T', filter_In, negb_true_iff. reflexivity. }
  split.
  { intros n. cbn [db with_db]. rewrite N', filter_In, negb_true_iff.
    unfold TrackedSeriesModel.release_of. split; intros [I H]; split; try exact I.
    - intros t It Mt E.
      assert (X : existsb (fun t => Nat.eqb (ts_id t) (nr_trackedSeriesId n)) destroyed = true).
      { apply existsb_exists. exists t. split; [apply filter_In; now split|].
        now apply Nat.eqb_eq. }
      congruence.
    - destruct (existsb _ destroyed) eqn:X; [|reflexivity].
      apply existsb_exists in X as (t & It & E). apply filter_In in It as [It Mt].
      apply Nat.eqb_eq in E. exfalso. exact (H t It Mt E). }
  split.
  { unfold Handlers.getSeriesTrackingStatus.
    assert (I : TrackedSeriesModel.isTracking userId seriesId (with_db d' w)
                = (Ok false, with_db d' w)).
    { unfold TrackedSeriesModel.isTracking. cbv [bind get_db ret]. now rewrite Gone. }
    now rewrite (AudibleFacts.bind_run _ _ _ _ _ I). }
  unfold Handlers.unfollowSeries. now rewrite (AudibleFacts.bind_run _ _ _ _ _ Again).
Qed.

Lemma unfollow_stops_tracking_witness :
  exists w',
    Handlers.unfollowSeries 1 7
      (Examples.world_of Examples.catalog_net Examples.library_db)
    = (Ok (Handlers.Json tt), w').
Proof.
  destruct (unfollow_stops_tracking 1 7
              (Examples.world_of Examples.catalog_net Examples.library_db))
    as (answer & w' & E & _ & S & _).
  exists w'. now rewrite <- (S _ eq_refl).
Defined.

(** ** Lists of rows *)

Module RecordFacts.
Import NewReleaseModel.

Lemma same_key_refl row : same_key (nr_trackedSeriesId row) (nr_asin row) row = true.
Proof. unfold same_key. now rewrite Nat.eqb_refl, String.eqb_refl. Qed.

Lemma existsb_filter_length {A} (p : A -> bool) l :
  Nat.ltb 0 (List.length (filter p l)) = existsb p l.
Proof.
  induction l as [|x r IH]; simpl; [reflexivity|].
  destruct (p x); simpl; [reflexivity | exact IH].
Qed.

Lemma existsb_app_last {A} (p : A -> bool) l x : p x = true -> existsb p (l ++ [x]) = true.
Proof. intros P. rewrite existsb_app. simpl. now rewrite P, orb_true_r. Qed.

End RecordFacts.

(** ** Dismissing releases *)

Module DismissFacts.
Import NewReleaseModel.

(** The update of [dismissRelease], on a row. *)
Lemma dismissRelease_run releaseId w :
  dismissRelease releaseId w
  = (Ok (Nat.ltb 0 (List.length (filter (fun r => Nat.eqb (nr_id r) releaseId)
                                   (newReleaseTable (db w))))),
     with_db
       (with_newReleaseTable
          (map (fun r => if Nat.eqb (nr_id r) releaseId then set_dismissed r else r)
             (newReleaseTable (db w))) (db w)) w).
Proof. reflexivity. Qed.

Lemma find_map_kept {A} (p : A -> bool) (f : A -> A) l :
  (forall x, p (f x) = p x) -> find p (map f l) = option_map f (find p l).
Proof.
  intros H. induction l as [|x r IH]; simpl; [reflexivity|].
  rewrite H. destruct (p x); [reflexivity | exact IH].
Qed.

Lemma map_map_idem {A} (f : A -> A) l : (forall x, f (f x) = f x) -> map f (map f l) = map f l.
Proof. intros H. rewrite map_map. apply map_ext. exact H. Qed.

Lemma with_newReleaseTable_twice l1 l2 d :
  with_newReleaseTable l1 (with_newReleaseTable l2 d) = with_newReleaseTable l1 d.
Proof. reflexivity. Qed.

Lemma with_db_twice d1 d2 w : with_db d1 (with_db d2 w) = with_db d1 w.
Proof. reflexivity. Qed.

Lemma tracked_of_user_kept d l userId n :
  Queries.tracked_of_user (with_newReleaseTable l d) userId n
  = Queries.tracked_of_user d userId n.
Proof. reflexivity. Qed.

End DismissFacts.

(** X11.  The handler [dismissRelease] dismisses nothing: the include
    of its query names the [trackedSeries] model without the alias under
    which [NewRelease.belongsTo] declares the association, so that every
    call throws [SequelizeEagerLoadingError] before it answers, and the
    world is as it was.  The model's [dismissRelease] answers whether a
    release has the id, dismisses the releases of that id and no other,
    whoever follows their series, touches no tracked series and nothing
    but the database, makes no dismissed release pending again, and a
    second call answers the same and changes nothing. *)
Theorem dismissRelease_include_is_refused (releaseId userId : uuid) (w : World) :
  Handlers.dismissRelease releaseId userId w = (Throw SequelizeEagerLoadingError, w)
  /\ exists w',
       NewReleaseModel.dismissRelease releaseId w
       = (Ok (existsb (fun r => Nat.eqb (nr_id r) releaseId) (newReleaseTable (db w))), w')
       /\ w' = with_db (db w') w
       /\ trackedSeriesTable (db w') = trackedSeriesTable (db w)
       /\ Forall2 (fun before after =>
                     (after = before
                      \/ (nr_id before = releaseId
                          /\ after = NewReleaseModel.set_dismissed before))
                     /\ (nr_id before = releaseId -> nr_dismissed after = true)
                     /\ (nr_dismissed before = true -> nr_dismissed after = true))
            (newReleaseTable (db w)) (newReleaseTable (db w'))
       /\ NewReleaseModel.dismissRelease releaseId w'
          = (Ok (existsb (fun r => Nat.eqb (nr_id r) releaseId) (newReleaseTable (db w))),
             w').
Proof.
  split; [reflexivity|].
  set (f := fun r => if Nat.eqb (nr_id r) releaseId
                     then NewReleaseModel.set_dismissed r else r).
  set (d' := with_newReleaseTable (map f (newReleaseTable (db w))) (db w)).
  assert (Kept : forall x, Nat.eqb (nr_id (f x)) releaseId = Nat.eqb (nr_id x) releaseId).
  { intros x. unfold f.
    destruct (Nat.eqb (nr_id x) releaseId) eqn:E; first [exact E | reflexivity]. }
  assert (Idem : forall x, f (f x) = f x).
  { intros x. unfold f at 1. rewrite Kept. unfold f.
    destruct (Nat.eqb (nr_id x) releaseId); reflexivity. }
  assert (Ex : forall l : list NewRelease,
            existsb (fun r => Nat.eqb (nr_id r) releaseId) (map f l)
            = existsb (fun r => Nat.eqb (nr_id r) releaseId) l).
  { induction l as [|x l IH]; simpl; [reflexivity|]. now rewrite Kept, IH. }
  exists (with_db d' w).
  rewrite !DismissFacts.dismissRelease_run, !RecordFacts.existsb_filter_length.
  fold f d'. split; [reflexivity|]. split; [reflexivity|]. split; [reflexivity|]. split.
  - cbn [db with_db]. unfold d'. cbn [newReleaseTable with_newReleaseTable].
    induction (newReleaseTable (db w)) as [|r l IH]; simpl; constructor; [|exact IH].
    unfold f.
    destruct (Nat.eqb_spec (nr_id r) releaseId) as [E|N]; repeat split; auto;
      intros; contradiction.
  - cbn [db with_db]. unfold d' at 1 2 3. cbn [newReleaseTable with_newReleaseTable].
    fold f. rewrite Ex, (DismissFacts.map_map_idem f _ Idem). reflexivity.
Qed.

Lemma dismissRelease_include_is_refused_witness :
  exists w',
    NewReleaseModel.dismissRelease 20
      (Examples.world_of Examples.catalog_net Examples.library_db) = (Ok true, w')
    /\ Forall (fun r => nr_dismissed r = true) (newReleaseTable (db w')).
Proof.
  destruct (dismissRelease_include_is_refused 20 8
              (Examples.world_of Examples.catalog_net Examples.library_db))
    as (_ & w' & E & _ & _ & F & _).
  exists w'. split; [exact E|].
  inversion F as [|before after l l' (_ & D & _) F' E1 E2]. subst.
  inversion F'. subst. constructor; [exact (D eq_refl) | constructor].
Defined.

Module DismissAllFacts.
Import Queries.

(** Under the primary key of [trackedSeries], a release is of one of the
    user's tracked series exactly when the join finds it one. *)
Lemma of_user_ids userId k (T : list TrackedSeries) :
  NoDup (map ts_id T) ->
  existsb (Nat.eqb k) (map ts_id (filter (fun t => Nat.eqb (ts_userId t) userId) T))
  = match find (fun t => Nat.eqb (ts_id t) k) T with
    | Some t => Nat.eqb (ts_userId t) userId
    | None => false
    end.
Proof.
  induction T as [|t r IH]; simpl; [reflexivity|]. intros N.
  apply NoDup_cons_iff in N as [Fresh N]. specialize (IH N).
  destruct (Nat.eqb_spec (ts_id t) k) as [E|D].
  - destruct (Nat.eqb (ts_userId t) userId); simpl.
    + rewrite E, Nat.eqb_refl. reflexivity.
    + destruct (existsb _ _) eqn:X; [|reflexivity]. exfalso. apply Fresh.
      apply existsb_exists in X as (i & I & Ei). apply Nat.eqb_eq in Ei. subst i.
      rewrite E. apply in_map_iff in I as (t' & Et & It). apply in_map_iff.
      exists t'. split; [exact Et|]. now apply filter_In in It.
  - destruct (Nat.eqb (ts_userId t) userId); simpl; [|exact IH].
    destruct (Nat.eqb_spec k (ts_id t)) as [E|_]; [congruence | exact IH].
Qed.

Lemma pending_is_to_dismiss d userId n :
  NoDup (map ts_id (trackedSeriesTable d)) ->
  negb (nr_dismissed n)
  && match tracked_of_user d userId n with Some _ => true | None => false end
  = to_dismiss (map ts_id (filter (fun t => Nat.eqb (ts_userId t) userId)
                             (trackedSeriesTable d))) n.
Proof.
  intros N. unfold to_dismiss, tracked_of_user. rewrite (of_user_ids _ _ _ N).
  rewrite andb_comm. f_equal.
  destruct (find _ (trackedSeriesTable d)) as [t|]; [|reflexivity].
  now destruct (Nat.eqb (ts_userId t) userId).
Qed.

Lemma filter_length_map {A} (q : A -> bool) (g : A -> A) l :
  (forall x, q (g x) = q x) ->
  List.length (filter q (map g l)) = List.length (filter q l).
Proof.
  intros H. induction l as [|x r IH]; simpl; [reflexivity|].
  rewrite H. destruct (q x); simpl; now rewrite IH.
Qed.

Lemma filter_length_zero {A} (q : A -> bool) l :
  (forall x, q x = false) -> List.length (filter q l) = 0.
Proof.
  intros H. induction l as [|x r IH]; simpl; [reflexivity|]. now rewrite H.
Qed.

Lemma map_unchanged {A} (g : A -> A) l : (forall x, In x l -> g x = x) -> map g l = l.
Proof.
  intros H. induction l as [|x r IH]; simpl; [reflexivity|].
  rewrite (H x (or_introl eq_refl)), IH; [reflexivity|]. intros y I. apply H. now right.
Qed.

Lemma filter_length_comp {A} (q : A -> bool) (g : A -> A) l :
  List.length (filter q (map g l)) = List.length (filter (fun x => q (g x)) l).
Proof.
  induction l as [|x r IH]; simpl; [reflexivity|].
  destruct (q (g x)); simpl; now rewrite IH.
Qed.

(** What [dismissAllForUser] does to a world. *)
Lemma dismissAllForUser_run userId w :
  dismissAllForUser userId w
  = (Ok (List.length
           (filter (to_dismiss (map ts_id (filter (fun t => Nat.eqb (ts_userId t) userId)
                                             (trackedSeriesTable (db w)))))
              (newReleaseTable (db w)))),
     with_db
       (with_newReleaseTable
          (map (fun n => if to_dismiss
                              (map ts_id (filter (fun t => Nat.eqb (ts_userId t) userId)
                                            (trackedSeriesTable (db w)))) n
                         then NewReleaseModel.set_dismissed n else n)
             (newReleaseTable (db w))) (db w)) w).
Proof.
  unfold dismissAllForUser. cbv [bind get_db]. cbv beta.
  destruct (map ts_id (filter (fun t => Nat.eqb (ts_userId t) userId)
                         (trackedSeriesTable (db w)))) as [|i ids]; [|reflexivity].
  unfold ret. rewrite filter_length_zero by reflexivity.
  rewrite map_unchanged by reflexivity.
  destruct w as [net d rq lg em ck]. cbn [db with_db]. now destruct d.
Qed.

End DismissAllFacts.

(** X12.  With the primary key of [trackedSeries] in place (no two rows
    of one id), [dismissAllReleases] answers the number of releases that
    were pending for the user, after it none is pending for the user,
    what is pending for any other user is as many as before, the tracked
    series are untouched, and a second call answers 0 and changes
    nothing. *)
Theorem dismissAll_clears_the_users_pending (userId : uuid) (w : World)
  (primary_key : NoDup (map ts_id (trackedSeriesTable (db w)))) :
  exists w',
    Handlers.dismissAllReleases userId w
    = (Ok (Queries.pendingCountForUser userId (db w)), w')
    /\ Queries.getPendingCountForUser userId w' = (Ok 0, w')
    /\ (forall other, other <> userId ->
          Queries.pendingCountForUser other (db w')
          = Queries.pendingCountForUser other (db w))
    /\ w' = with_db (db w') w
    /\ trackedSeriesTable (db w') = trackedSeriesTable (db w)
    /\ List.length (newReleaseTable (db w')) = List.length (newReleaseTable (db w))
    /\ Handlers.dismissAllReleases userId w' = (Ok 0, w').
Proof.
  set (ids := map ts_id (filter (fun t => Nat.eqb (ts_userId t) userId)
                           (trackedSeriesTable (db w)))).
  set (g := fun n => if Queries.to_dismiss ids n then NewReleaseModel.set_dismissed n else n).
  assert (P : forall n,
            negb (nr_dismissed n)
            && match Queries.tracked_of_user (db w) userId n with
               | Some _ => true
               | None => false
               end
            = Queries.to_dismiss ids n)
    by (intros n; now apply DismissAllFacts.pending_is_to_dismiss).
  assert (Count : Queries.pendingCountForUser userId (db w)
                  = List.length (filter (Queries.to_dismiss ids) (newReleaseTable (db w)))).
  { unfold Queries.pendingCountForUser. f_equal. apply filter_ext. exact P. }
  assert (Done : forall n, Queries.to_dismiss ids (g n) = false).
  { intros n. unfold g. destruct (Queries.to_dismiss ids n) eqn:E; [|exact E].
    unfold Queries.to_dismiss. cbn [nr_dismissed NewReleaseModel.set_dismissed negb].
    apply andb_false_r. }
  assert (Others : forall other n, other <> userId ->
            negb (nr_dismissed (g n))
            && match Queries.tracked_of_user (db w) other (g n) with
               | Some _ => true
               | None => false
               end
            = negb (nr_dismissed n)
              && match Queries.tracked_of_user (db w) other n with
                 | Some _ => true
                 | None => false
                 end).
  { intros other n D. unfold g. destruct (Queries.to_dismiss ids n) eqn:E; [|reflexivity].
    rewrite <- P in E. apply andb_true_iff in E as [_ E].
    unfold Queries.tracked_of_user in *.
    cbn [nr_trackedSeriesId nr_dismissed NewReleaseModel.set_dismissed negb andb].
    destruct (find _ (trackedSeriesTable (db w))) as [t|]; [|now rewrite andb_false_r].
    destruct (Nat.eqb_spec (ts_userId t) userId) as [U|]; [|discriminate].
    destruct (Nat.eqb_spec (ts_userId t) other) as [O|_]; [congruence|].
    now rewrite andb_false_r. }
  set (d' := with_newReleaseTable (map g (newReleaseTable (db w))) (db w)).
  assert (Z : Queries.pendingCountForUser userId d' = 0).
  { unfold Queries.pendingCountForUser, d'. cbn [newReleaseTable with_newReleaseTable].
    rewrite DismissAllFacts.filter_length_comp.
    apply DismissAllFacts.filter_length_zero. intros n.
    rewrite DismissFacts.tracked_of_user_kept, P. apply Done. }
  assert (Idem : map g (map g (newReleaseTable (db w))) = map g (newReleaseTable (db w))).
  { apply DismissFacts.map_map_idem. intros n. unfold g at 1. now rewrite Done. }
  exists (with_db d' w). unfold Handlers.dismissAllReleases.
  split; [rewrite DismissAllFacts.dismissAllForUser_run, Count; reflexivity|].
  split; [unfold Queries.getPendingCountForUser; cbv [bind get_db ret]; cbn [db with_db];
          now rewrite Z|].
  split.
  { intros other D.
    exact (DismissAllFacts.filter_length_map
             (fun n => negb (nr_dismissed n)
                       && match Queries.tracked_of_user (db w) other n with
                          | Some _ => true
                          | None => false
                          end) g _ (fun n => Others other n D)). }
  split; [reflexivity|]. split; [reflexivity|].
  split; [exact (length_map g _)|].
  rewrite DismissAllFacts.dismissAllForUser_run.
  change (trackedSeriesTable (db (with_db d' w))) with (trackedSeriesTable (db w)).
  change (newReleaseTable (db (with_db d' w))) with (map g (newReleaseTable (db w))).
  fold ids. fold g. rewrite Idem, DismissAllFacts.filter_length_comp.
  rewrite DismissAllFacts.filter_length_zero by exact Done.
  reflexivity.
Qed.

Lemma dismissAll_clears_the_users_pending_witness :
  exists w',
    Handlers.dismissAllReleases 7
      (Examples.world_of Examples.catalog_net Examples.library_db) = (Ok 1, w')
    /\ Queries.getPendingCountForUser 7 w' = (Ok 0, w').
Proof.
  assert (K : NoDup (map ts_id (trackedSeriesTable
                (db (Examples.world_of Examples.catalog_net Examples.library_db)))))
    by (repeat constructor; simpl; tauto).
  destruct (dismissAll_clears_the_users_pending 7
              (Examples.world_of Examples.catalog_net Examples.library_db) K)
    as (w' & E & Z & _).
  exists w'. split; [exact E | exact Z].
Defined.

(** ** What a user is shown *)

Module QueryFacts.
Import Queries.

Lemma filter_map_In {A B} (f : A -> option B) l y :
  In y (TrackedSeriesModel.filter_map f l) <-> exists x, In x l /\ f x = Some y.
Proof.
  induction l as [|x r IH]; simpl.
  - split; [contradiction | now intros (? & [] & _)].
  - destruct (f x) as [z|] eqn:E; simpl; rewrite IH; split.
    + intros [<-|(x' & I & F)]; [exists x; auto | exists x'; auto].
    + intros (x' & [<-|I] & F); [left; congruence | right; now exists x'].
    + intros (x' & I & F). exists x'. auto.
    + intros (x' & [<-|I] & F); [congruence | now exists x'].
Qed.

Lemma filter_map_length {A B} (f : A -> option B) l :
  List.length (TrackedSeriesModel.filter_map f l)
  = List.length (filter (fun x => match f x with Some _ => true | None => false end) l).
Proof.
  induction l as [|x r IH]; simpl; [reflexivity|].
  destruct (f x); simpl; now rewrite IH.
Qed.

Lemma filter_filter {A} (p q : A -> bool) l :
  filter p (filter q l) = filter (fun x => q x && p x) l.
Proof.
  induction l as [|x r IH]; simpl; [reflexivity|].
  destruct (q x); simpl; [destruct (p x); now rewrite IH | exact IH].
Qed.

Lemma filter_length_le {A} (p q : A -> bool) l :
  (forall x, p x = true -> q x = true) ->
  List.length (filter p l) <= List.length (filter q l).
Proof.
  intros H. induction l as [|x r IH]; simpl; [lia|].
  destruct (p x) eqn:P; [rewrite (H x P); simpl; lia|].
  destruct (q x); simpl; lia.
Qed.

Lemma In_firstn {A} n (l : list A) x : In x (firstn n l) -> In x l.
Proof.
  intros I. rewrite <- (firstn_skipn n l). apply in_or_app. now left.
Qed.

Lemma discovered_desc_total a b : discovered_desc a b = true \/ discovered_desc b a = true.
Proof. unfold discovered_desc. rewrite !Z.leb_le. lia. Qed.

Lemma discovered_desc_trans a b c :
  discovered_desc a b = true -> discovered_desc b c = true -> discovered_desc a c = true.
Proof. unfold discovered_desc. rewrite !Z.leb_le. lia. Qed.

Lemma created_desc_total a b : created_desc a b = true \/ created_desc b a = true.
Proof. unfold created_desc. rewrite !Z.leb_le. lia. Qed.

Lemma created_desc_trans a b c :
  created_desc a b = true -> created_desc b c = true -> created_desc a c = true.
Proof. unfold created_desc. rewrite !Z.leb_le. lia. Qed.

Lemma tracked_of_user_spec d userId n t :
  tracked_of_user d userId n = Some t ->
  In t (trackedSeriesTable d) /\ ts_id t = nr_trackedSeriesId n /\ ts_userId t = userId.
Proof.
  unfold tracked_of_user.
  destruct (find _ (trackedSeriesTable d)) as [t'|] eqn:F; [|discriminate].
  destruct (Nat.eqb_spec (ts_userId t') userId) as [U|]; [|discriminate].
  intros E. injection E as <-. destruct (find_some _ _ F) as [I K].
  apply Nat.eqb_eq in K. auto.
Qed.

Lemma series_by_pk_spec d id s :
  series_by_pk d id = Some s -> In s (seriesTable d) /\ series_id s = id.
Proof.
  unfold series_by_pk. intros F. destruct (find_some _ _ F) as [I K].
  apply Nat.eqb_eq in K. auto.
Qed.

End QueryFacts.

(** X13.  [getPendingForUser] changes nothing and lists at most [limit]
    releases (50 when no limit is given), never more than
    [getPendingCountForUser] counts.  Each is a release of the table
    that is not dismissed, with the tracked series it points to, which is
    the user's, and the series of that; the list goes from the latest
    discovery to the earliest.  When every tracked series has its series
    and the count is within the limit, every pending release of the user
    is listed. *)
Theorem pending_releases_are_the_users (userId : uuid) (limit : option nat) (w : World) :
  exists l,
    Queries.getPendingForUser userId limit w = (Ok l, w)
    /\ List.length l <= match limit with Some n => n | None => 50 end
    /\ List.length l <= Queries.pendingCountForUser userId (db w)
    /\ Forall (fun p =>
                 In (Queries.pr_release p) (newReleaseTable (db w))
                 /\ nr_dismissed (Queries.pr_release p) = false
                 /\ In (Queries.pr_trackedSeries p) (trackedSeriesTable (db w))
                 /\ ts_id (Queries.pr_trackedSeries p)
                    = nr_trackedSeriesId (Queries.pr_release p)
                 /\ ts_userId (Queries.pr_trackedSeries p) = userId
                 /\ In (Queries.pr_series p) (seriesTable (db w))
                 /\ series_id (Queries.pr_series p)
                    = ts_seriesId (Queries.pr_trackedSeries p)) l
    /\ StronglySorted
         (fun a b => (nr_discoveredAt (Queries.pr_release b)
                      <= nr_discoveredAt (Queries.pr_release a))%Z) l
    /\ ((forall r, In r (trackedSeriesTable (db w)) ->
                   series_by_pk (db w) (ts_seriesId r) <> None) ->
        Queries.pendingCountForUser userId (db w)
        <= match limit with Some n => n | None => 50 end ->
        List.length l = Queries.pendingCountForUser userId (db w)
        /\ forall n, In n (newReleaseTable (db w)) ->
                     nr_dismissed n = false ->
                     Queries.tracked_of_user (db w) userId n <> None ->
                     In n (map Queries.pr_release l)).
Proof.
  set (lim := match limit with Some n => n | None => 50 end).
  set (rows := TrackedSeriesModel.filter_map (Queries.with_tracked_and_series (db w) userId)
                 (filter (fun n => negb (nr_dismissed n)) (newReleaseTable (db w)))).
  set (sorted := Sql.order_by Queries.discovered_desc rows).
  exists (firstn lim sorted).
  assert (P : Permutation sorted rows) by apply SqlFacts.order_by_perm.
  assert (Rows : forall p, In p rows ->
            exists n, In n (newReleaseTable (db w)) /\ nr_dismissed n = false
                      /\ Queries.with_tracked_and_series (db w) userId n = Some p).
  { intros p I. apply QueryFacts.filter_map_In in I as (n & I & E).
    apply filter_In in I as [I D]. apply negb_true_iff in D. now exists n. }
  assert (Len : List.length rows
                = List.length
                    (filter (fun n => negb (nr_dismissed n)
                                      && match Queries.with_tracked_and_series (db w) userId n with
                                         | Some _ => true
                                         | None => false
                                         end) (newReleaseTable (db w)))).
  { unfold rows. now rewrite QueryFacts.filter_map_length, QueryFacts.filter_filter. }
  split; [reflexivity|].
  split; [rewrite length_firstn; lia|].
  split.
  { rewrite length_firstn, (Permutation_length P), Len.
    etransitivity; [apply Nat.le_min_r|]. apply QueryFacts.filter_length_le.
    intros n H. apply andb_true_iff in H as [D T]. rewrite D. simpl.
    unfold Queries.with_tracked_and_series in T.
    now destruct (Queries.tracked_of_user (db w) userId n). }
  split.
  { apply Forall_forall. intros p I. apply QueryFacts.In_firstn in I.
    apply (Permutation_in _ P) in I. destruct (Rows p I) as (n & In_n & D & E).
    unfold Queries.with_tracked_and_series in E.
    destruct (Queries.tracked_of_user (db w) userId n) as [t|] eqn:T; [|discriminate].
    destruct (series_by_pk (db w) (ts_seriesId t)) as [s|] eqn:S; [|discriminate].
    injection E as <-. cbn [Queries.pr_release Queries.pr_trackedSeries Queries.pr_series].
    destruct (QueryFacts.tracked_of_user_spec _ _ _ _ T) as (It & K & U).
    destruct (QueryFacts.series_by_pk_spec _ _ _ S) as (Is & Ks). auto 10. }
  split.
  { apply (DueFacts.StronglySorted_impl (Sql.holds Queries.discovered_desc)).
    - intros a b H. unfold Sql.holds, Queries.discovered_desc in H. now apply Z.leb_le.
    - apply SqlFacts.sorted_firstn.
      apply SqlFacts.order_by_sorted;
        [apply QueryFacts.discovered_desc_total | apply QueryFacts.discovered_desc_trans]. }
  intros FK Within.
  assert (Same : forall n,
            match Queries.with_tracked_and_series (db w) userId n with
            | Some _ => true
            | None => false
            end
            = match Queries.tracked_of_user (db w) userId n with
              | Some _ => true
              | None => false
              end).
  { intros n. unfold Queries.with_tracked_and_series.
    destruct (Queries.tracked_of_user (db w) userId n) as [t|] eqn:T; [|reflexivity].
    destruct (QueryFacts.tracked_of_user_spec _ _ _ _ T) as (It & _).
    specialize (FK t It). now destruct (series_by_pk (db w) (ts_seriesId t)). }
  assert (Count : List.length rows = Queries.pendingCountForUser userId (db w)).
  { rewrite Len. unfold Queries.pendingCountForUser. f_equal. apply filter_ext.
    intros n. now rewrite Same. }
  assert (All : firstn lim sorted = sorted).
  { apply firstn_all2. rewrite (Permutation_length P), Count. exact Within. }
  split; [rewrite All, (Permutation_length P); exact Count|].
  intros n In_n D T. rewrite All. apply in_map_iff.
  destruct (Queries.with_tracked_and_series (db w) userId n) as [p|] eqn:E.
  - exists p. split.
    + unfold Queries.with_tracked_and_series in E.
      destruct (Queries.tracked_of_user (db w) userId n); [|discriminate].
      destruct (series_by_pk (db w) _); [|discriminate]. now injection E as <-.
    + apply (Permutation_in _ (Permutation_sym P)). apply QueryFacts.filter_map_In.
      exists n. split; [|exact E]. apply filter_In. split; [exact In_n|]. now rewrite D.
  - exfalso. specialize (Same n). rewrite E in Same.
    destruct (Queries.tracked_of_user (db w) userId n); [discriminate | now apply T].
Qed.

Lemma pending_releases_are_the_users_witness :
  exists l,
    Queries.getPendingForUser 7 None
      (Examples.world_of Examples.catalog_net Examples.library_db)
    = (Ok l, Examples.world_of Examples.catalog_net Examples.library_db)
    /\ List.length l = 1.
Proof.
  destruct (pending_releases_are_the_users 7 None
              (Examples.world_of Examples.catalog_net Examples.library_db))
    as (l & E & _ & _ & _ & _ & All).
  exists l. split; [exact E|].
  refine (proj1 (All _ _)).
  - intros r [<-|[]]. discriminate.
  - vm_compute. lia.
Defined.

(** X14.  [getTrackedSeriesForUser] changes nothing and lists tracked
    series of the user only, each with its series, from the latest
    created to the earliest.  The releases come with an entry exactly
    when they were asked for, and they are then the releases of that
    tracked series that are not dismissed.  When every tracked series has
    its series, the list has every tracked series of the user once, also
    one with no pending release. *)
Theorem tracked_series_are_the_users (userId : uuid) (includeNewReleases : option bool)
  (w : World) :
  exists l,
    Queries.getTrackedSeriesForUser userId includeNewReleases w = (Ok l, w)
    /\ Forall (fun e =>
                 In (Queries.twr_row e) (trackedSeriesTable (db w))
                 /\ ts_userId (Queries.twr_row e) = userId
                 /\ In (Queries.twr_series e) (seriesTable (db w))
                 /\ series_id (Queries.twr_series e) = ts_seriesId (Queries.twr_row e)
                 /\ match Queries.twr_newReleases e with
                    | None => includeNewReleases <> Some true
                    | Some releases =>
                        includeNewReleases = Some true
                        /\ forall n, In n releases <->
                                     In n (newReleaseTable (db w))
                                     /\ nr_trackedSeriesId n = ts_id (Queries.twr_row e)
                                     /\ nr_dismissed n = false
                    end) l
    /\ StronglySorted
         (fun a b => (ts_createdAt (Queries.twr_row b)
                      <= ts_createdAt (Queries.twr_row a))%Z) l
    /\ ((forall r, In r (trackedSeriesTable (db w)) ->
                   series_by_pk (db w) (ts_seriesId r) <> None) ->
        Permutation (map Queries.twr_row l)
          (filter (fun r => Nat.eqb (ts_userId r) userId) (trackedSeriesTable (db w)))).
Proof.
  set (incl := match includeNewReleases with Some b => b | None => false end).
  set (mine := filter (fun r => Nat.eqb (ts_userId r) userId) (trackedSeriesTable (db w))).
  set (rows := TrackedSeriesModel.filter_map
                 (Queries.with_series_and_releases (db w) incl) mine).
  exists (Sql.order_by Queries.created_desc rows).
  assert (P : Permutation (Sql.order_by Queries.created_desc rows) rows)
    by apply SqlFacts.order_by_perm.
  split; [reflexivity|]. split; [|split].
  - apply Forall_forall. intros e I. apply (Permutation_in _ P) in I.
    apply QueryFacts.filter_map_In in I as (r & I & E).
    apply filter_In in I as [I U]. apply Nat.eqb_eq in U.
    unfold Queries.with_series_and_releases in E.
    destruct (series_by_pk (db w) (ts_seriesId r)) as [s|] eqn:S; [|discriminate].
    destruct (QueryFacts.series_by_pk_spec _ _ _ S) as [Is Ks].
    injection E as <-.
    cbn [Queries.twr_row Queries.twr_series Queries.twr_newReleases].
    repeat (split; [assumption|]).
    unfold incl. destruct includeNewReleases as [[|]|]; try discriminate.
    split; [reflexivity|]. intros n. unfold Queries.pending_of.
    rewrite filter_In, andb_true_iff, Nat.eqb_eq, negb_true_iff. tauto.
  - apply (DueFacts.StronglySorted_impl (Sql.holds Queries.created_desc)).
    + intros a b H. unfold Sql.holds, Queries.created_desc in H. now apply Z.leb_le.
    + apply SqlFacts.order_by_sorted;
        [apply QueryFacts.created_desc_total | apply QueryFacts.created_desc_trans].
  - intros FK. rewrite (Permutation_map Queries.twr_row P).
    assert (K : forall r, In r mine -> series_by_pk (db w) (ts_seriesId r) <> None)
      by (intros r I; apply filter_In in I as [I _]; now apply FK).
    assert (E : map Queries.twr_row rows = mine).
    { unfold rows. clearbody mine. clear P rows.
      induction mine as [|r rest IH]; [reflexivity|].
      cbn [TrackedSeriesModel.filter_map]. unfold Queries.with_series_and_releases at 1.
      destruct (series_by_pk (db w) (ts_seriesId r)) eqn:S.
      - cbn [map Queries.twr_row]. rewrite IH; [reflexivity|].
        intros r' I. apply K. now right.
      - exfalso. apply (K r); [now left | exact S]. }
    now rewrite E.
Qed.

Lemma tracked_series_are_the_users_witness :
  exists l,
    Queries.getTrackedSeriesForUser 7 (Some true)
      (Examples.world_of Examples.catalog_net Examples.library_db)
    = (Ok l, Examples.world_of Examples.catalog_net Examples.library_db)
    /\ Permutation (map Queries.twr_row l) [Examples.tracked_row].
Proof.
  destruct (tracked_series_are_the_users 7 (Some true)
              (Examples.world_of Examples.catalog_net Examples.library_db))
    as (l & E & _ & _ & All).
  exists l. split; [exact E|]. apply All.
  intros r [<-|[]]. discriminate.
Defined.

(** ** One check of a tracked series *)

Module CheckRunFacts.
Import NewReleaseManager RunFacts.

Section WithCasing.
Context {casing : Js.Casing}.

Lemma calm_refl w : calm w w.
Proof. repeat split; auto. Qed.

Lemma calm_trans w1 w2 w3 : calm w1 w2 -> calm w2 w3 -> calm w1 w3.
Proof.
  intros (C1 & E1 & I1) (C2 & E2 & I2). repeat split; try congruence. auto.
Qed.

Lemma only_requests_calm w w' : only_requests w w' -> calm w w'.
Proof.
  intros (_ & D & _ & E & C & _). repeat split; auto. intros r. now rewrite D.
Qed.

Lemma calm_quiet {A} (m : M A) : quiet m -> keeps calm m.
Proof.
  apply keeps_more.
  - exact calm_trans.
  - exact only_requests_calm.
  - exact only_requests_refl.
Qed.

Lemma calm_Logger l : keeps calm (Logger l).
Proof.
  apply keeps_step; [exact calm_trans|]. intros w.
  eexists _, _. split; [reflexivity|]. repeat split; auto.
Qed.

Lemma calm_updateSeriesAsin inst asin w :
  runs (TrackedSeriesModel.updateSeriesAsin inst asin) w
    (fun inst' w' =>
       calm w w'
       /\ ts_id (inst_row inst') = ts_id (inst_row inst)
       /\ ts_userId (inst_row inst') = ts_userId (inst_row inst)).
Proof.
  eexists _, _. split; [reflexivity|]. repeat split; auto.
Qed.

(** [updateLastChecked] stamps the rows of the instance with the time of
    the clock, and touches nothing else than the tracked series. *)
Lemma updateLastChecked_stamps inst w :
  runs (TrackedSeriesModel.updateLastChecked inst) w
    (fun inst' w' =>
       calm w w'
       /\ newReleaseTable (db w') = newReleaseTable (db w)
       /\ ts_id (inst_row inst') = ts_id (inst_row inst)
       /\ ts_userId (inst_row inst') = ts_userId (inst_row inst)
       /\ stamped (ts_id (inst_row inst)) (clock w) w').
Proof.
  eexists _, _. split; [reflexivity|]. repeat split; auto.
  intros r I E. cbn [db with_db trackedSeriesTable with_trackedSeriesTable] in I.
  apply in_map_iff in I as (r0 & <- & _).
  destruct (Nat.eqb_spec (ts_id r0) (ts_id (inst_row inst))) as [_|D]; [reflexivity|].
  now rewrite E in D.
Qed.

Lemma create_release_recorded trackedSeriesId seriesName book w :
  runs (create_release trackedSeriesId seriesName book) w
    (fun created w' =>
       calm w w' /\ forall r, created = Some r -> recorded_for trackedSeriesId w' r).
Proof.
  unfold runs, create_release, NewReleaseModel.createNewRelease, NewReleaseModel.create,
    try_catch, bind, now, get_db. simpl.
  assert (Logged : forall l, calm w (with_logged l w)) by (intros l; repeat split; auto).
  destruct (SeriesFinder.asin book) as [a|];
    [|eexists _, _; split; [reflexivity|]; split; [apply Logged | discriminate]].
  destruct (SeriesFinder.title book) as [t|];
    [|eexists _, _; split; [reflexivity|]; split; [apply Logged | discriminate]].
  destruct (Sql.has_unique_index (schema (db w)) "newReleases" ["trackedSeriesId"; "asin"]
            && existsb (NewReleaseModel.same_key trackedSeriesId a) (newReleaseTable (db w))).
  - eexists _, _. split; [reflexivity|]. split; [apply Logged | discriminate].
  - destruct (NewReleaseModel.tracked_exists (db w) trackedSeriesId); cbn [negb];
      [|eexists _, _; split; [reflexivity|]; split; [apply Logged | discriminate]].
    eexists _, _. split; [reflexivity|]. split.
    + repeat split; auto. intros r I.
      cbn [db with_db with_logged newReleaseTable with_nextId with_newReleaseTable].
      apply in_or_app. now left.
    + intros r E. injection E as <-. repeat split.
      cbn [db with_db with_logged newReleaseTable with_nextId with_newReleaseTable].
      apply in_or_app. right. now left.
Qed.

Lemma create_releases_recorded trackedSeriesId seriesName newBooks w :
  runs (create_releases trackedSeriesId seriesName newBooks) w
    (fun created w' => calm w w' /\ Forall (recorded_for trackedSeriesId w') created).
Proof.
  revert w. induction newBooks as [|book rest IH]; intros w; simpl.
  - apply runs_ret. split; [apply calm_refl | constructor].
  - apply runs_bind.
    apply (runs_weaken _ _ _ _ (create_release_recorded trackedSeriesId seriesName book w)).
    intros created w1 [C1 R1]. apply runs_bind.
    apply (runs_weaken _ _ _ _ (IH w1)). intros createdReleases w2 [C2 R2].
    apply runs_ret. split; [exact (calm_trans _ _ _ C1 C2)|].
    destruct created as [r|]; [|exact R2]. constructor; [|exact R2].
    destruct (R1 r eq_refl) as (I & T & D). repeat split; auto.
    now apply (proj2 (proj2 C2)).
Qed.

Lemma notifyNewReleases_emits trackedSeries releases w :
  runs (notifyNewReleases trackedSeries releases) w
    (fun _ w' =>
       db w' = db w /\ clock w' = clock w
       /\ emitted w'
          = (emitted w
             ++ map (OnNewSeriesRelease (ts_id (inst_row trackedSeries))) releases)%list).
Proof.
  revert w. induction releases as [|r rest IH]; intros w; simpl.
  - apply runs_ret. repeat split. now rewrite app_nil_r.
  - apply runs_bind. eexists _, _. split; [reflexivity|].
    apply (runs_weaken _ _ _ _ (IH _)). intros _ w' (D & C & E).
    repeat split; auto. rewrite E. cbn [emitted with_emitted].
    now rewrite <- app_assoc.
Qed.

Section WithValidator.
Context {validator : AsinValidator}.

Lemma getNewReleasesForSeries_calm trackedSeries w :
  runs (SeriesFinder.getNewReleasesForSeries trackedSeries) w (fun _ w' => calm w w').
Proof.
  destruct (DiffFacts.getNewReleasesForSeries_run trackedSeries w)
    as (ext & w' & Q & _ & E).
  eexists _, _. split; [exact E|]. now apply only_requests_calm.
Qed.

(** What a check leaves behind, whatever the network answers. *)
Lemma checkSeriesForNewReleases_spec trackedSeries w :
  runs (checkSeriesForNewReleases trackedSeries) w
    (fun created w' =>
       clock w' = clock w
       /\ stamped (ts_id (inst_row trackedSeries)) (clock w) w'
       /\ Forall (recorded_for (ts_id (inst_row trackedSeries)) w') created
       /\ (forall r, In r (newReleaseTable (db w)) -> In r (newReleaseTable (db w')))
       /\ emitted w'
          = (emitted w
             ++ map (OnNewSeriesRelease (ts_id (inst_row trackedSeries))) created
             ++ match created with
                | [] => []
                | _ :: _ => [NewReleasesUpdated (ts_userId (inst_row trackedSeries))]
                end)%list).
Proof.
  set (id := ts_id (inst_row trackedSeries)).
  set (userId := ts_userId (inst_row trackedSeries)).
  set (Post := fun (w0 : World) (created : list NewRelease) (w' : World) =>
                 clock w' = clock w0
                 /\ stamped id (clock w0) w'
                 /\ Forall (recorded_for id w') created
                 /\ (forall r, In r (newReleaseTable (db w0)) -> In r (newReleaseTable (db w')))
                 /\ emitted w'
                    = (emitted w0 ++ map (OnNewSeriesRelease id) created
                       ++ match created with
                          | [] => []
                          | _ :: _ => [NewReleasesUpdated userId]
                          end)%list).
  assert (Later : forall w0 w1 created w',
            calm w0 w1 -> Post w1 created w' -> Post w0 created w').
  { intros w0 w1 created w' (C & E & I) (C' & S' & F' & I' & E').
    unfold Post. rewrite <- C, <- E. repeat split; auto. }
  (* the part of the check that follows the resolution of the identifier *)
  assert (Main : forall ts w1,
            ts_id (inst_row ts) = id -> ts_userId (inst_row ts) = userId ->
            runs (newBooks <- SeriesFinder.getNewReleasesForSeries ts ;;
                  createdReleases <-
                    create_releases (ts_id (inst_row ts)) (seriesName_of trackedSeries)
                      newBooks ;;
                  trackedSeries <- TrackedSeriesModel.updateLastChecked ts ;;
                  match createdReleases with
                  | _ :: _ =>
                      notifyNewReleases trackedSeries createdReleases ;;;
                      emitNewReleasesUpdate (ts_userId (inst_row trackedSeries)) ;;;
                      ret createdReleases
                  | [] => ret createdReleases
                  end) w1 (Post w1)).
  { intros ts w1 Ei Eu. apply runs_bind.
    apply (runs_weaken _ _ _ _ (getNewReleasesForSeries_calm ts w1)).
    intros newBooks w2 C2. apply runs_bind.
    apply (runs_weaken _ _ _ _
             (create_releases_recorded (ts_id (inst_row ts)) (seriesName_of trackedSeries)
                newBooks w2)).
    intros created w3 [C3 F3]. rewrite Ei in F3. apply runs_bind.
    apply (runs_weaken _ _ _ _ (updateLastChecked_stamps ts w3)).
    intros ts' w4 (C4 & N4 & Ei' & Eu' & S4). rewrite Ei in S4, Ei'. rewrite Eu in Eu'.
    assert (F4 : Forall (recorded_for id w4) created).
    { eapply Forall_impl; [|exact F3]. intros r (I & T & D). repeat split; auto.
      now rewrite N4. }
    apply (runs_weaken _ _ (Post w3));
      [|intros a w' P; apply (Later w1 w2 _ _ C2), (Later w2 w3 _ _ C3); exact P].
    destruct created as [|c cs].
    - apply runs_ret. unfold Post. destruct C4 as (C & E & I).
      repeat split; auto. now rewrite E, app_nil_r.
    - apply runs_bind.
      apply (runs_weaken _ _ _ _ (notifyNewReleases_emits ts' (c :: cs) w4)).
      intros _ w5 (D5 & C5 & E5). apply runs_bind.
      eexists _, _. split; [reflexivity|]. apply runs_ret.
      destruct C4 as (C & E & I). unfold Post, stamped, recorded_for in *.
      cbn [db clock emitted with_emitted]. rewrite D5, C5, E5, Ei', Eu', E.
      repeat split; auto. now rewrite <- app_assoc. }
  unfold checkSeriesForNewReleases. fold id userId. apply runs_bind.
  apply (runs_weaken _ _ _ _ (keeps_runs calm calm_refl _ w (calm_Logger _))).
  intros _ w0 C0. apply runs_try_catch.
  apply (runs_weaken _ _ (Post w0) _); [|intros created w'; now apply (Later w w0)].
  destruct (negb (Js.truthy_opt (ts_seriesAsin (inst_row trackedSeries)))).
  - apply runs_bind. apply runs_bind.
    apply (runs_weaken _ _ _ _
             (keeps_runs calm calm_refl _ w0
                (calm_quiet _ (quiet_findSeriesAsinFromLibrary _ _)))).
    intros seriesAsin w1 C1. destruct (Js.or_null seriesAsin) as [a|].
    + apply runs_bind.
      apply (runs_weaken _ _ _ _ (calm_updateSeriesAsin trackedSeries a w1)).
      intros ts w2 (C2 & Ei & Eu). apply runs_ret.
      apply (runs_weaken _ _ _ _ (Main ts w2 Ei Eu)). intros created w'.
      intros P. apply (Later w0 w1 _ _ C1). now apply (Later w1 w2 _ _ C2).
    + apply runs_bind.
      apply (runs_weaken _ _ _ _ (keeps_runs calm calm_refl _ w1 (calm_Logger _))).
      intros _ w2 C2. apply runs_bind.
      apply (runs_weaken _ _ _ _ (updateLastChecked_stamps trackedSeries w2)).
      intros ts' w3 (C3 & N3 & _ & _ & S3). apply runs_ret. apply runs_ret.
      apply (Later w0 w1 _ _ C1). apply (Later w1 w2 _ _ C2).
      destruct C3 as (C & E & I). unfold Post. repeat split; auto.
      now rewrite E, app_nil_r.
  - apply runs_bind. apply runs_ret. now apply Main.
Qed.

End WithValidator.

End WithCasing.

End CheckRunFacts.

(** X15.  A check of a tracked series never throws, whatever the network
    answers and whether or not an identifier of the series is found, and
    it always ends with the rows of the tracked series stamped with the
    time of the check.  So the series is not due, and [getDueForCheck]
    does not select it, for a sweep that runs within the next 24 hours. *)
Theorem check_stamps_the_tracked_series {casing : Js.Casing} {validator : AsinValidator}
  (trackedSeries : TrackedInstance) (w : World) :
  exists created w',
    NewReleaseManager.checkSeriesForNewReleases trackedSeries w = (Ok created, w')
    /\ clock w' = clock w
    /\ (forall r, In r (trackedSeriesTable (db w')) ->
                  ts_id r = ts_id (inst_row trackedSeries) ->
                  ts_lastChecked r = Some (clock w))
    /\ (forall now limit selected,
          (now <= clock w + 24 * 3600 * 1000)%Z ->
          In selected
            (TrackedSeriesModel.dueForCheck (NewReleaseManager.checkThreshold now) limit
               (db w')) ->
          ts_id (inst_row selected) <> ts_id (inst_row trackedSeries)).
Proof.
  destruct (CheckRunFacts.checkSeriesForNewReleases_spec trackedSeries w)
    as (created & w' & E & C & S & _).
  exists created, w'. split; [exact E|]. split; [exact C|]. split; [exact S|].
  intros now limit selected Soon I K.
  unfold TrackedSeriesModel.dueForCheck in I. apply QueryFacts.In_firstn in I.
  apply (Permutation_in _ (SqlFacts.order_by_perm _ _)) in I.
  apply QueryFacts.filter_map_In in I as (r & I & J).
  apply filter_In in I as [I D].
  unfold TrackedSeriesModel.join_series in J.
  destruct (find _ (seriesTable (db w'))); [|discriminate]. injection J as <-.
  cbn [inst_row] in K. unfold TrackedSeriesModel.due in D. rewrite (S r I K) in D.
  unfold NewReleaseManager.checkThreshold in D. apply Z.ltb_lt in D. lia.
Qed.

Lemma check_stamps_the_tracked_series_witness :
  exists created w',
    @NewReleaseManager.checkSeriesForNewReleases Js.ascii_casing specValidASIN Examples.tracked
      (Examples.world_of Examples.catalog_net Examples.library_db) = (Ok created, w')
    /\ Forall (fun r => ts_lastChecked r = Some 0%Z) (trackedSeriesTable (db w')).
Proof.
  destruct (@check_stamps_the_tracked_series Js.ascii_casing specValidASIN Examples.tracked
              (Examples.world_of Examples.catalog_net Examples.library_db))
    as (created & w' & E & _ & S & _).
  exists created, w'. split; [exact E|].
  vm_compute in E. injection E as _ <-.
  constructor; [|constructor]. exact (S _ (or_introl eq_refl) eq_refl).
Defined.





(** ** A sweep from its start to its end *)

Module SweepRunFacts.
Import NewReleaseManager.

(** From the head of the loop, with fuel for two awaits a series, the
    sweep goes through the schedule and ends. *)
Lemma run_loop seriesToCheck rest m fuel :
  2 * List.length rest <= fuel ->
  Sweep.run fuel seriesToCheck (snd (next_series rest m)) (fst (next_series rest m))
  = (finally (say ScheduledCheckCompleted m), Sweep.schedule rest, None).
Proof.
  revert fuel. induction rest as [|ts rest IH]; intros fuel L.
  - destruct fuel; reflexivity.
  - cbn [List.length] in L. destruct fuel as [|[|fuel]]; try lia.
    cbn [next_series fst snd Sweep.run Sweep.resolve after_check after_delay].
    cbn [Sweep.schedule]. unfold after_delay.
    specialize (IH fuel ltac:(lia)).
    destruct (next_series rest m) as [m' k']. cbn [fst snd] in IH.
    now rewrite IH.
Qed.

End SweepRunFacts.

(** X18.  A sweep that starts with the guard released and whose awaited
    promises all resolve comes to its end: it awaits the query of the due
    series, then for each series the query resolved to, in that order,
    its check followed by a delay of 2000 ms (also after the last one),
    and nothing else; it then has logged the start, the number of series
    and the completion, and the guard is released. *)
Theorem sweep_checks_each_due_series_in_order
  (now : Z) (seriesToCheck : list TrackedInstance) (m : NewReleaseManager.Manager)
  (fuel : nat) :
  NewReleaseManager.isRunning m = false ->
  2 * List.length seriesToCheck + 1 <= fuel ->
  Sweep.run fuel seriesToCheck
    (snd (NewReleaseManager.runScheduledCheck now m))
    (fst (NewReleaseManager.runScheduledCheck now m))
  = ({| NewReleaseManager.isRunning := false;
        NewReleaseManager.log :=
          (NewReleaseManager.log m
           ++ [StartingScheduledCheck; FoundSeriesDue (List.length seriesToCheck);
               ScheduledCheckCompleted])%list |},
     NewReleaseManager.AwaitDue (NewReleaseManager.checkThreshold now) 100
       :: Sweep.schedule seriesToCheck,
     None).
Proof.
  intros R L. unfold NewReleaseManager.runScheduledCheck. rewrite R. cbn [fst snd].
  destruct fuel as [|fuel]; [lia|].
  cbn [Sweep.run Sweep.resolve]. unfold NewReleaseManager.after_due.
  destruct (NewReleaseManager.next_series seriesToCheck _) as [m' k'] eqn:N.
  pose proof (SweepRunFacts.run_loop seriesToCheck seriesToCheck
                (NewReleaseManager.say (FoundSeriesDue (List.length seriesToCheck))
                   (NewReleaseManager.say StartingScheduledCheck
                      (NewReleaseManager.set_isRunning true m)))
                fuel ltac:(lia)) as Loop.
  rewrite N in Loop. cbn [fst snd] in Loop. rewrite Loop.
  unfold NewReleaseManager.finally, NewReleaseManager.say, NewReleaseManager.set_isRunning.
  cbn [NewReleaseManager.isRunning NewReleaseManager.log].
  now rewrite <- !app_assoc.
Qed.

Lemma sweep_checks_each_due_series_in_order_witness :
  Sweep.run 5 [Examples.tracked; Examples.tracked]
    (snd (NewReleaseManager.runScheduledCheck 0
            {| NewReleaseManager.isRunning := false; NewReleaseManager.log := [] |}))
    (fst (NewReleaseManager.runScheduledCheck 0
            {| NewReleaseManager.isRunning := false; NewReleaseManager.log := [] |}))
  = ({| NewReleaseManager.isRunning := false;
        NewReleaseManager.log :=
          [StartingScheduledCheck; FoundSeriesDue 2; ScheduledCheckCompleted] |},
     NewReleaseManager.AwaitDue (NewReleaseManager.checkThreshold 0) 100
       :: Sweep.schedule [Examples.tracked; Examples.tracked],
     None).
Proof.
  apply (sweep_checks_each_due_series_in_order 0 [Examples.tracked; Examples.tracked]
           {| NewReleaseManager.isRunning := false; NewReleaseManager.log := [] |} 5);
    [reflexivity | simpl; lia].
Defined.

(** ** Following a series *)


(** X19.  [followSeries] never throws, whatever the network answers, and
    touches neither the releases nor the notifications.  For an unknown
    series it answers 404, makes no request and adds no row.  For a
    series the user follows already it answers the row and changes
    nothing.  Otherwise it appends one row for the user and the series,
    never checked and not auto-tracked, answers it, and starts a check of
    it exactly when an identifier of the series was found. *)
Theorem followSeries_answers {casing : Js.Casing} {validator : AsinValidator}
  (seriesId userId : uuid) (body_region : option string) (w : World) :
  exists followed w',
    SeriesTrackingController.followSeries seriesId userId body_region w = (Ok followed, w')
    /\ network w' = network w /\ clock w' = clock w /\ emitted w' = emitted w
    /\ newReleaseTable (db w') = newReleaseTable (db w)
    /\ match series_by_pk (db w) seriesId with
       | None =>
           followed
           = {| SeriesTrackingController.response :=
                  SeriesTrackingController.Status404 "Series not found";
                SeriesTrackingController.started_check := None |}
           /\ w' = with_logged (SeriesNotFound seriesId) w
       | Some series =>
           exists row,
             SeriesTrackingController.response followed = SeriesTrackingController.Json row
             /\ find (TrackedSeriesModel.matches userId seriesId)
                  (trackedSeriesTable (db w')) = Some row
             /\ match find (TrackedSeriesModel.matches userId seriesId)
                        (trackedSeriesTable (db w)) with
                | Some existing =>
                    row = existing
                    /\ SeriesTrackingController.started_check followed = None
                    /\ w' = w
                | None =>
                    trackedSeriesTable (db w') = (trackedSeriesTable (db w) ++ [row])%list
                    /\ ts_id row = nextId (db w)
                    /\ ts_userId row = userId /\ ts_seriesId row = seriesId
                    /\ ts_lastChecked row = None /\ ts_autoTracked row = false
                    /\ SeriesTrackingController.started_check followed
                       = match ts_seriesAsin row with
                         | Some _ => Some (ts_id row)
                         | None => None
                         end
                    /\ logged w'
                       = (logged w ++ [StartedFollowing userId (series_name series)])%list
                end
       end.
Proof.
  unfold SeriesTrackingController.followSeries.
  assert (E1 : series_findByPk seriesId w = (Ok (series_by_pk (db w) seriesId), w))
    by reflexivity.
  rewrite (AudibleFacts.bind_run _ _ _ _ _ E1).
  destruct (series_by_pk (db w) seriesId) as [series|] eqn:S.
  2:{ eexists _, _. split; [reflexivity|]. repeat split. }
  assert (E2 : TrackedSeriesModel.getByUserAndSeries userId seriesId w
               = (Ok (option_map TrackedSeriesModel.plain
                        (find (TrackedSeriesModel.matches userId seriesId)
                           (trackedSeriesTable (db w)))), w)) by reflexivity.
  rewrite (AudibleFacts.bind_run _ _ _ _ _ E2).
  destruct (find (TrackedSeriesModel.matches userId seriesId) (trackedSeriesTable (db w)))
    as [existing|] eqn:F; cbn [option_map].
  - eexists _, _. split; [reflexivity|]. repeat split.
    exists existing. repeat split. exact F.
  - assert (E3 : getBooksExpandedWithLibraryItem series w
                 = (Ok (series_books (db w) series), w)) by reflexivity.
    rewrite (AudibleFacts.bind_run _ _ _ _ _ E3).
    destruct (RunFacts.quiet_runs _ w
                (FollowFacts.quiet_follow_region body_region (series_books (db w) series)))
      as (region & wa & Ea & Qa).
    rewrite (AudibleFacts.bind_run _ _ _ _ _ Ea).
    destruct (RunFacts.quiet_runs _ wa
                (FollowFacts.quiet_follow_seriesAsin (series_books (db w) series) region))
      as (seriesAsin & wb & Eb & Qb).
    rewrite (AudibleFacts.bind_run _ _ _ _ _ Eb).
    pose proof (RunFacts.only_requests_trans _ _ _ Qa Qb) as (N & D & L & Em & C & _).
    set (data := {| TrackedSeriesModel.cd_userId := userId;
                    TrackedSeriesModel.cd_seriesId := seriesId;
                    TrackedSeriesModel.cd_seriesAsin := seriesAsin;
                    TrackedSeriesModel.cd_autoTracked := Some false;
                    TrackedSeriesModel.cd_region := Some region |}).
    assert (F' : find (TrackedSeriesModel.matches (TrackedSeriesModel.cd_userId data)
                         (TrackedSeriesModel.cd_seriesId data))
                   (trackedSeriesTable (db wb)) = None) by (rewrite D; exact F).
    assert (S' : series_by_pk (db wb) (TrackedSeriesModel.cd_seriesId data) = Some series)
      by (rewrite D; exact S).
    destruct (TrackingFacts.createTrackedSeries_new data wb series F' S')
      as (row & Ec & Ki & Ku & Ks & Ka & Kt & _ & Kl).
    rewrite (AudibleFacts.bind_run _ _ _ _ _ Ec).
    eexists _, _. split; [reflexivity|].
    cbn [network clock emitted logged db with_logged with_db newReleaseTable
         trackedSeriesTable with_nextId with_trackedSeriesTable
         SeriesTrackingController.response SeriesTrackingController.started_check
         inst_row TrackedSeriesModel.plain].
    rewrite D, L. repeat split; auto.
    exists row. split; [reflexivity|]. split.
    + apply TrackingFacts.find_app_none; [exact F|].
      now apply TrackingFacts.matches_refl.
    + rewrite <- D, Ka. cbn [TrackedSeriesModel.cd_seriesAsin data].
      repeat split; auto.
Qed.

(** ** Recording a release *)


(** X20.  A release that [createNewRelease] returns was appended to the
    table as pending, discovered at the time of the clock, with the
    provider given or ['audible'] and the release date as the [DATEONLY]
    column has it; its tracked series is there; [existsByAsin] finds it
    afterwards and [getForTrackedSeries] lists it; under the unique index
    it was not there before.  A call that throws changed nothing, and it
    throws the validation error, the identifier or the title missing,
    the uniqueness error, the index declared and the key there already,
    or the foreign-key error, no tracked series having the id. *)
Theorem created_release_is_found {engine : SqlEngine}
  (data : NewReleaseModel.CreateData) (w : World) :
  (forall row w',
     NewReleaseModel.createNewRelease data w = (Ok row, w') ->
     newReleaseTable (db w') = (newReleaseTable (db w) ++ [row])%list
     /\ nr_trackedSeriesId row = NewReleaseModel.cd_trackedSeriesId data
     /\ NewReleaseModel.cd_asin data = Some (nr_asin row)
     /\ nr_dismissed row = false
     /\ nr_discoveredAt row = clock w
     /\ nr_provider row = Js.or_else (NewReleaseModel.cd_provider data) "audible"
     /\ nr_releaseDate row
        = option_map dateonly (Js.or_null (NewReleaseModel.cd_releaseDate data))
     /\ NewReleaseModel.tracked_exists (db w) (nr_trackedSeriesId row) = true
     /\ NewReleaseModel.existsByAsin (nr_trackedSeriesId row) (nr_asin row) w'
        = (Ok true, w')
     /\ In row (NewReleaseModel.forTrackedSeries (nr_trackedSeriesId row) false
                  (newReleaseTable (db w')))
     /\ (release_index w = true ->
         NewReleaseModel.existsByAsin (nr_trackedSeriesId row) (nr_asin row) w
         = (Ok false, w)))
  /\ (forall e w',
        NewReleaseModel.createNewRelease data w = (Throw e, w') ->
        w' = w
        /\ ((e = SequelizeValidationError
             /\ (NewReleaseModel.cd_asin data = None
                 \/ NewReleaseModel.cd_title data = None))
            \/ (e = SequelizeUniqueConstraintError
                /\ release_index w = true
                /\ exists asin,
                     NewReleaseModel.cd_asin data = Some asin
                     /\ NewReleaseModel.existsByAsin
                          (NewReleaseModel.cd_trackedSeriesId data) asin w
                        = (Ok true, w))
            \/ (e = SequelizeForeignKeyConstraintError
                /\ NewReleaseModel.tracked_exists (db w)
                     (NewReleaseModel.cd_trackedSeriesId data) = false)))
  /\ (NewReleaseModel.cd_asin data <> None ->
      NewReleaseModel.cd_title data <> None ->
      NewReleaseModel.tracked_exists (db w) (NewReleaseModel.cd_trackedSeriesId data)
      = false ->
      exists e, NewReleaseModel.createNewRelease data w = (Throw e, w)).
Proof.
  assert (X : forall t a w0,
            NewReleaseModel.existsByAsin t a w0
            = (Ok (existsb (NewReleaseModel.same_key t a) (newReleaseTable (db w0))), w0)).
  { intros t a w0. unfold NewReleaseModel.existsByAsin. cbv [bind get_db ret].
    now rewrite RecordFacts.existsb_filter_length. }
  unfold NewReleaseModel.createNewRelease, NewReleaseModel.create.
  cbv [bind get_db now set_db ret throw]. cbv beta.
  destruct (NewReleaseModel.cd_asin data) as [a|];
    [|split; [discriminate|]; split;
      [intros e w' E; injection E as <- <-; split; auto | intros N; now elim N]].
  destruct (NewReleaseModel.cd_title data) as [t|];
    [|split; [discriminate|]; split;
      [intros e w' E; injection E as <- <-; split; auto | intros _ N; now elim N]].
  fold (release_index w).
  destruct (release_index w) eqn:I;
    destruct (existsb (NewReleaseModel.same_key (NewReleaseModel.cd_trackedSeriesId data) a)
                (newReleaseTable (db w))) eqn:K; cbn [andb].
  1:{ split; [discriminate|]. split; [|intros _ _ _; eexists; reflexivity].
      intros e w' E. injection E as <- <-. split; [reflexivity|].
      right. left. split; [reflexivity|]. split; [reflexivity|]. exists a.
      split; [reflexivity|]. now rewrite X, K. }
  all: destruct (NewReleaseModel.tracked_exists (db w)
                   (NewReleaseModel.cd_trackedSeriesId data)) eqn:T; cbn [negb].
  all: try (split; [discriminate|]; split; [|intros _ _ _; eexists; reflexivity];
            intros e w' E; injection E as <- <-; split; [reflexivity|];
            right; right; split; reflexivity).
  all: split; [|split; [discriminate | intros _ _ H; discriminate H]];
    intros row w' E; injection E as <- <-;
    cbn [db with_db newReleaseTable with_nextId with_newReleaseTable
         nr_trackedSeriesId nr_asin nr_dismissed nr_discoveredAt nr_provider
         nr_releaseDate];
    repeat (split; [solve [reflexivity | exact T]|]).
  all: split;
    [rewrite X; cbn [db with_db newReleaseTable with_nextId with_newReleaseTable];
     apply (f_equal (fun b : bool => (Ok b, _)));
     apply RecordFacts.existsb_app_last; unfold NewReleaseModel.same_key;
     cbn [nr_trackedSeriesId nr_asin]; now rewrite Nat.eqb_refl, String.eqb_refl|].
  all: split;
    [unfold NewReleaseModel.forTrackedSeries;
     apply (Permutation_in _ (Permutation_sym (SqlFacts.order_by_perm _ _)));
     apply filter_In; split;
     [apply in_or_app; right; now left
     | cbn [nr_trackedSeriesId nr_dismissed]; now rewrite Nat.eqb_refl]|].
  all: intros H; try discriminate H; now rewrite X, K.
Qed.

Lemma created_release_is_found_witness :
  exists row w',
    NewReleaseModel.createNewRelease
      {| NewReleaseModel.cd_trackedSeriesId := 10;
         NewReleaseModel.cd_asin := Some "B000000002";
         NewReleaseModel.cd_title := Some "Book Two";
         NewReleaseModel.cd_author := None; NewReleaseModel.cd_narrator := None;
         NewReleaseModel.cd_coverUrl := None; NewReleaseModel.cd_releaseDate := None;
         NewReleaseModel.cd_sequence := Some "2"; NewReleaseModel.cd_provider := None |}
      (Examples.world_of Examples.catalog_net Examples.library_db) = (Ok row, w')
    /\ NewReleaseModel.existsByAsin (nr_trackedSeriesId row) (nr_asin row) w' = (Ok true, w')
    /\ nr_provider row = "audible".
Proof.
  eexists _, _. split; [vm_compute; reflexivity|].
  destruct (proj1 (@created_release_is_found Sqlite.engine
                     {| NewReleaseModel.cd_trackedSeriesId := 10;
                        NewReleaseModel.cd_asin := Some "B000000002";
                        NewReleaseModel.cd_title := Some "Book Two";
                        NewReleaseModel.cd_author := None;
                        NewReleaseModel.cd_narrator := None;
                        NewReleaseModel.cd_coverUrl := None;
                        NewReleaseModel.cd_releaseDate := None;
                        NewReleaseModel.cd_sequence := Some "2";
                        NewReleaseModel.cd_provider := None |}
                     (Examples.world_of Examples.catalog_net Examples.library_db))
              _ _ eq_refl) as (_ & _ & _ & _ & _ & P & _ & _ & F & _).
  split; [exact F | exact P].
Defined.

(** ** The tracking status *)

Module StatusFacts.

Lemma existsb_find {A} (p : A -> bool) l :
  existsb p l = match find p l with Some _ => true | None => false end.
Proof.
  induction l as [|x r IH]; simpl; [reflexivity|]. now destruct (p x).
Qed.

(** What [getSeriesTrackingStatus] answers, from the first row of the
    user and the series. *)
Lemma getSeriesTrackingStatus_run seriesId userId w :
  Handlers.getSeriesTrackingStatus seriesId userId w
  = (Ok {| Handlers.isTracking :=
             match find (TrackedSeriesModel.matches userId seriesId)
                     (trackedSeriesTable (db w)) with
             | Some _ => true
             | None => false
             end;
           Handlers.trackedSeries :=
             find (TrackedSeriesModel.matches userId seriesId)
               (trackedSeriesTable (db w)) |}, w).
Proof.
  unfold Handlers.getSeriesTrackingStatus, TrackedSeriesModel.isTracking,
    TrackedSeriesModel.getByUserAndSeries.
  cbv [bind get_db ret]. cbv beta.
  rewrite RecordFacts.existsb_filter_length, existsb_find.
  destruct (find (TrackedSeriesModel.matches userId seriesId) (trackedSeriesTable (db w)))
    eqn:F; cbv beta iota; rewrite ?F; reflexivity.
Qed.

End StatusFacts.

(** X21.  [getSeriesTrackingStatus] changes nothing; it says that the
    series is tracked exactly when it hands back a tracked series, and
    that one is a row of the table for the user and the series.  After a
    [followSeries] that answered a row, the status says tracked, with
    that row. *)
Theorem tracking_status_is_consistent {casing : Js.Casing} {validator : AsinValidator}
  (seriesId userId : uuid) (w : World) :
  (exists status,
     Handlers.getSeriesTrackingStatus seriesId userId w = (Ok status, w)
     /\ (Handlers.isTracking status = true <-> Handlers.trackedSeries status <> None)
     /\ forall row,
          Handlers.trackedSeries status = Some row ->
          In row (trackedSeriesTable (db w))
          /\ ts_userId row = userId /\ ts_seriesId row = seriesId)
  /\ (forall body_region followed w1 row,
        SeriesTrackingController.followSeries seriesId userId body_region w
        = (Ok followed, w1) ->
        SeriesTrackingController.response followed = SeriesTrackingController.Json row ->
        Handlers.getSeriesTrackingStatus seriesId userId w1
        = (Ok {| Handlers.isTracking := true; Handlers.trackedSeries := Some row |}, w1)).
Proof.
  split.
  - eexists. split; [apply StatusFacts.getSeriesTrackingStatus_run|].
    cbn [Handlers.isTracking Handlers.trackedSeries].
    destruct (find _ (trackedSeriesTable (db w))) as [r|] eqn:F.
    + split; [split; [discriminate | reflexivity]|].
      intros row E. injection E as <-. destruct (find_some _ _ F) as [I M].
      unfold TrackedSeriesModel.matches in M. apply andb_true_iff in M as [Mu Ms].
      apply Nat.eqb_eq in Mu, Ms. auto.
    + split; [split; [discriminate | congruence] | discriminate].
  - intros body_region followed w1 row E J.
    destruct (FollowFacts.followSeries_establishes _ _ _ _ _ _ _ E J) as [F _].
    now rewrite StatusFacts.getSeriesTrackingStatus_run, F.
Qed.

Lemma tracking_status_is_consistent_witness :
  Handlers.getSeriesTrackingStatus 1 7
    (Examples.world_of Examples.catalog_net Examples.library_db)
  = (Ok {| Handlers.isTracking := true;
           Handlers.trackedSeries := Some Examples.tracked_row |},
     Examples.world_of Examples.catalog_net Examples.library_db).
Proof.
  exact (proj2 (@tracking_status_is_consistent Js.ascii_casing specValidASIN 1 7
                  (Examples.world_of Examples.catalog_net Examples.library_db))
           None _ _ Examples.tracked_row eq_refl eq_refl).
Defined.

(** ** The region of a library *)

Module RegionFacts.
Import SeriesTrackingController.

Lemma strip_prefix_spec p s r : strip_prefix p s = Some r <-> s = p ++ r.
Proof.
  revert s. induction p as [|a p IH]; intros s; simpl.
  - split; [intros E; now injection E | intros ->; reflexivity].
  - destruct s as [|b s]; [split; discriminate|].
    destruct (Ascii.eqb_spec a b) as [<-|D].
    + rewrite IH. split; [intros ->; reflexivity | intros E; now injection E].
    + split; [discriminate | intros E; injection E as E _; congruence].
Qed.

End RegionFacts.

(** X22.  The region of a library's provider is what follows
    ['audible.'] when that is one or more letters, digits or underscores
    and nothing else, as the pattern [^audible\.(\w+)$] has it.  The
    region [followSeries] settles on is never empty, and the provider
    comes first: when the library of the first book has a provider with
    such a region, that region is taken, whatever the request says;
    when it has none (no book, no library, no provider, or a provider of
    another form), the region is the one of the request when that is not
    empty, and ['us'] otherwise.  Settling on it changes nothing. *)
Theorem follow_region_is_never_empty {casing : Js.Casing} {validator : AsinValidator}
  (body_region : option string) (libraryBooks : list Book) (w : World) :
  (forall provider r,
      SeriesTrackingController.provider_region provider = Some r <->
      provider = "audible." ++ r
      /\ r <> ""
      /\ Js.all_chars SeriesTrackingController.is_word r = true)
  /\ exists region,
       SeriesTrackingController.follow_region body_region libraryBooks w = (Ok region, w)
       /\ region <> ""
       /\ (forall book rest libraryId library provider r,
             libraryBooks = book :: rest ->
             book_libraryId book = Some libraryId ->
             find (fun l => Nat.eqb (library_id l) libraryId) (libraryTable (db w))
             = Some library ->
             library_provider library = Some provider ->
             SeriesTrackingController.provider_region provider = Some r ->
             region = r)
       /\ ((forall book rest libraryId library provider,
               libraryBooks = book :: rest ->
               book_libraryId book = Some libraryId ->
               find (fun l => Nat.eqb (library_id l) libraryId) (libraryTable (db w))
               = Some library ->
               library_provider library = Some provider ->
               SeriesTrackingController.provider_region provider = None) ->
           region = Js.or_else body_region "us").
Proof.
  assert (P : forall provider r,
            SeriesTrackingController.provider_region provider = Some r <->
            provider = "audible." ++ r
            /\ r <> ""
            /\ Js.all_chars SeriesTrackingController.is_word r = true).
  { intros provider r. unfold SeriesTrackingController.provider_region.
    destruct (SeriesTrackingController.strip_prefix "audible." provider) as [r'|] eqn:S.
    - apply RegionFacts.strip_prefix_spec in S.
      destruct (Js.truthy r' && Js.all_chars SeriesTrackingController.is_word r') eqn:C.
      + apply andb_true_iff in C as [T A]. split.
        * intros E. injection E as <-. split; [exact S|]. split; [|exact A].
          intros ->. discriminate T.
        * intros (E & _ & _). rewrite S in E.
          apply (f_equal (SeriesTrackingController.strip_prefix "audible.")) in E.
          simpl in E. exact E.
      + split; [discriminate|]. intros (E & N & A). rewrite S in E.
        apply (f_equal (SeriesTrackingController.strip_prefix "audible.")) in E.
        simpl in E. injection E as ->. rewrite A, andb_true_r in C.
        destruct r; [now elim N | discriminate C].
    - split; [discriminate|]. intros (E & _).
      apply RegionFacts.strip_prefix_spec in E. congruence. }
  split; [exact P|].
  assert (D : Js.or_else body_region "us" <> "").
  { unfold Js.or_else. destruct body_region as [[|c s]|]; discriminate. }
  unfold SeriesTrackingController.follow_region.
  destruct libraryBooks as [|book rest].
  { eexists. split; [reflexivity|]. split; [exact D|]. split; [discriminate | auto]. }
  destruct (book_libraryId book) as [libraryId|] eqn:L.
  2:{ eexists. split; [reflexivity|]. split; [exact D|]. split; [|auto].
      intros b r0 lid lib p r E Lb. injection E as <- <-. congruence. }
  unfold library_findByPk. cbv [bind get_db]. cbv beta.
  change (ret (find (fun l => Nat.eqb (library_id l) libraryId) (libraryTable (db w))) w)
    with (Ok (find (fun l => Nat.eqb (library_id l) libraryId) (libraryTable (db w))), w).
  cbv iota beta.
  destruct (find (fun l => Nat.eqb (library_id l) libraryId) (libraryTable (db w)))
    as [library|] eqn:F.
  2:{ eexists. split; [reflexivity|]. split; [exact D|]. split; [|auto].
      intros b r0 lid lib p r E Lb Fl. injection E as <- <-.
      rewrite L in Lb. injection Lb as <-. congruence. }
  destruct (library_provider library) as [provider|] eqn:Pr.
  2:{ eexists. split; [reflexivity|]. split; [exact D|]. split; [|auto].
      intros b r0 lid lib p r E Lb Fl Pl. injection E as <- <-.
      rewrite L in Lb. injection Lb as <-. rewrite F in Fl. injection Fl as <-.
      congruence. }
  assert (Only : forall b r0 lid lib p,
            book :: rest = b :: r0 -> book_libraryId b = Some lid ->
            find (fun l => Nat.eqb (library_id l) lid) (libraryTable (db w)) = Some lib ->
            library_provider lib = Some p -> p = provider).
  { intros b r0 lid lib p E Lb Fl Pl. injection E as <- <-.
    rewrite L in Lb. injection Lb as <-. rewrite F in Fl. injection Fl as <-.
    congruence. }
  destruct (SeriesTrackingController.provider_region provider) as [r|] eqn:R.
  - assert (T : Js.truthy provider = true).
    { apply P in R as (-> & _). reflexivity. }
    rewrite T. exists r. split; [reflexivity|].
    split; [apply P in R; tauto|]. split.
    + intros b r0 lid lib p r' E Lb Fl Pl Rp.
      rewrite (Only b r0 lid lib p E Lb Fl Pl) in Rp. congruence.
    + intros H. specialize (H book rest libraryId library provider eq_refl L F Pr).
      congruence.
  - exists (Js.or_else body_region "us").
    split; [now destruct (Js.truthy provider)|]. split; [exact D|]. split; [|auto].
    intros b r0 lid lib p r' E Lb Fl Pl Rp.
    rewrite (Only b r0 lid lib p E Lb Fl Pl) in Rp. congruence.
Qed.

Lemma follow_region_is_never_empty_witness :
  SeriesTrackingController.provider_region "audible.uk" = Some "uk"
  /\ SeriesTrackingController.follow_region (Some "de")
       [{| book_asin := Some "b000000001"; book_libraryId := Some 3 |}]
       (Examples.world_of Examples.catalog_net Worlds.uk_library_db)
     = (Ok "uk", Examples.world_of Examples.catalog_net Worlds.uk_library_db).
Proof.
  split.
  - apply (proj1 (@follow_region_is_never_empty Js.ascii_casing specValidASIN None []
                    (Examples.world_of Examples.catalog_net Examples.library_db))).
    split; [reflexivity|]. split; [discriminate | reflexivity].
  - destruct (@follow_region_is_never_empty Js.ascii_casing specValidASIN (Some "de")
                [{| book_asin := Some "b000000001"; book_libraryId := Some 3 |}]
                (Examples.world_of Examples.catalog_net Worlds.uk_library_db))
      as (_ & region & E & _ & First & _).
    rewrite E. f_equal. f_equal.
    exact (First _ _ _ _ "audible.uk" "uk" eq_refl eq_refl eq_refl eq_refl eq_refl).
Defined.
